(** * Bill generator: the bill-data synthesis core of [src/lib/billGenerator.ts]

    A shallow embedding of the static methods of the class [BillGenerator]
    that compute the bill records:
    - the calendar behind the JavaScript [Date] objects the code builds,
    - [parseDate], [formatDate], [generateDateRange],
    - [generateUnitsDistribution] with its source of random numbers,
    - [distributeInvoicesAcrossDates], [createBillData],
    - [numberToWords], [generateAmountInWords],
    - [validateConfigurationLimits] and the presets [BILL_PRESETS],
    and of the pure helpers and handlers of the components
    [components/DateSettings.tsx] ([convertToInputDate],
    [convertFromInputDate], [addSpecificDate], [removeSpecificDate]) and
    [WeekdayExclusions] ([handleWeekdayToggle]).

    Conventions of the model.
    - A JavaScript number that the code uses as an integer is a [Z].
    - A call that can throw returns an [outcome]: [Returns v], [Throws msg]
      with the message of the [Error], or [Diverges] when the loop that is
      modelled with fuel has not finished within the fuel.
    - [Math.random()] is the next element of an infinite sequence of
      rationals of [[0,1)], the number of draws made so far is threaded
      through the code.
    - A [Date] is its time value, the milliseconds since the epoch; local
      time is UTC shifted by a fixed offset [tz] (no daylight saving), and
      the time value is not clipped to the range of ECMAScript's TimeClip
      ([valid_time] is that range). The module [Zoned] has the [Date] and
      the month-range code once more over an offset that changes.
    - An amount is the exact product of the units and the unit price; the
      code multiplies doubles, which gives the same number when both are
      integers and the product is below 2^53. *)

From Stdlib Require Import ZArith QArith Qround String Ascii List Lia.
From Stdlib Require DecimalString DecimalPos.
From Stdlib Require Import Sorted.
From stdpp Require Import base list strings.

Local Open Scope Z_scope.

(** ** Outcomes of calls that may throw *)

Inductive outcome (A : Type) : Type :=
  | Returns (v : A)
  | Throws (msg : string)
  | Diverges.

Arguments Returns {A} v.
Arguments Throws {A} msg.
Arguments Diverges {A}.

Global Instance outcome_ret : MRet outcome := fun A v => Returns v.

Global Instance outcome_bind : MBind outcome := fun A B k c =>
  match c with
  | Returns v => k v
  | Throws msg => Throws msg
  | Diverges => Diverges
  end.

(** [check b msg]: [if (b) throw new Error(msg)]. *)
Definition check (b : bool) (msg : string) : outcome unit :=
  if b then Throws msg else Returns tt.

(** ** Strings and numbers of the JavaScript runtime *)

Module JS.

(** [String(n)] for an integer [n]. *)
Definition string_of_Z (n : Z) : string :=
  DecimalString.NilZero.string_of_int (Z.to_int n).

(** [s.padStart(n, "0")]. *)
Definition padStart0 (n : nat) (s : string) : string :=
  String.concat "" (replicate (n - String.length s) "0"%string) +:+ s.

(** White space of [trim] and of [Number], among the ASCII characters. *)
Definition is_space (c : ascii) : bool :=
  let n := N_of_ascii c in
  ((n =? 32) || ((9 <=? n) && (n <=? 13)))%N.

Fixpoint trimStart (s : string) : string :=
  match s with
  | String c rest => if is_space c then trimStart rest else s
  | EmptyString => EmptyString
  end.

Fixpoint trimEnd (s : string) : string :=
  match s with
  | String c rest =>
      match trimEnd rest with
      | EmptyString => if is_space c then EmptyString else String c EmptyString
      | rest' => String c rest'
      end
  | EmptyString => EmptyString
  end.

Definition trim (s : string) : string := trimEnd (trimStart s).

(** [c.toUpperCase()] on one ASCII character. *)
Definition toUpperCase (c : ascii) : ascii :=
  let n := N_of_ascii c in
  if ((97 <=? n) && (n <=? 122))%N then ascii_of_N (n - 32) else c.

(** [s.charAt(0).toUpperCase() + s.slice(1)]. *)
Definition capitalize (s : string) : string :=
  match s with
  | String c rest => String (toUpperCase c) rest
  | EmptyString => EmptyString
  end.

(** [s.split(sep)] for a separator of one character. *)
Fixpoint split (sep : ascii) (s : string) : list string :=
  match s with
  | EmptyString => [EmptyString]
  | String c rest =>
      if Ascii.eqb c sep then EmptyString :: split sep rest
      else match split sep rest with
           | piece :: pieces => String c piece :: pieces
           | [] => [String c EmptyString]
           end
  end.

Definition is_digit (c : ascii) : bool :=
  let n := N_of_ascii c in ((48 <=? n) && (n <=? 57))%N.

Definition digit_value (c : ascii) : Z := Z.of_N (N_of_ascii c) - 48.

Fixpoint all_digits (s : string) : bool :=
  match s with
  | EmptyString => true
  | String c rest => is_digit c && all_digits rest
  end.

Fixpoint decimal_value (acc : Z) (s : string) : Z :=
  match s with
  | EmptyString => acc
  | String c rest => decimal_value (10 * acc + digit_value c) rest
  end.

(** [Number(s)], [None] for [NaN]. The model reads the empty string
    (after trimming) as 0 and a string of decimal digits as its value;
    every other string is [NaN] here (a sign, a fraction, an exponent or
    a radix prefix are outside the model). *)
Definition Number (s : string) : option Z :=
  let t := trim s in
  if all_digits t then Some (decimal_value 0 t) else None.

(** [l.includes(x)] on an array of numbers. *)
Definition includes (l : list Z) (x : Z) : bool := existsb (Z.eqb x) l.

(** A falsy string is the empty one. *)
Definition truthy (s : string) : bool :=
  match s with EmptyString => false | _ => true end.

(** [l.sort(cmp)]: the sort is stable, an element goes behind the
    elements it does not compare below. *)
Fixpoint insert_sorted {A : Type} (cmp : A -> A -> Z) (x : A) (l : list A) : list A :=
  match l with
  | [] => [x]
  | y :: l' => if cmp x y <? 0 then x :: l else y :: insert_sorted cmp x l'
  end.

Definition sort {A : Type} (cmp : A -> A -> Z) (l : list A) : list A :=
  fold_left (fun acc x => insert_sorted cmp x acc) l [].

End JS.

(** ** The proleptic Gregorian calendar *)

Module Calendar.

Definition isLeap (y : Z) : bool :=
  (((y mod 4 =? 0) && negb (y mod 100 =? 0)) || (y mod 400 =? 0))%bool.

(** Length of month [m] (1 = January) of year [y]. *)
Definition daysInMonth (y m : Z) : Z :=
  if m =? 2 then (if isLeap y then 29 else 28)
  else if ((m =? 4) || (m =? 6) || (m =? 9) || (m =? 11))%bool then 30
  else 31.

(** Years are counted from 1 March, in eras of 400 years:
    [year_start yoe] is the day of the era on which year [yoe] of the era
    starts, [month_start mp] the day of such a year on which its month
    [mp] (0 = March) starts. *)
Definition year_start (yoe : Z) : Z := 365 * yoe + yoe / 4 - yoe / 100.
Definition month_start (mp : Z) : Z := (153 * mp + 2) / 5.

(** Day number (0 = 1 January 1970) of day [d] of month [m] of year [y]. *)
Definition days_from_civil (y m d : Z) : Z :=
  let y' := if m <=? 2 then y - 1 else y in
  let era := y' / 400 in
  let yoe := y' mod 400 in
  let mp := (m + 9) mod 12 in
  let doy := month_start mp + d - 1 in
  let doe := year_start yoe + doy in
  era * 146097 + doe - 719468.

(** Year, month (1 = January) and day of the month of a day number. *)
Definition civil_from_days (z : Z) : Z * Z * Z :=
  let z' := z + 719468 in
  let era := z' / 146097 in
  let doe := z' mod 146097 in
  let yoe := (doe - doe / 1460 + doe / 36524 - doe / 146096) / 365 in
  let doy := doe - year_start yoe in
  let mp := (5 * doy + 2) / 153 in
  let d := doy - month_start mp + 1 in
  let m := if mp <? 10 then mp + 3 else mp - 9 in
  let y := yoe + era * 400 in
  ((if m <=? 2 then y + 1 else y), m, d).

End Calendar.

(** ** [Date] objects *)

Module JSDate.
Import Calendar.

(** A [Date] is its time value. *)
Definition Date : Type := Z.

Definition msPerDay : Z := 24 * 60 * 60 * 1000.

Definition Day (t : Z) : Z := t / msPerDay.
Definition TimeWithinDay (t : Z) : Z := t mod msPerDay.
Definition MakeDate (day time : Z) : Z := day * msPerDay + time.

(** [MakeDay(year, month, date)]: [month] counts from 0 and may lie
    outside of 0..11, [date] may lie outside of the month. *)
Definition MakeDay (year month date : Z) : Z :=
  let ym := year + month / 12 in
  let mn := month mod 12 in
  days_from_civil ym (mn + 1) 1 + date - 1.

(** The year the constructor of [Date] takes for its argument [year]. *)
Definition full_year (year : Z) : Z :=
  if (0 <=? year) && (year <=? 99) then 1900 + year else year.

Section LocalTime.
(** The offset of local time from UTC, in milliseconds. *)
Variable tz : Z.

Definition LocalTime (t : Z) : Z := t + tz.
Definition UTC (t : Z) : Z := t - tz.

(** [new Date(year, month, date)]; a year of 0..99 is 1900 + year. *)
Definition newDate (year month date : Z) : Date :=
  UTC (MakeDate (MakeDay (full_year year) month date) 0).

Definition civil (t : Date) : Z * Z * Z := civil_from_days (Day (LocalTime t)).

Definition getFullYear (t : Date) : Z := let '(y, _, _) := civil t in y.
Definition getMonth (t : Date) : Z := let '(_, m, _) := civil t in m - 1.
Definition getDate (t : Date) : Z := let '(_, _, d) := civil t in d.
Definition getDay (t : Date) : Z := (Day (LocalTime t) + 4) mod 7.
Definition getTime (t : Date) : Z := t.

(** [t.setDate(date)], the new time value. *)
Definition setDate (t : Date) (date : Z) : Date :=
  let lt := LocalTime t in
  UTC (MakeDate (MakeDay (getFullYear t) (getMonth t) date) (TimeWithinDay lt)).
End LocalTime.

End JSDate.

(** ** The bill generator *)

Inductive DateMode : Type := MonthRange | ExactRange | SpecificDates.

(** The optional argument [config] of [generateDateRange]. *)
Module DateOptions.
Record t : Type := {
  dateMode : option DateMode;
  exactStartDate : option string;
  exactEndDate : option string;
  specificDates : option (list string)
}.
End DateOptions.

Record BillConfig : Type := {
  invoiceStart : Z;
  invoiceEnd : Z;
  totalUnitsToSell : Z;
  minUnitsPerBill : Z;
  maxUnitsPerBill : Z;
  startMonth : Z;
  startYear : Z;
  endMonth : Z;
  endYear : Z;
  excludeWeekdays : list Z;
  unitPrice : Q;
  invoiceCell : string;
  dateCell : string;
  unitsCell : string;
  amountWordsCell : string;
  dateMode : option DateMode;
  exactStartDate : option string;
  exactEndDate : option string;
  specificDates : option (list string);
  allowMultipleInvoicesPerDay : option bool
}.

Record BillData : Type := {
  billNo : Z;
  date : string;
  units : Z;
  amount : Q
}.

(** The source of [Math.random()]: the [k]-th call returns [rnd k]. *)
Definition source : Type := nat -> Q.

(** [Math.floor(r * n)] for a draw [r]. *)
Definition randomInt (r : Q) (n : Z) : Z := Qfloor (r * inject_Z n).

(** The variables of the allocation loop of [generateUnitsDistribution]:
    the array [units], [remaining], and the number of draws made. *)
Record alloc : Type := {
  cur_units : list Z;
  cur_remaining : Z;
  cur_draws : nat
}.

Module BillGenerator.
Import JS JSDate.

Definition calculateNumBills (start end_ : Z) : Z := end_ - start + 1.

(** An element read from an array of numbers, inside its bounds. *)
Definition get (l : list Z) (i : nat) : Z := default 0 (l !! i).

(** An element read from an array of strings; outside of the bounds
    JavaScript gives [undefined]. *)
Definition get_str (l : list string) (i : nat) : string :=
  default "undefined"%string (l !! i).

Section LocalTime.
Variable tz : Z.

Definition parseDate (dateString : string) : option Date :=
  let parts := map Number (split "-" dateString) in
  match parts !! 0%nat, parts !! 1%nat, parts !! 2%nat with
  | Some (Some day), Some (Some month), Some (Some year) =>
      let date := newDate tz year (month - 1) day in
      if negb (getDate tz date =? day)
         || negb (getMonth tz date =? month - 1)
         || negb (getFullYear tz date =? year)
      then None
      else Some date
  | _, _, _ =>
      (* an argument is [NaN]: the Date is invalid, [getDate()] is [NaN] *)
      None
  end.

Definition formatDate (date : Date) : string :=
  let day := padStart0 2 (string_of_Z (getDate tz date)) in
  let month := padStart0 2 (string_of_Z (getMonth tz date + 1)) in
  let year := string_of_Z (getFullYear tz date) in
  day +:+ "-" +:+ month +:+ "-" +:+ year.

(** [/^\d{1,2}-\d{1,2}-\d{4}$/.test(s)] *)
Definition date_regex (s : string) : bool :=
  match split "-" s with
  | [d; m; y] =>
      all_digits d && all_digits m && all_digits y
      && (1 <=? String.length d)%nat && (String.length d <=? 2)%nat
      && (1 <=? String.length m)%nat && (String.length m <=? 2)%nat
      && (String.length y =? 4)%nat
  | _ => false
  end.

Definition validateDateFormat (dateString : string) : bool :=
  if negb (date_regex dateString) then false
  else match parseDate dateString with Some _ => true | None => false end.

(** The loop
    [while (currentDate <= finalDate) { ...; currentDate.setDate(currentDate.getDate() + 1) }],
    [None] when the fuel is used up. *)
Fixpoint day_loop (fuel : nat) (currentDate finalDate : Date)
    (excludeWeekdays : list Z) (validDates : list string) : option (list string) :=
  if currentDate <=? finalDate then
    match fuel with
    | O => None
    | S fuel' =>
        let validDates' :=
          if negb (includes excludeWeekdays (getDay tz currentDate))
          then validDates ++ [formatDate currentDate]
          else validDates in
        day_loop fuel' (setDate tz currentDate (getDate tz currentDate + 1))
                 finalDate excludeWeekdays validDates'
    end
  else Some validDates.

(** The number of iterations the loop is given: one per day from
    [currentDate] to [finalDate]. *)
Definition day_loop_fuel (currentDate finalDate : Date) : nat :=
  Z.to_nat ((finalDate - currentDate) / msPerDay + 1).

(** The loop [for (let day = 1; day <= lastDay; day++)] of the
    single-month branch, with [todo] iterations to go. *)
Fixpoint month_loop (todo : nat) (day : Z) (startYear startMonth : Z)
    (excludeWeekdays : list Z) (validDates : list string) : list string :=
  match todo with
  | O => validDates
  | S todo' =>
      let dateObj := newDate tz startYear (startMonth - 1) day in
      let validDates' :=
        if negb (includes excludeWeekdays (getDay tz dateObj))
        then validDates ++ [formatDate dateObj]
        else validDates in
      month_loop todo' (day + 1) startYear startMonth excludeWeekdays validDates'
  end.

Definition single_month (startMonth startYear : Z) (excludeWeekdays : list Z)
    : list string :=
  let nextMonth :=
    if startMonth =? 12 then newDate tz (startYear + 1) 0 1
    else newDate tz startYear startMonth 1 in
  let lastDay := getDate tz (getTime nextMonth - 24 * 60 * 60 * 1000) in
  month_loop (Z.to_nat lastDay) 1 startYear startMonth excludeWeekdays [].

Definition multi_month (startMonth startYear endMonth endYear : Z)
    (excludeWeekdays : list Z) : option (list string) :=
  let startDate := newDate tz startYear (startMonth - 1) 1 in
  let currentDate := startDate in
  let finalDate := newDate tz endYear endMonth 0 in
  day_loop (day_loop_fuel currentDate finalDate) currentDate finalDate
           excludeWeekdays [].

(** The enumeration of one month in the words of the specification:
    every calendar day from the first of the month through its last
    day, in ascending order, keeping a day iff its weekday is not
    excluded. *)
Definition month_days_spec (startMonth startYear : Z) (excludeWeekdays : list Z)
    : list string :=
  let first := newDate tz startYear (startMonth - 1) 1 in
  let len := Calendar.daysInMonth (full_year startYear + (startMonth - 1) / 12)
                                  ((startMonth - 1) mod 12 + 1) in
  map formatDate
    (List.filter (fun t => negb (includes excludeWeekdays (getDay tz t)))
       (map (fun k => first + Z.of_nat k * msPerDay) (seq 0 (Z.to_nat len)))).

(** The filter of the specific dates: a date is kept when it parses and
    its weekday is not excluded. *)
Definition specific_date_kept (excludeWeekdays : list Z) (date : string) : bool :=
  match parseDate date with
  | None => false
  | Some parsedDate => negb (includes excludeWeekdays (getDay tz parsedDate))
  end.

Definition no_specific_dates_message : string :=
  "No valid dates found in the specified dates after excluding weekdays".

Definition specific_dates_mode (excludeWeekdays : list Z) (dates : list string)
    : outcome (list string) :=
  let validDates := List.filter (specific_date_kept excludeWeekdays) dates in
  if (length validDates =? 0)%nat then Throws no_specific_dates_message
  else
    Returns (sort (fun a b =>
                     match parseDate a, parseDate b with
                     | Some dateA, Some dateB => getTime dateA - getTime dateB
                     | _, _ => 0
                     end) validDates).

Definition exact_range_mode (excludeWeekdays : list Z) (exactStart exactEnd : string)
    : outcome (list string) :=
  match parseDate exactStart, parseDate exactEnd with
  | Some startDate, Some endDate =>
      if startDate >? endDate then Throws "Start date cannot be after end date"
      else
        match day_loop (day_loop_fuel startDate endDate) startDate endDate
                       excludeWeekdays [] with
        | None => Diverges
        | Some validDates =>
            if (length validDates =? 0)%nat then
              Throws "No valid dates found in the specified date range after excluding weekdays"
            else Returns validDates
        end
  | _, _ =>
      Throws "Invalid start or end date format. Please use DD-MM-YYYY format."
  end.

Definition month_range_mode (startMonth startYear endMonth endYear : Z)
    (excludeWeekdays : list Z) : outcome (list string) :=
  let startDate := newDate tz startYear (startMonth - 1) 1 in
  let endDate := newDate tz endYear (endMonth - 1) 1 in
  if startDate >? endDate then Throws "Start date cannot be after end date"
  else
    let enumerated :=
      if (startMonth =? endMonth) && (startYear =? endYear)
      then Some (single_month startMonth startYear excludeWeekdays)
      else multi_month startMonth startYear endMonth endYear excludeWeekdays in
    match enumerated with
    | None => Diverges
    | Some validDates =>
        if (length validDates =? 0)%nat then
          Throws "No valid dates found with the given constraints. Try adjusting the date range or excluded weekdays."
        else Returns validDates
    end.

Definition generateDateRange (startMonth startYear endMonth endYear : Z)
    (excludeWeekdays : list Z) (config : option DateOptions.t)
    : outcome (list string) :=
  match config ≫= DateOptions.dateMode, config ≫= DateOptions.specificDates with
  | Some SpecificDates, Some (d :: ds) =>
      (* the mode is "specific-dates" and the list has a length *)
      specific_dates_mode excludeWeekdays (d :: ds)
  | _, _ =>
      match config ≫= DateOptions.dateMode,
            config ≫= DateOptions.exactStartDate,
            config ≫= DateOptions.exactEndDate with
      | Some ExactRange, Some exactStart, Some exactEnd =>
          if truthy exactStart && truthy exactEnd
          then exact_range_mode excludeWeekdays exactStart exactEnd
          else month_range_mode startMonth startYear endMonth endYear excludeWeekdays
      | _, _, _ =>
          month_range_mode startMonth startYear endMonth endYear excludeWeekdays
      end
  end.
End LocalTime.

(** *** The distribution of the units *)

(** The body of the loop [for (let i = 0; i < numBills && remaining > 0; i++)]
    at slot [i]. *)
Definition sweep_step (rnd : source) (maxUnits : Z) (i : nat) (s : alloc) : alloc :=
  let maxAdd := Z.min (cur_remaining s) (maxUnits - get (cur_units s) i) in
  if maxAdd >? 0 then
    let add := randomInt (rnd (cur_draws s)) (maxAdd + 1) in
    {| cur_units := <[i := get (cur_units s) i + add]> (cur_units s);
       cur_remaining := cur_remaining s - add;
       cur_draws := S (cur_draws s) |}
  else s.

(** [for (let i = 0; i < numBills && remaining > 0; i++)], with [todo]
    slots to go from slot [i]. *)
Fixpoint sweep (rnd : source) (maxUnits : Z) (todo : nat) (i : nat) (s : alloc) : alloc :=
  match todo with
  | O => s
  | S todo' =>
      if cur_remaining s >? 0
      then sweep rnd maxUnits todo' (S i) (sweep_step rnd maxUnits i s)
      else s
  end.

(** [while (remaining > 0) { for ... }], [None] when the fuel is used up. *)
Fixpoint allocate (fuel : nat) (rnd : source) (numBills maxUnits : Z) (s : alloc)
    : option alloc :=
  if cur_remaining s >? 0 then
    match fuel with
    | O => None
    | S fuel' =>
        allocate fuel' rnd numBills maxUnits (sweep rnd maxUnits (Z.to_nat numBills) 0 s)
    end
  else Some s.

(** [[units[i], units[j]] = [units[j], units[i]]] *)
Definition swap (i j : nat) (units : list Z) : list Z :=
  let ui := get units i in
  let uj := get units j in
  <[j := ui]> (<[i := uj]> units).

(** [for (let i = units.length - 1; i > 0; i--)], the shuffle, from
    index [i] down, after [k] draws. *)
Fixpoint shuffle (rnd : source) (i : nat) (units : list Z) (k : nat) : list Z :=
  match i with
  | O => units
  | S i' =>
      let j := Z.to_nat (randomInt (rnd k) (Z.of_nat i + 1)) in
      shuffle rnd i' (swap i j units) (S k)
  end.

Definition generateUnitsDistribution (fuel : nat) (rnd : source)
    (totalUnits numBills minUnits maxUnits : Z) : outcome (list Z) :=
  _ ← check (minUnits <=? 0) "Minimum units per bill must be greater than 0";
  _ ← check (maxUnits <=? 0) "Maximum units per bill must be greater than 0";
  _ ← check (minUnits >? maxUnits)
        ("Minimum units (" +:+ string_of_Z minUnits
         +:+ ") cannot be greater than maximum units (" +:+ string_of_Z maxUnits +:+ ")");
  _ ← check (totalUnits <=? 0) "Total units to sell must be greater than 0";
  _ ← check (numBills <=? 0) "Number of bills must be greater than 0";
  let minPossibleTotal := numBills * minUnits in
  let maxPossibleTotal := numBills * maxUnits in
  _ ← check (totalUnits <? minPossibleTotal)
        ("Cannot distribute " +:+ string_of_Z totalUnits +:+ " units across "
         +:+ string_of_Z numBills +:+ " bills with minimum " +:+ string_of_Z minUnits
         +:+ " units each. " +:+ "Minimum possible total: "
         +:+ string_of_Z minPossibleTotal +:+ " units. "
         +:+ "Either reduce the minimum units per bill or increase the total units to sell.");
  _ ← check (totalUnits >? maxPossibleTotal)
        ("Cannot distribute " +:+ string_of_Z totalUnits +:+ " units across "
         +:+ string_of_Z numBills +:+ " bills with maximum " +:+ string_of_Z maxUnits
         +:+ " units each. " +:+ "Maximum possible total: "
         +:+ string_of_Z maxPossibleTotal +:+ " units. "
         +:+ "Either increase the maximum units per bill or reduce the total units to sell.");
  let units := replicate (Z.to_nat numBills) minUnits in
  let remaining := totalUnits - minPossibleTotal in
  match allocate fuel rnd numBills maxUnits
          {| cur_units := units; cur_remaining := remaining; cur_draws := 0 |} with
  | None => Diverges
  | Some s =>
      Returns (shuffle rnd (length (cur_units s) - 1) (cur_units s) (cur_draws s))
  end.

(** *** The dates of the bills when a date may carry several bills *)

(** [Math.ceil(a / b)] *)
Definition ceil_div (a b : Z) : Z := - ((- a) / b).

(** [for (let i = 0; i < numBills; i++)], with [todo] bills to go. *)
Fixpoint spread_loop (todo : nat) (i : Z) (invoicesPerDate : Z)
    (availableDates distributedDates : list string) : list string :=
  match todo with
  | O => distributedDates
  | S todo' =>
      let dateIndex :=
        Z.rem (i / invoicesPerDate) (Z.of_nat (length availableDates)) in
      spread_loop todo' (i + 1) invoicesPerDate availableDates
        (distributedDates ++ [get_str availableDates (Z.to_nat dateIndex)])
  end.

(** [for (let i = distributedDates.length; i < numBills; i++)] *)
Fixpoint cycle_loop (todo : nat) (i : Z)
    (availableDates distributedDates : list string) : list string :=
  match todo with
  | O => distributedDates
  | S todo' =>
      let dateIndex := Z.rem i (Z.of_nat (length availableDates)) in
      cycle_loop todo' (i + 1) availableDates
        (distributedDates ++ [get_str availableDates (Z.to_nat dateIndex)])
  end.

Definition distributeInvoicesAcrossDates (numBills : Z) (availableDates : list string)
    : outcome (list string) :=
  _ ← check (length availableDates =? 0)%nat "No available dates for invoice distribution";
  let invoicesPerDate := ceil_div numBills (Z.of_nat (length availableDates)) in
  let distributedDates :=
    spread_loop (Z.to_nat numBills) 0 invoicesPerDate availableDates [] in
  let start := Z.of_nat (length distributedDates) in
  Returns (cycle_loop (Z.to_nat (numBills - start)) start availableDates distributedDates).

(** *** The bill records *)

Definition is_true (b : option bool) : bool := default false b.

(** The record of bill [i]: [{ billNo, date, units, amount }]. *)
Definition bill_record (config : BillConfig) (dates : list string) (unitsList : list Z)
    (i : nat) : BillData :=
  let billNo := invoiceStart config + Z.of_nat i in
  let date := get_str dates i in
  let units := get unitsList i in
  let amount := (inject_Z units * unitPrice config)%Q in
  {| billNo := billNo; date := date; units := units; amount := amount |}.

(** [for (let i = 0; i < numBills; i++) billData.push({ billNo, date, units, amount })] *)
Fixpoint bill_loop (todo : nat) (i : nat) (config : BillConfig)
    (dates : list string) (unitsList : list Z) (billData : list BillData)
    : list BillData :=
  match todo with
  | O => billData
  | S todo' =>
      bill_loop todo' (S i) config dates unitsList
        (billData ++ [bill_record config dates unitsList i])
  end.

(** The options [createBillData] passes to [generateDateRange]; the date
    mode is [config.dateMode || "month-range"]. *)
Definition date_options (config : BillConfig) : DateOptions.t :=
  {| DateOptions.dateMode := Some (default MonthRange (dateMode config));
     DateOptions.exactStartDate := exactStartDate config;
     DateOptions.exactEndDate := exactEndDate config;
     DateOptions.specificDates := specificDates config |}.

Definition createBillData (tz : Z) (fuel : nat) (rnd : source) (config : BillConfig)
    : outcome (list BillData) :=
  let numBills := calculateNumBills (invoiceStart config) (invoiceEnd config) in
  _ ← check ((invoiceStart config <=? 0) || (invoiceEnd config <=? 0))
        "Invoice numbers must be greater than 0";
  _ ← check (invoiceStart config >? invoiceEnd config)
        ("Invoice start (" +:+ string_of_Z (invoiceStart config)
         +:+ ") cannot be greater than invoice end ("
         +:+ string_of_Z (invoiceEnd config) +:+ ")");
  validDates ← generateDateRange tz
    (startMonth config) (startYear config) (endMonth config) (endYear config)
    (excludeWeekdays config) (Some (date_options config));
  _ ← check (length validDates =? 0)%nat "No valid dates found with the given constraints";
  _ ← check (negb (is_true (allowMultipleInvoicesPerDay config))
             && (Z.of_nat (length validDates) <? numBills))
        ("Not enough valid dates (" +:+ string_of_Z (Z.of_nat (length validDates))
         +:+ ") for the number of bills (" +:+ string_of_Z numBills +:+ "). "
         +:+ "Consider reducing the number of bills, expanding the date range, reducing excluded weekdays, or enabling "
         +:+ String (ascii_of_nat 34) "Allow multiple invoices per day"
         +:+ String (ascii_of_nat 34) ".");
  unitsList ← generateUnitsDistribution fuel rnd (totalUnitsToSell config) numBills
                (minUnitsPerBill config) (maxUnitsPerBill config);
  if is_true (allowMultipleInvoicesPerDay config) then
    distributedDates ← distributeInvoicesAcrossDates numBills validDates;
    Returns (bill_loop (Z.to_nat numBills) 0 config distributedDates unitsList [])
  else
    Returns (bill_loop (Z.to_nat numBills) 0 config validDates unitsList []).

(** *** The amount in words *)

Definition ones : list string :=
  [""; "one"; "two"; "three"; "four"; "five"; "six"; "seven"; "eight"; "nine"]%string.
Definition teens : list string :=
  ["ten"; "eleven"; "twelve"; "thirteen"; "fourteen"; "fifteen"; "sixteen";
   "seventeen"; "eighteen"; "nineteen"]%string.
Definition tens : list string :=
  [""; ""; "twenty"; "thirty"; "forty"; "fifty"; "sixty"; "seventy"; "eighty";
   "ninety"]%string.
Definition thousands : list string := [""; "thousand"; "million"; "billion"]%string.

Definition convertHundreds (n : Z) : string :=
  let result := ""%string in
  let '(result, n) :=
    if n >=? 100 then (result +:+ get_str ones (Z.to_nat (n / 100)) +:+ " hundred ",
                       Z.rem n 100)
    else (result, n) in
  let result :=
    if n >=? 20 then
      let result := result +:+ get_str tens (Z.to_nat (n / 10)) in
      if negb (Z.rem n 10 =? 0) then result +:+ "-" +:+ get_str ones (Z.to_nat (Z.rem n 10))
      else result
    else if n >=? 10 then result +:+ get_str teens (Z.to_nat (n - 10))
    else if n >? 0 then result +:+ get_str ones (Z.to_nat n)
    else result in
  trim result.

(** [while (num > 0) { ...; num = Math.floor(num / 1000); thousandCounter++ }],
    [None] when the fuel is used up. *)
Fixpoint words_loop (fuel : nat) (num : Z) (thousandCounter : nat) (result : string)
    : option string :=
  if num >? 0 then
    match fuel with
    | O => None
    | S fuel' =>
        let result' :=
          if negb (Z.rem num 1000 =? 0) then
            convertHundreds (Z.rem num 1000)
            +:+ (match thousands !! thousandCounter with
                 | Some name => if truthy name then " " +:+ name else ""
                 | None => ""
                 end)
            +:+ " " +:+ result
          else result in
        words_loop fuel' (num / 1000) (S thousandCounter) result'
    end
  else Some result.

(** The loop divides [num] by 1000 each time: the binary size of [num]
    bounds the number of its iterations. *)
Definition words_loop_fuel (num : Z) : nat := S (Z.to_nat (Z.log2 num)).

Definition numberToWords (num : Z) : outcome string :=
  if num =? 0 then Returns "zero"%string
  else if num <? 1000 then Returns (convertHundreds num)
  else
    match words_loop (words_loop_fuel num) num 0 "" with
    | None => Diverges
    | Some result => Returns (trim result)
    end.

Definition generateAmountInWords (amount : Z) : outcome string :=
  words ← numberToWords amount;
  Returns ("( Rs. " +:+ capitalize words +:+ " only )").

(** *** Further functions of the class *)

(** The days from [start] on, [n] of them, one day apart. *)
Fixpoint days_from (start : Date) (n : nat) : list Date :=
  match n with
  | O => []
  | S k => start :: days_from (start + msPerDay) k
  end.

(** A day is kept when its weekday is not excluded. *)
Definition weekday_kept (tz : Z) (excludeWeekdays : list Z) (t : Date) : bool :=
  negb (includes excludeWeekdays (getDay tz t)).

(** The comparison the dates are sorted with. *)
Definition compare_dates (tz : Z) (a b : string) : Z :=
  match parseDate tz a, parseDate tz b with
  | Some dateA, Some dateB => getTime dateA - getTime dateB
  | _, _ => 0
  end.

(** The time of a date string that parses, by which the dates are ordered. *)
Definition date_key (tz : Z) (s : string) : Z :=
  match parseDate tz s with
  | Some t => getTime t
  | None => 0
  end.

(** The months counted from January of the year 0. *)
Definition month_index (year month : Z) : Z := 12 * full_year year + month.

(** The time values of the [Date] objects that are no Invalid Date: ECMAScript's
    TimeClip keeps the time values of at most 8.64e15 milliseconds from the
    epoch. On these the model, which does not clip, is the [Date] of the
    code. *)
Definition maxTime : Z := 8640000000000000.
Definition valid_time (t : Date) : Prop := - maxTime <= t <= maxTime.

(** The options with which [generateDateRange] passes its first two guards
    and takes the range of the months: the mode is not that of the specific
    dates with a list that has a length, nor that of the exact range with
    its two dates given. *)
Definition month_range_selected (config : option DateOptions.t) : bool :=
  match config ≫= DateOptions.dateMode, config ≫= DateOptions.specificDates with
  | Some SpecificDates, Some (_ :: _) => false
  | _, _ =>
      match config ≫= DateOptions.dateMode,
            config ≫= DateOptions.exactStartDate,
            config ≫= DateOptions.exactEndDate with
      | Some ExactRange, Some exactStart, Some exactEnd =>
          negb (truthy exactStart && truthy exactEnd)
      | _, _, _ => true
      end
  end.

(** [{ ...config, allowMultipleInvoicesPerDay: multiple }] *)
Definition set_allowMultiple (multiple : bool) (config : BillConfig) : BillConfig :=
  {| invoiceStart := invoiceStart config; invoiceEnd := invoiceEnd config;
     totalUnitsToSell := totalUnitsToSell config;
     minUnitsPerBill := minUnitsPerBill config;
     maxUnitsPerBill := maxUnitsPerBill config;
     startMonth := startMonth config; startYear := startYear config;
     endMonth := endMonth config; endYear := endYear config;
     excludeWeekdays := excludeWeekdays config; unitPrice := unitPrice config;
     invoiceCell := invoiceCell config; dateCell := dateCell config;
     unitsCell := unitsCell config; amountWordsCell := amountWordsCell config;
     dateMode := dateMode config; exactStartDate := exactStartDate config;
     exactEndDate := exactEndDate config; specificDates := specificDates config;
     allowMultipleInvoicesPerDay := Some multiple |}.

(** The result of [validateConfigurationLimits]. *)
Record Validation : Type := {
  isValid : bool;
  errors : list string
}.

Definition too_low_message (total numBills lo minPossibleTotal : Z) : string :=
  "Total units (" +:+ string_of_Z total +:+ ") is too low. With "
  +:+ string_of_Z numBills +:+ " bills and minimum " +:+ string_of_Z lo
  +:+ " units each, you need at least " +:+ string_of_Z minPossibleTotal +:+ " units.".

Definition too_high_message (total numBills hi maxPossibleTotal : Z) : string :=
  "Total units (" +:+ string_of_Z total +:+ ") is too high. With "
  +:+ string_of_Z numBills +:+ " bills and maximum " +:+ string_of_Z hi
  +:+ " units each, you can sell at most " +:+ string_of_Z maxPossibleTotal +:+ " units.".

Definition not_enough_specific_message (valid numBills : Z) : string :=
  "Not enough valid specific dates (" +:+ string_of_Z valid +:+ ") for "
  +:+ string_of_Z numBills
  +:+ " bills. Please add more dates, use date range, or enable "
  +:+ String (ascii_of_nat 34) "Allow multiple invoices per day"
  +:+ String (ascii_of_nat 34) ".".

Definition both_dates_required_message : string :=
  "Both start date and end date are required for exact date range mode.".
Definition invalid_exact_format_message : string :=
  "Invalid date format. Please use DD-MM-YYYY format for both start and end dates.".
Definition start_after_end_message : string :=
  "Start date cannot be after end date.".

Definition validateConfigurationLimits (tz : Z) (config : BillConfig) : Validation :=
  let errors : list string := [] in
  let numBills := calculateNumBills (invoiceStart config) (invoiceEnd config) in
  let minPossibleTotal := numBills * minUnitsPerBill config in
  let maxPossibleTotal := numBills * maxUnitsPerBill config in
  let errors :=
    if totalUnitsToSell config <? minPossibleTotal
    then errors ++ [too_low_message (totalUnitsToSell config) numBills
                      (minUnitsPerBill config) minPossibleTotal]
    else errors in
  let errors :=
    if totalUnitsToSell config >? maxPossibleTotal
    then errors ++ [too_high_message (totalUnitsToSell config) numBills
                      (maxUnitsPerBill config) maxPossibleTotal]
    else errors in
  let errors :=
    match dateMode config, specificDates config with
    | Some SpecificDates, Some dates =>
        let validDates := List.filter (validateDateFormat tz) dates in
        if negb (is_true (allowMultipleInvoicesPerDay config))
           && (Z.of_nat (length validDates) <? numBills)
        then errors ++ [not_enough_specific_message (Z.of_nat (length validDates)) numBills]
        else errors
    | _, _ => errors
    end in
  let errors :=
    match dateMode config with
    | Some ExactRange =>
        match exactStartDate config, exactEndDate config with
        | Some exactStart, Some exactEnd =>
            if negb (truthy exactStart) || negb (truthy exactEnd)
            then errors ++ [both_dates_required_message]
            else
              match parseDate tz exactStart, parseDate tz exactEnd with
              | Some startDate, Some endDate =>
                  if startDate >? endDate then errors ++ [start_after_end_message]
                  else errors
              | _, _ => errors ++ [invalid_exact_format_message]
              end
        | _, _ => errors ++ [both_dates_required_message]
        end
    | _ => errors
    end in
  {| isValid := (length errors =? 0)%nat; errors := errors |}.

End BillGenerator.

(** ** The expansion of a month in a time zone whose offset changes *)

(** The [Date] objects and the month-range code of [generateDateRange] once
    more, over local time with daylight saving time: the offset of local
    time is ECMAScript's [LocalTZA(t, isUTC)], and nothing else differs from
    the definitions above, which are the case of a zone without a change
    ([fixed_zone]). *)
Module Zoned.
Import JS Calendar JSDate.

(** [LocalTZA(t, isUTC)]: the offset of local time from UTC in milliseconds,
    at the time value [t] when [isUTC], at the local time [t] otherwise. *)
Definition zone : Type := Z -> bool -> Z.

Definition fixed_zone (tz : Z) : zone := fun _ _ => tz.

Definition msPerHour : Z := 60 * 60 * 1000.

(** Europe/Berlin in 2024: one hour ahead of UTC, two hours from
    31 March 01:00 UTC to 27 October 01:00 UTC. A local time that the clock
    skips is read with the offset before the change, a local time that
    occurs twice as the first of the two. *)
Definition europe_berlin : zone := fun t isUTC =>
  let spring := 1711846800000 in
  let autumn := 1729990800000 in
  if isUTC then
    if (spring <=? t) && (t <? autumn) then 2 * msPerHour else msPerHour
  else
    if (spring + 2 * msPerHour <=? t) && (t <? autumn + 2 * msPerHour)
    then 2 * msPerHour else msPerHour.

Section LocalTime.
Variable z : zone.

Definition LocalTime (t : Z) : Z := t + z t true.
Definition UTC (t : Z) : Z := t - z t false.

Definition newDate (year month date : Z) : Date :=
  UTC (MakeDate (MakeDay (full_year year) month date) 0).

Definition civil (t : Date) : Z * Z * Z := civil_from_days (Day (LocalTime t)).

Definition getFullYear (t : Date) : Z := let '(y, _, _) := civil t in y.
Definition getMonth (t : Date) : Z := let '(_, m, _) := civil t in m - 1.
Definition getDate (t : Date) : Z := let '(_, _, d) := civil t in d.
Definition getDay (t : Date) : Z := (Day (LocalTime t) + 4) mod 7.
Definition getTime (t : Date) : Z := t.

Definition setDate (t : Date) (date : Z) : Date :=
  let lt := LocalTime t in
  UTC (MakeDate (MakeDay (getFullYear t) (getMonth t) date) (TimeWithinDay lt)).

Definition formatDate (date : Date) : string :=
  let day := padStart0 2 (string_of_Z (getDate date)) in
  let month := padStart0 2 (string_of_Z (getMonth date + 1)) in
  let year := string_of_Z (getFullYear date) in
  day +:+ "-" +:+ month +:+ "-" +:+ year.

(** [while (currentDate <= finalDate) { ...; currentDate.setDate(currentDate.getDate() + 1) }] *)
Fixpoint day_loop (fuel : nat) (currentDate finalDate : Date)
    (excludeWeekdays : list Z) (validDates : list string) : option (list string) :=
  if currentDate <=? finalDate then
    match fuel with
    | O => None
    | S fuel' =>
        let validDates' :=
          if negb (includes excludeWeekdays (getDay currentDate))
          then validDates ++ [formatDate currentDate]
          else validDates in
        day_loop fuel' (setDate currentDate (getDate currentDate + 1))
                 finalDate excludeWeekdays validDates'
    end
  else Some validDates.

(** [for (let day = 1; day <= lastDay; day++)] *)
Fixpoint month_loop (todo : nat) (day : Z) (startYear startMonth : Z)
    (excludeWeekdays : list Z) (validDates : list string) : list string :=
  match todo with
  | O => validDates
  | S todo' =>
      let dateObj := newDate startYear (startMonth - 1) day in
      let validDates' :=
        if negb (includes excludeWeekdays (getDay dateObj))
        then validDates ++ [formatDate dateObj]
        else validDates in
      month_loop todo' (day + 1) startYear startMonth excludeWeekdays validDates'
  end.

(** The single-month branch: the last day of the month is the day of the
    month of [nextMonth.getTime() - 24 * 60 * 60 * 1000]. *)
Definition single_month (startMonth startYear : Z) (excludeWeekdays : list Z)
    : list string :=
  let nextMonth :=
    if startMonth =? 12 then newDate (startYear + 1) 0 1
    else newDate startYear startMonth 1 in
  let lastDay := getDate (getTime nextMonth - 24 * 60 * 60 * 1000) in
  month_loop (Z.to_nat lastDay) 1 startYear startMonth excludeWeekdays [].

(** The multi-month branch, with the fuel of its loop. *)
Definition multi_month (fuel : nat) (startMonth startYear endMonth endYear : Z)
    (excludeWeekdays : list Z) : option (list string) :=
  let startDate := newDate startYear (startMonth - 1) 1 in
  let currentDate := startDate in
  let finalDate := newDate endYear endMonth 0 in
  day_loop fuel currentDate finalDate excludeWeekdays [].

Definition month_range_mode (fuel : nat) (startMonth startYear endMonth endYear : Z)
    (excludeWeekdays : list Z) : outcome (list string) :=
  let startDate := newDate startYear (startMonth - 1) 1 in
  let endDate := newDate endYear (endMonth - 1) 1 in
  if startDate >? endDate then Throws "Start date cannot be after end date"
  else
    let enumerated :=
      if (startMonth =? endMonth) && (startYear =? endYear)
      then Some (single_month startMonth startYear excludeWeekdays)
      else multi_month fuel startMonth startYear endMonth endYear excludeWeekdays in
    match enumerated with
    | None => Diverges
    | Some validDates =>
        if (length validDates =? 0)%nat then
          Throws "No valid dates found with the given constraints. Try adjusting the date range or excluded weekdays."
        else Returns validDates
    end.
End LocalTime.

End Zoned.

(** ** The presets ([BILL_PRESETS]) *)

Module BillPreset.
Record t : Type := {
  name : string;
  description : string;
  config : BillConfig
}.
End BillPreset.

Definition BILL_PRESETS : list BillPreset.t :=
  [ {| BillPreset.name := "Default May 2025";
       BillPreset.description := "129 bills in May 2025, excluding Tuesdays";
       BillPreset.config :=
         {| invoiceStart := 110; invoiceEnd := 238; totalUnitsToSell := 645;
            minUnitsPerBill := 2; maxUnitsPerBill := 12;
            startMonth := 5; startYear := 2025; endMonth := 5; endYear := 2025;
            excludeWeekdays := [2]; unitPrice := 400;
            invoiceCell := "I10"; dateCell := "I9"; unitsCell := "G20";
            amountWordsCell := "D39";
            dateMode := Some MonthRange; exactStartDate := None; exactEndDate := None;
            specificDates := None; allowMultipleInvoicesPerDay := Some true |} |};
    {| BillPreset.name := "June Weekend Sales";
       BillPreset.description := "50 bills in June 2025, excluding weekends";
       BillPreset.config :=
         {| invoiceStart := 300; invoiceEnd := 349; totalUnitsToSell := 400;
            minUnitsPerBill := 5; maxUnitsPerBill := 15;
            startMonth := 6; startYear := 2025; endMonth := 6; endYear := 2025;
            excludeWeekdays := [0; 6]; unitPrice := 500;
            invoiceCell := "I10"; dateCell := "I9"; unitsCell := "G20";
            amountWordsCell := "D39";
            dateMode := Some MonthRange; exactStartDate := None; exactEndDate := None;
            specificDates := None; allowMultipleInvoicesPerDay := Some false |} |};
    {| BillPreset.name := "High Volume March";
       BillPreset.description := "200 bills in March 2025, excluding Sunday only";
       BillPreset.config :=
         {| invoiceStart := 1000; invoiceEnd := 1199; totalUnitsToSell := 2000;
            minUnitsPerBill := 8; maxUnitsPerBill := 12;
            startMonth := 3; startYear := 2025; endMonth := 3; endYear := 2025;
            excludeWeekdays := [0]; unitPrice := 350;
            invoiceCell := "I10"; dateCell := "I9"; unitsCell := "G20";
            amountWordsCell := "D39";
            dateMode := Some MonthRange; exactStartDate := None; exactEndDate := None;
            specificDates := None; allowMultipleInvoicesPerDay := Some true |} |};
    {| BillPreset.name := "July No Restrictions";
       BillPreset.description := "100 bills in July 2025, no day restrictions";
       BillPreset.config :=
         {| invoiceStart := 2000; invoiceEnd := 2099; totalUnitsToSell := 800;
            minUnitsPerBill := 6; maxUnitsPerBill := 10;
            startMonth := 7; startYear := 2025; endMonth := 7; endYear := 2025;
            excludeWeekdays := []; unitPrice := 450;
            invoiceCell := "I10"; dateCell := "I9"; unitsCell := "G20";
            amountWordsCell := "D39";
            dateMode := Some MonthRange; exactStartDate := None; exactEndDate := None;
            specificDates := None; allowMultipleInvoicesPerDay := Some true |} |};
    {| BillPreset.name := "Custom Specific Dates";
       BillPreset.description := "5 bills on specific dates in July 2025";
       BillPreset.config :=
         {| invoiceStart := 3000; invoiceEnd := 3004; totalUnitsToSell := 40;
            minUnitsPerBill := 6; maxUnitsPerBill := 10;
            startMonth := 7; startYear := 2025; endMonth := 7; endYear := 2025;
            excludeWeekdays := []; unitPrice := 500;
            invoiceCell := "I10"; dateCell := "I9"; unitsCell := "G20";
            amountWordsCell := "D39";
            dateMode := Some SpecificDates; exactStartDate := None; exactEndDate := None;
            specificDates :=
              Some ["01-07-2025"; "05-07-2025"; "10-07-2025"; "15-07-2025";
                    "20-07-2025"]%string;
            allowMultipleInvoicesPerDay := Some false |} |};
    {| BillPreset.name := "Exact Date Range";
       BillPreset.description := "10 bills from March 15 to April 1, 2025";
       BillPreset.config :=
         {| invoiceStart := 4000; invoiceEnd := 4009; totalUnitsToSell := 80;
            minUnitsPerBill := 6; maxUnitsPerBill := 10;
            startMonth := 3; startYear := 2025; endMonth := 4; endYear := 2025;
            excludeWeekdays := [0]; unitPrice := 450;
            invoiceCell := "I10"; dateCell := "I9"; unitsCell := "G20";
            amountWordsCell := "D39";
            dateMode := Some ExactRange;
            exactStartDate := Some "15-03-2025"%string;
            exactEndDate := Some "01-04-2025"%string;
            specificDates := None; allowMultipleInvoicesPerDay := Some false |} |} ].

(** ** The helpers and handlers of the date settings ([components/DateSettings.tsx]) *)

Module DateSettings.
Import JS BillGenerator.

(** [convertToInputDate]: from DD-MM-YYYY to YYYY-MM-DD. A missing month
    makes [month.padStart] throw, and the [catch] returns the empty string;
    a missing year is printed as [undefined]. *)
Definition convertToInputDate (ddmmyyyy : string) : string :=
  let parts := split "-" ddmmyyyy in
  match parts !! 0%nat, parts !! 1%nat with
  | Some day, Some month =>
      get_str parts 2 +:+ "-" +:+ padStart0 2 month +:+ "-" +:+ padStart0 2 day
  | _, _ => ""
  end.

(** [convertFromInputDate]: from YYYY-MM-DD to DD-MM-YYYY. *)
Definition convertFromInputDate (yyyymmdd : string) : string :=
  let parts := split "-" yyyymmdd in
  get_str parts 2 +:+ "-" +:+ get_str parts 1 +:+ "-" +:+ get_str parts 0.

(** What [addSpecificDate] does with the date typed in: nothing, one of two
    messages, or the new list of the specific dates. *)
Inductive AddOutcome : Type :=
  | Ignored
  | InvalidDateFormat
  | DuplicateDate
  | DatesUpdated (updatedDates : list string).

Definition addSpecificDate (tz : Z) (newDate : string) (specificDates : list string)
    : AddOutcome :=
  if negb (truthy newDate) then Ignored
  else if negb (validateDateFormat tz newDate) then InvalidDateFormat
  else if existsb (String.eqb newDate) specificDates then DuplicateDate
  else DatesUpdated (sort (compare_dates tz) (specificDates ++ [newDate])).

Definition removeSpecificDate (dateToRemove : string) (specificDates : list string)
    : list string :=
  List.filter (fun date => negb (String.eqb date dateToRemove)) specificDates.

(** The list of the specific dates as the two handlers keep it: dates that
    [validateDateFormat] accepts, none twice, in ascending order. *)
Definition dates_invariant (tz : Z) (specificDates : list string) : Prop :=
  Forall (fun d => validateDateFormat tz d = true) specificDates
  /\ NoDup specificDates
  /\ StronglySorted (fun a b => date_key tz a <= date_key tz b) specificDates.

End DateSettings.

(** ** The weekday check boxes ([WeekdayExclusions]) *)

Module WeekdayExclusions.
Import JS.

(** [handleWeekdayToggle]: the new list of the excluded weekdays. *)
Definition handleWeekdayToggle (excludedWeekdays : list Z) (weekday : Z) : list Z :=
  if includes excludedWeekdays weekday
  then List.filter (fun d => negb (d =? weekday)) excludedWeekdays
  else excludedWeekdays ++ [weekday].

End WeekdayExclusions.

(** ** Checks over a range of numbers *)

(** [p] holds of the [n] numbers from [z] on. *)
Fixpoint forall_from (n : nat) (z : Z) (p : Z -> bool) : bool :=
  match n with
  | O => true
  | S k => p z && forall_from k (z + 1) p
  end.

(** ** Sample inputs *)

(** The specific-dates mode with the given list; the other modes' fields are
    left out. *)
Definition specific_dates_options (dates : option (list string)) : DateOptions.t :=
  {| DateOptions.dateMode := Some SpecificDates;
     DateOptions.exactStartDate := None;
     DateOptions.exactEndDate := None;
     DateOptions.specificDates := dates |}.

(** Bills [first] to [last] for May 2025, [total] units, [lo] to [hi] units
    a bill, in the date mode [mode] with the specific dates [dates]. *)
Definition sample_config (first last total lo hi : Z) (excl : list Z)
    (mode : option DateMode) (dates : option (list string)) (multiple : bool)
    : BillConfig :=
  {| invoiceStart := first; invoiceEnd := last;
     totalUnitsToSell := total; minUnitsPerBill := lo; maxUnitsPerBill := hi;
     startMonth := 5; startYear := 2025; endMonth := 5; endYear := 2025;
     excludeWeekdays := excl; unitPrice := 100;
     invoiceCell := "A1"; dateCell := "A2"; unitsCell := "A3"; amountWordsCell := "A4";
     dateMode := mode; exactStartDate := None; exactEndDate := None;
     specificDates := dates;
     allowMultipleInvoicesPerDay := Some multiple |}.

(** ** The distributor: its inputs and its source of random numbers *)

(** [Math.random()] returns a number of [[0,1)]. *)
Definition valid_source (rnd : source) : Prop :=
  forall k, (0 <= rnd k)%Q /\ (rnd k < 1)%Q.

(** The source returns a number of [[1/2,1)] again and again. Such a draw
    adds at least one unit to a slot that can take one. *)
Definition fair (rnd : source) : Prop :=
  forall k, exists k', (k <= k')%nat /\ (1 # 2 <= rnd k')%Q.

(** The preconditions of the distributor. *)
Definition valid_distribution (total count lo hi : Z) : Prop :=
  0 < lo /\ 0 < hi /\ lo <= hi /\ 0 < total /\ 0 < count
  /\ count * lo <= total /\ total <= count * hi.

Definition sumZ (l : list Z) : Z := foldr Z.add 0 l.

(** The state of the allocation loop when it is entered. *)
Definition initial_alloc (total count lo : Z) : alloc :=
  {| cur_units := replicate (Z.to_nat count) lo;
     cur_remaining := total - count * lo;
     cur_draws := 0 |}.

(** What the allocation loop keeps: the slots are [n], each within
    [[lo, hi]], and the units given out and the units left make the total. *)
Definition alloc_inv (total : Z) (n : nat) (lo hi : Z) (s : alloc) : Prop :=
  length (cur_units s) = n
  /\ Forall (fun u => lo <= u <= hi) (cur_units s)
  /\ sumZ (cur_units s) + cur_remaining s = total
  /\ 0 <= cur_remaining s.

(** The configuration passes every validation of [createBillData]: the
    invoice numbers, the dates, and the preconditions of the distributor. *)
Definition passes_validations (tz : Z) (config : BillConfig) : Prop :=
  let numBills :=
    BillGenerator.calculateNumBills (invoiceStart config) (invoiceEnd config) in
  0 < invoiceStart config /\ 0 < invoiceEnd config
  /\ invoiceStart config <= invoiceEnd config
  /\ (exists validDates,
        BillGenerator.generateDateRange tz
          (startMonth config) (startYear config) (endMonth config) (endYear config)
          (excludeWeekdays config) (Some (BillGenerator.date_options config))
        = Returns validDates
        /\ validDates <> []
        /\ (BillGenerator.is_true (allowMultipleInvoicesPerDay config) = true
            \/ numBills <= Z.of_nat (length validDates)))
  /\ valid_distribution (totalUnitsToSell config) numBills
       (minUnitsPerBill config) (maxUnitsPerBill config).

(** The source of random numbers that returns 0 at every call, and the one
    that returns 1/2 at every call. *)
Definition zero_source : source := fun _ => 0%Q.
Definition half_source : source := fun _ => (1 # 2)%Q.

(** * Properties *)

(** ** The calendar *)

Section CalendarFacts.
Import Calendar.

Lemma isLeap_true y : isLeap y = true <-> (y mod 4 = 0 /\ y mod 100 <> 0) \/ y mod 400 = 0.
Proof.
  unfold isLeap. rewrite orb_true_iff, andb_true_iff, negb_true_iff, !Z.eqb_eq, Z.eqb_neq. tauto.
Qed.

Lemma isLeap_false y : isLeap y = false <-> (y mod 4 <> 0 \/ y mod 100 = 0) /\ y mod 400 <> 0.
Proof.
  unfold isLeap. rewrite orb_false_iff, andb_false_iff, negb_false_iff, !Z.eqb_eq, !Z.eqb_neq. tauto.
Qed.

(** Decoding a day of the era gives back the year of the era and the day
    of that year. *)
Lemma decode_doe era yoe doy :
  0 <= yoe < 400 -> 0 <= doy <= 365 ->
  (doy = 365 -> ((yoe + 1) mod 4 = 0 /\ (yoe + 1) mod 100 <> 0) \/ (yoe + 1) mod 400 = 0) ->
  let z' := era * 146097 + (year_start yoe + doy) - 719468 + 719468 in
  let doe := z' mod 146097 in
  z' / 146097 = era /\
  (doe - doe / 1460 + doe / 36524 - doe / 146096) / 365 = yoe /\
  doe - year_start yoe = doy.
Proof.
  intros Hy Hd Hl z' doe.
  assert (0 <= year_start yoe + doy < 146097) as Hb.
  { unfold year_start. Z.div_mod_to_equations. lia. }
  assert (z' / 146097 = era) as He.
  { subst z'. symmetry. apply Z.div_unique with (r := year_start yoe + doy); lia. }
  assert (doe = year_start yoe + doy) as Hdoe.
  { subst doe z'. symmetry. apply Z.mod_unique with (q := era); lia. }
  split; [exact He|]. split; [|lia].
  rewrite Hdoe. clear z' doe He Hdoe. unfold year_start in *.
  Z.div_mod_to_equations; lia.
Qed.

Lemma decode_doy mp d :
  0 <= mp <= 11 -> 1 <= d <= month_start (mp + 1) - month_start mp ->
  (5 * (month_start mp + d - 1) + 2) / 153 = mp.
Proof.
  intros Hm Hd. unfold month_start in *.
  Z.div_mod_to_equations; lia.
Qed.

Lemma shifted_month m :
  1 <= m <= 12 ->
  let mp := (m + 9) mod 12 in
  0 <= mp <= 11 /\ (if mp <? 10 then mp + 3 else mp - 9) = m /\
  (m <=? 2) = negb (mp <? 10).
Proof.
  intros Hm.
  assert (m = 1 \/ m = 2 \/ m = 3 \/ m = 4 \/ m = 5 \/ m = 6 \/ m = 7 \/
          m = 8 \/ m = 9 \/ m = 10 \/ m = 11 \/ m = 12) as H by lia.
  repeat destruct H as [H|H]; subst m; cbv; repeat split; intros; discriminate.
Qed.

Lemma month_length y m :
  1 <= m <= 12 ->
  let mp := (m + 9) mod 12 in
  daysInMonth y m <= month_start (mp + 1) - month_start mp /\
  (m <> 2 -> daysInMonth y m = month_start (mp + 1) - month_start mp) /\
  (m = 2 -> month_start mp = 337) /\
  month_start mp + daysInMonth y m <= 366.
Proof.
  intros Hm.
  assert (m = 1 \/ m = 2 \/ m = 3 \/ m = 4 \/ m = 5 \/ m = 6 \/ m = 7 \/
          m = 8 \/ m = 9 \/ m = 10 \/ m = 11 \/ m = 12) as H by lia.
  repeat destruct H as [H|H]; subst m; unfold daysInMonth; simpl;
    try destruct (isLeap y); cbv; repeat split; intros; congruence.
Qed.

Lemma civil_from_days_from_civil y m d :
  1 <= m <= 12 -> 1 <= d <= daysInMonth y m ->
  civil_from_days (days_from_civil y m d) = (y, m, d).
Proof.
  intros Hm Hd.
  destruct (shifted_month m Hm) as (Hmp & Hback & Hjf).
  destruct (month_length y m Hm) as (Hle & Hlen & Hfeb & Hend).
  unfold days_from_civil, civil_from_days.
  set (mp := (m + 9) mod 12) in *.
  set (y' := if m <=? 2 then y - 1 else y).
  assert (y = if m <=? 2 then y' + 1 else y') as Hy by (subst y'; destruct (m <=? 2); lia).
  clearbody y'.
  pose proof (Z.mod_pos_bound y' 400 eq_refl) as Hyoe.
  pose proof (Z.div_mod y' 400 ltac:(lia)) as Hdm.
  set (yoe := y' mod 400) in *. set (era := y' / 400) in *.
  cbv zeta.
  assert (0 <= month_start mp + d - 1 <= 365) as Hdoy.
  { clear - Hmp Hend Hd. unfold month_start in *. Z.div_mod_to_equations. lia. }
  destruct (decode_doe era yoe (month_start mp + d - 1) Hyoe Hdoy) as (He & Hy2 & Hd2).
  { intros H365.
    assert (m = 2) as -> .
    { destruct (Z.eq_dec m 2) as [|Hne]; [assumption|]. exfalso.
      specialize (Hlen Hne). clear - Hmp Hlen Hd H365 Hback Hne.
      destruct (Z.ltb_spec mp 10); unfold month_start in *;
        Z.div_mod_to_equations; lia. }
    specialize (Hfeb eq_refl). simpl in Hy.
    unfold daysInMonth in Hd. simpl in Hd.
    destruct (isLeap y) eqn:E; [|lia].
    apply isLeap_true in E. clear - E Hy Hdm Hyoe. subst y.
    Z.div_mod_to_equations. lia. }
  cbv zeta in He, Hy2, Hd2.
  rewrite He, Hy2, Hd2.
  rewrite (decode_doy mp d Hmp) by lia.
  rewrite Hback. f_equal; [f_equal|lia].
  rewrite Hy. destruct (m <=? 2); lia.
Qed.

Lemma days_from_civil_from_days z :
  let '(y, m, d) := civil_from_days z in
  days_from_civil y m d = z /\ 1 <= m <= 12 /\ 1 <= d <= daysInMonth y m.
Proof.
  unfold civil_from_days.
  pose proof (Z.mod_pos_bound (z + 719468) 146097 eq_refl) as Hdoe.
  pose proof (Z.div_mod (z + 719468) 146097 ltac:(lia)) as Hdm.
  set (doe := (z + 719468) mod 146097) in *.
  set (era := (z + 719468) / 146097) in *.
  cbv zeta.
  set (yoe := (doe - doe / 1460 + doe / 36524 - doe / 146096) / 365).
  assert (0 <= yoe < 400 /\ 0 <= doe - year_start yoe <= 365 /\
          (doe - year_start yoe = 365 ->
           ((yoe + 1) mod 4 = 0 /\ (yoe + 1) mod 100 <> 0) \/ (yoe + 1) mod 400 = 0))
    as (Hyoe & Hdoy & Hleap).
  { subst yoe. clear - Hdoe. unfold year_start. Z.div_mod_to_equations; lia. }
  clearbody yoe.
  set (doy := doe - year_start yoe) in *.
  set (mp := (5 * doy + 2) / 153).
  assert (0 <= mp <= 11 /\ 1 <= doy - month_start mp + 1 <= month_start (mp + 1) - month_start mp)
    as (Hmp & Hd).
  { subst mp. clear - Hdoy. unfold month_start. Z.div_mod_to_equations; lia. }
  clearbody mp.
  set (m := if mp <? 10 then mp + 3 else mp - 9).
  assert (1 <= m <= 12) as Hm by (subst m; destruct (Z.ltb_spec mp 10); lia).
  assert ((m + 9) mod 12 = mp) as Hmp'.
  { subst m. destruct (Z.ltb_spec mp 10); Z.div_mod_to_equations; lia. }
  assert ((m <=? 2) = negb (mp <? 10)) as Hjf.
  { subst m. destruct (Z.ltb_spec mp 10); simpl; [apply Z.leb_gt | apply Z.leb_le]; lia. }
  set (y := if m <=? 2 then yoe + era * 400 + 1 else yoe + era * 400).
  split; [|split; [exact Hm|]].
  - unfold days_from_civil. rewrite Hmp'.
    replace (if m <=? 2 then y - 1 else y) with (yoe + era * 400)
      by (subst y; destruct (m <=? 2); lia).
    rewrite Z.mod_add, Z.div_add by lia.
    rewrite Z.mod_small, Z.div_small by lia.
    cbv zeta. subst doy. lia.
  - destruct (month_length y m Hm) as (_ & Hlen & Hfeb & _).
    rewrite Hmp' in Hlen, Hfeb.
    destruct (Z.eq_dec m 2) as [E|Hne]; [|rewrite (Hlen Hne); lia].
    specialize (Hfeb E). unfold daysInMonth. rewrite E. simpl.
    assert (y = yoe + era * 400 + 1) as Hy by (subst y; rewrite E; reflexivity).
    destruct (isLeap y) eqn:EL; [lia|].
    apply isLeap_false in EL.
    assert (doy <> 365); [|lia].
    intros H365. specialize (Hleap H365). clear - Hleap EL Hy. subst y.
    Z.div_mod_to_equations. lia.
Qed.

Lemma days_from_civil_day y m d :
  days_from_civil y m d = days_from_civil y m 1 + d - 1.
Proof. unfold days_from_civil. lia. Qed.

(** The month after month [m] of year [y] starts [daysInMonth y m] days
    after month [m]. *)
Lemma next_month_start y m :
  1 <= m <= 12 ->
  (if m =? 12 then days_from_civil (y + 1) 1 1 else days_from_civil y (m + 1) 1)
  = days_from_civil y m 1 + daysInMonth y m.
Proof.
  intros Hm.
  assert (m = 1 \/ m = 2 \/ m = 3 \/ m = 4 \/ m = 5 \/ m = 6 \/ m = 7 \/
          m = 8 \/ m = 9 \/ m = 10 \/ m = 11 \/ m = 12) as H by lia.
  unfold daysInMonth.
  repeat destruct H as [H|H]; subst m; unfold days_from_civil;
    repeat match goal with
           | |- context [month_start ?a] =>
               let v := eval vm_compute in (month_start a) in
               change (month_start a) with v
           | |- context [?a <=? 2] =>
               let v := eval vm_compute in (a <=? 2) in
               change (a <=? 2) with v
           | |- context [?a =? ?b] =>
               let v := eval vm_compute in (a =? b) in
               change (a =? b) with v
           end;
    cbv iota zeta; cbn [orb];
    try (replace (y + 1 - 1) with y by lia); try lia.
  destruct (isLeap y) eqn:E;
    [apply isLeap_true in E | apply isLeap_false in E];
    cbv [year_start]; Z.div_mod_to_equations; lia.
Qed.
End CalendarFacts.

(** ** [Date] objects *)

Section DateFacts.
Import Calendar JSDate.
Variable tz : Z.

Lemma msPerDay_pos : 0 < msPerDay.
Proof. reflexivity. Qed.

Lemma LocalTime_newDate year month date :
  LocalTime tz (newDate tz year month date)
  = MakeDay (full_year year) month date * msPerDay.
Proof. unfold newDate, LocalTime, UTC, MakeDate, full_year. lia. Qed.

Lemma Day_newDate year month date :
  Day (LocalTime tz (newDate tz year month date)) = MakeDay (full_year year) month date.
Proof.
  rewrite LocalTime_newDate. unfold Day.
  apply Z.div_mul. pose proof msPerDay_pos. lia.
Qed.

Lemma MakeDay_date year month date :
  MakeDay year month date = MakeDay year month 1 + date - 1.
Proof. unfold MakeDay. lia. Qed.

Lemma newDate_date year month date :
  newDate tz year month date = newDate tz year month 1 + (date - 1) * msPerDay.
Proof.
  unfold newDate, UTC, MakeDate. rewrite (MakeDay_date _ _ date). lia.
Qed.

(** The month [MakeDay year month _] falls in. *)
Lemma month_in_range month : 1 <= month mod 12 + 1 <= 12.
Proof. pose proof (Z.mod_pos_bound month 12 eq_refl). lia. Qed.

Lemma MakeDay_civil year month date :
  1 <= date <= daysInMonth (year + month / 12) (month mod 12 + 1) ->
  civil_from_days (MakeDay year month date)
  = (year + month / 12, month mod 12 + 1, date).
Proof.
  intros Hd. unfold MakeDay. cbv zeta.
  rewrite <- days_from_civil_day.
  apply civil_from_days_from_civil; [apply month_in_range | exact Hd].
Qed.

Lemma MakeDay_next_month year month :
  MakeDay year (month + 1) 1
  = MakeDay year month 1 + daysInMonth (year + month / 12) (month mod 12 + 1).
Proof.
  pose proof (next_month_start (year + month / 12) (month mod 12 + 1)
                               (month_in_range month)) as H.
  unfold MakeDay. cbv zeta.
  pose proof (Z.mod_pos_bound month 12 eq_refl) as Hb.
  destruct (Z.eqb_spec (month mod 12 + 1) 12) as [E|E].
  - assert ((month + 1) / 12 = month / 12 + 1) as -> by (Z.div_mod_to_equations; lia).
    assert ((month + 1) mod 12 = 0) as -> by (Z.div_mod_to_equations; lia).
    replace (year + (month / 12 + 1)) with (year + month / 12 + 1) by lia.
    change (0 + 1) with 1. lia.
  - assert ((month + 1) / 12 = month / 12) as -> by (Z.div_mod_to_equations; lia).
    assert ((month + 1) mod 12 = month mod 12 + 1) as -> by (Z.div_mod_to_equations; lia).
    lia.
Qed.

Lemma daysInMonth_bounds y m : 28 <= daysInMonth y m <= 31.
Proof.
  unfold daysInMonth.
  destruct (m =? 2); [destruct (isLeap y); lia|].
  destruct ((m =? 4) || (m =? 6) || (m =? 9) || (m =? 11)); lia.
Qed.

(** The day before the first of a month is the last day of the month
    before: its day of the month is the length of that month. *)
Lemma getDate_last_day year month :
  getDate tz (newDate tz year (month + 1) 1 - 24 * 60 * 60 * 1000)
  = daysInMonth (full_year year + month / 12) (month mod 12 + 1).
Proof.
  unfold getDate, civil.
  replace (LocalTime tz (newDate tz year (month + 1) 1 - 24 * 60 * 60 * 1000))
    with ((MakeDay (full_year year) (month + 1) 1 - 1) * msPerDay)
    by (unfold LocalTime, newDate, UTC, MakeDate, full_year, msPerDay; lia).
  unfold Day. rewrite Z.div_mul by (pose proof msPerDay_pos; lia).
  rewrite MakeDay_next_month.
  pose proof (daysInMonth_bounds (full_year year + month / 12) (month mod 12 + 1)).
  replace (MakeDay (full_year year) month 1
           + daysInMonth (full_year year + month / 12) (month mod 12 + 1) - 1)
    with (MakeDay (full_year year) month
            (daysInMonth (full_year year + month / 12) (month mod 12 + 1)))
    by (rewrite (MakeDay_date _ _ (daysInMonth _ _)); lia).
  rewrite MakeDay_civil by lia. reflexivity.
Qed.

(** [d.setDate(d.getDate() + 1)] moves a date one day on. *)
Lemma setDate_next_day (t : Date) :
  setDate tz t (getDate tz t + 1) = t + msPerDay.
Proof.
  unfold setDate, getDate, getMonth, getFullYear, civil.
  pose proof (days_from_civil_from_days (Day (LocalTime tz t))) as H.
  destruct (civil_from_days (Day (LocalTime tz t))) as [[y m] d].
  destruct H as (Hz & Hm & Hd).
  unfold MakeDay. cbv zeta.
  assert ((m - 1) / 12 = 0) as -> by (Z.div_mod_to_equations; lia).
  assert ((m - 1) mod 12 = m - 1) as -> by (Z.div_mod_to_equations; lia).
  replace (y + 0) with y by lia. replace (m - 1 + 1) with m by lia.
  rewrite (days_from_civil_day y m d) in Hz.
  unfold UTC, MakeDate, TimeWithinDay.
  unfold Day in Hz.
  pose proof (Z.div_mod (LocalTime tz t) msPerDay) as Hdm.
  pose proof msPerDay_pos.
  unfold LocalTime in *. nia.
Qed.
End DateFacts.

(** ** The expansion of the dates *)

Section DateRangeFacts.
Import Calendar JS JSDate BillGenerator.
Variable tz : Z.

(** The loop over the days of the month and the day-by-day loop run
    through the same dates. *)
Lemma day_loop_month_loop sy sm excl : forall n day acc,
  day_loop tz n (newDate tz sy (sm - 1) day)
           (newDate tz sy (sm - 1) day + (Z.of_nat n - 1) * msPerDay) excl acc
  = Some (month_loop tz n day sy sm excl acc).
Proof.
  pose proof msPerDay_pos as Hms.
  induction n as [|n IH]; intros day acc.
  - cbn [day_loop month_loop].
    match goal with |- context [?a <=? ?b] => destruct (Z.leb_spec a b) end;
      [lia | reflexivity].
  - cbn [day_loop month_loop].
    match goal with |- context [?a <=? ?b] => destruct (Z.leb_spec a b) end;
      [|lia].
    rewrite setDate_next_day.
    replace (newDate tz sy (sm - 1) day + msPerDay)
      with (newDate tz sy (sm - 1) (day + 1))
      by (rewrite (newDate_date tz _ _ (day + 1)), (newDate_date tz _ _ day); lia).
    replace (newDate tz sy (sm - 1) day + (Z.of_nat (S n) - 1) * msPerDay)
      with (newDate tz sy (sm - 1) (day + 1) + (Z.of_nat n - 1) * msPerDay)
      by (rewrite (newDate_date tz _ _ (day + 1)), (newDate_date tz _ _ day); lia).
    apply IH.
Qed.

Lemma month_loop_spec sy sm excl : forall n k acc,
  month_loop tz n (Z.of_nat k + 1) sy sm excl acc
  = acc ++ map (formatDate tz)
      (List.filter (fun t => negb (includes excl (getDay tz t)))
         (map (fun k => newDate tz sy (sm - 1) 1 + Z.of_nat k * msPerDay) (seq k n))).
Proof.
  induction n as [|n IH]; intros k acc.
  - simpl. symmetry. apply app_nil_r.
  - cbn [month_loop seq map List.filter].
    replace (Z.of_nat k + 1 + 1) with (Z.of_nat (S k) + 1) by lia.
    rewrite IH.
    replace (newDate tz sy (sm - 1) (Z.of_nat k + 1))
      with (newDate tz sy (sm - 1) 1 + Z.of_nat k * msPerDay)
      by (rewrite (newDate_date tz _ _ (Z.of_nat k + 1)); lia).
    destruct (negb (includes excl (getDay tz (newDate tz sy (sm - 1) 1 + Z.of_nat k * msPerDay)))).
    + rewrite <- app_assoc. reflexivity.
    + reflexivity.
Qed.

(** The last day the single-month branch computes is the length of the
    month. *)
Lemma single_month_lastDay sm sy :
  getDate tz (getTime (if sm =? 12 then newDate tz (sy + 1) 0 1
                       else newDate tz sy sm 1) - 24 * 60 * 60 * 1000)
  = daysInMonth (full_year sy + (sm - 1) / 12) ((sm - 1) mod 12 + 1).
Proof.
  unfold getTime. destruct (Z.eqb_spec sm 12) as [->|Hne].
  - pose proof (getDate_last_day tz (sy + 1) (-1)) as H.
    change (-1 + 1) with 0 in H. rewrite H. reflexivity.
  - pose proof (getDate_last_day tz sy (sm - 1)) as H.
    replace (sm - 1 + 1) with sm in H by lia. exact H.
Qed.

(** The final date of the multi-month branch, for one month. *)
Lemma multi_month_finalDate sm sy :
  newDate tz sy sm 0
  = newDate tz sy (sm - 1) 1
    + (daysInMonth (full_year sy + (sm - 1) / 12) ((sm - 1) mod 12 + 1) - 1) * msPerDay.
Proof.
  pose proof (MakeDay_next_month (full_year sy) (sm - 1)) as H.
  replace (sm - 1 + 1) with sm in H by lia.
  unfold newDate, UTC, MakeDate.
  rewrite (MakeDay_date _ sm 0), H. lia.
Qed.


(** The day-by-day loop ends within the fuel it is given. *)
Lemma day_loop_total excl : forall n currentDate finalDate acc,
  (Z.to_nat ((finalDate - currentDate) / msPerDay + 1) <= n)%nat ->
  exists l, day_loop tz n currentDate finalDate excl acc = Some l.
Proof.
  pose proof msPerDay_pos as Hms.
  induction n as [|n IH]; intros c f acc Hn; cbn [day_loop];
    destruct (Z.leb_spec c f) as [Hle|Hgt]; eauto.
  - exfalso. assert (0 <= (f - c) / msPerDay) by (apply Z.div_pos; lia). lia.
  - rewrite setDate_next_day. apply IH.
    replace (f - (c + msPerDay)) with ((f - c) + (-1) * msPerDay) by lia.
    rewrite Z.div_add by lia.
    assert (0 <= (f - c) / msPerDay) by (apply Z.div_pos; lia). lia.
Qed.

(** No call of [generateDateRange] is cut short by the fuel. *)
Lemma generateDateRange_terminates sm sy em ey excl config :
  generateDateRange tz sm sy em ey excl config <> Diverges.
Proof.
  assert (forall c f, exists l,
            day_loop tz (day_loop_fuel c f) c f excl [] = Some l) as Hloop
    by (intros c f; apply day_loop_total; unfold day_loop_fuel; lia).
  assert (month_range_mode tz sm sy em ey excl <> Diverges) as Hmonth.
  { unfold month_range_mode. destruct (_ >? _); [discriminate|].
    destruct (_ && _).
    - destruct (length _ =? 0)%nat; discriminate.
    - unfold multi_month. destruct (Hloop (newDate tz sy (sm - 1) 1) (newDate tz ey em 0))
        as [l ->]. destruct (length _ =? 0)%nat; discriminate. }
  assert (forall a b, exact_range_mode tz excl a b <> Diverges) as Hexact.
  { intros a b. unfold exact_range_mode.
    destruct (parseDate tz a) as [s|]; [|discriminate].
    destruct (parseDate tz b) as [e|]; [|discriminate].
    destruct (_ >? _); [discriminate|].
    destruct (Hloop s e) as [l ->]. destruct (length _ =? 0)%nat; discriminate. }
  unfold generateDateRange.
  repeat match goal with
         | |- context [match ?x with _ => _ end] => destruct x; try discriminate; auto
         end.
  all: unfold specific_dates_mode; destruct (length _ =? 0)%nat; discriminate.
Qed.
End DateRangeFacts.

(** ** The single-month branch under daylight saving time *)

Section ZonedFacts.
Import JS Calendar JSDate.

(** In a zone without a change of offset the code over a zone is the code
    over the offset. *)
Lemma zoned_civil tz t : Zoned.civil (Zoned.fixed_zone tz) t = civil tz t.
Proof. unfold Zoned.civil, civil, Zoned.LocalTime, LocalTime, Zoned.fixed_zone. reflexivity. Qed.

Lemma zoned_getDate tz t : Zoned.getDate (Zoned.fixed_zone tz) t = getDate tz t.
Proof. unfold Zoned.getDate, getDate. rewrite zoned_civil. reflexivity. Qed.

Lemma zoned_getMonth tz t : Zoned.getMonth (Zoned.fixed_zone tz) t = getMonth tz t.
Proof. unfold Zoned.getMonth, getMonth. rewrite zoned_civil. reflexivity. Qed.

Lemma zoned_getFullYear tz t : Zoned.getFullYear (Zoned.fixed_zone tz) t = getFullYear tz t.
Proof. unfold Zoned.getFullYear, getFullYear. rewrite zoned_civil. reflexivity. Qed.

Lemma zoned_getDay tz t : Zoned.getDay (Zoned.fixed_zone tz) t = getDay tz t.
Proof. unfold Zoned.getDay, getDay, Zoned.LocalTime, LocalTime, Zoned.fixed_zone. reflexivity. Qed.

Lemma zoned_newDate tz y m d : Zoned.newDate (Zoned.fixed_zone tz) y m d = newDate tz y m d.
Proof. unfold Zoned.newDate, newDate, Zoned.UTC, UTC, Zoned.fixed_zone. reflexivity. Qed.

Lemma zoned_setDate tz t d : Zoned.setDate (Zoned.fixed_zone tz) t d = setDate tz t d.
Proof.
  unfold Zoned.setDate, setDate. rewrite zoned_getFullYear, zoned_getMonth.
  unfold Zoned.UTC, UTC, Zoned.LocalTime, LocalTime, Zoned.fixed_zone. reflexivity.
Qed.

Lemma zoned_formatDate tz t :
  Zoned.formatDate (Zoned.fixed_zone tz) t = BillGenerator.formatDate tz t.
Proof.
  unfold Zoned.formatDate, BillGenerator.formatDate.
  rewrite zoned_getDate, zoned_getMonth, zoned_getFullYear. reflexivity.
Qed.

Lemma zoned_day_loop tz excl : forall fuel c f acc,
  Zoned.day_loop (Zoned.fixed_zone tz) fuel c f excl acc
  = BillGenerator.day_loop tz fuel c f excl acc.
Proof.
  induction fuel as [|fuel IH]; intros c f acc;
    cbn [Zoned.day_loop BillGenerator.day_loop]; [reflexivity|].
  rewrite IH, zoned_getDay, zoned_formatDate, zoned_setDate, zoned_getDate. reflexivity.
Qed.

Lemma zoned_month_loop tz sy sm excl : forall todo day acc,
  Zoned.month_loop (Zoned.fixed_zone tz) todo day sy sm excl acc
  = BillGenerator.month_loop tz todo day sy sm excl acc.
Proof.
  induction todo as [|todo IH]; intros day acc;
    cbn [Zoned.month_loop BillGenerator.month_loop]; [reflexivity|].
  rewrite IH, zoned_newDate, zoned_getDay, zoned_formatDate. reflexivity.
Qed.

Lemma zoned_fixed_zone tz sm sy em ey excl :
  Zoned.single_month (Zoned.fixed_zone tz) sm sy excl
  = BillGenerator.single_month tz sm sy excl
  /\ Zoned.multi_month (Zoned.fixed_zone tz)
       (BillGenerator.day_loop_fuel (newDate tz sy (sm - 1) 1) (newDate tz ey em 0))
       sm sy em ey excl
     = BillGenerator.multi_month tz sm sy em ey excl
  /\ Zoned.month_range_mode (Zoned.fixed_zone tz)
       (BillGenerator.day_loop_fuel (newDate tz sy (sm - 1) 1) (newDate tz ey em 0))
       sm sy em ey excl
     = BillGenerator.month_range_mode tz sm sy em ey excl.
Proof.
  assert (Zoned.single_month (Zoned.fixed_zone tz) sm sy excl
          = BillGenerator.single_month tz sm sy excl) as Hsingle.
  { unfold Zoned.single_month, BillGenerator.single_month. cbv zeta.
    rewrite zoned_month_loop, zoned_getDate, !zoned_newDate. reflexivity. }
  assert (Zoned.multi_month (Zoned.fixed_zone tz)
            (BillGenerator.day_loop_fuel (newDate tz sy (sm - 1) 1) (newDate tz ey em 0))
            sm sy em ey excl
          = BillGenerator.multi_month tz sm sy em ey excl) as Hmulti.
  { unfold Zoned.multi_month, BillGenerator.multi_month. cbv zeta.
    rewrite zoned_day_loop, !zoned_newDate. reflexivity. }
  split; [exact Hsingle|]. split; [exact Hmulti|].
  unfold Zoned.month_range_mode, BillGenerator.month_range_mode. cbv zeta.
  rewrite Hsingle, Hmulti, !zoned_newDate. reflexivity.
Qed.

(** C6. The two branches do not enumerate the same days where the clock
    changes within the month: in Europe/Berlin the single-month branch takes
    as last day of March 2024 the day of [nextMonth.getTime() - 24h], which
    is 30 March 23:00, and returns 30 days, while the day-by-day iteration
    of the multi-month branch over the same month goes on to 31 March. *)
Theorem single_month_misses_last_day :
  let z := Zoned.europe_berlin in
  (forall fuel,
     Zoned.month_range_mode z fuel 3 2024 3 2024 []
     = Returns (Zoned.single_month z 3 2024 []))
  /\ Zoned.multi_month z 40 3 2024 3 2024 []
     = Some (Zoned.single_month z 3 2024 [] ++ ["31-03-2024"%string])
  /\ length (Zoned.single_month z 3 2024 []) = 30%nat
  /\ last (Zoned.single_month z 3 2024 []) = Some "30-03-2024"%string
  /\ Zoned.formatDate z (Zoned.getTime (Zoned.newDate z 2024 3 1) - 24 * 60 * 60 * 1000)
     = "30-03-2024"%string.
Proof.
  cbv zeta. split; [intros fuel; vm_compute; reflexivity|].
  repeat split; vm_compute; reflexivity.
Qed.
End ZonedFacts.

(** ** The date modes *)

Section DateModeFacts.
Import JS JSDate BillGenerator.
Variable tz : Z.

Lemma month_range_mode_messages sm sy em ey excl msg :
  month_range_mode tz sm sy em ey excl = Throws msg ->
  msg = "Start date cannot be after end date"%string
  \/ msg = "No valid dates found with the given constraints. Try adjusting the date range or excluded weekdays."%string.
Proof.
  unfold month_range_mode. destruct (_ >? _); [intros [= <-]; auto|].
  destruct (if _ && _ then _ else _); [|discriminate].
  destruct (length _ =? 0)%nat; [intros [= <-]; auto | discriminate].
Qed.

(** C9. In the mode "specific-dates" with an empty or absent list of
    dates, [generateDateRange] does not fail with the error of the
    specific dates: it falls through to the enumeration of the month
    range, and yields what the month range yields. *)
Theorem empty_specific_dates_fall_through sm sy em ey excl (c : DateOptions.t) :
  DateOptions.dateMode c = Some SpecificDates ->
  DateOptions.specificDates c = None \/ DateOptions.specificDates c = Some [] ->
  generateDateRange tz sm sy em ey excl (Some c)
    = month_range_mode tz sm sy em ey excl
  /\ generateDateRange tz sm sy em ey excl (Some c)
    = generateDateRange tz sm sy em ey excl None
  /\ generateDateRange tz sm sy em ey excl (Some c) <> Throws no_specific_dates_message.
Proof.
  intros Hmode Hdates.
  assert (generateDateRange tz sm sy em ey excl (Some c)
          = month_range_mode tz sm sy em ey excl) as Heq.
  { unfold generateDateRange. cbn [mbind option_bind]. rewrite Hmode.
    destruct Hdates as [-> | ->]; reflexivity. }
  split; [exact Heq|]. split; [rewrite Heq; reflexivity|].
  rewrite Heq. intros H.
  apply month_range_mode_messages in H as [H|H]; discriminate H.
Qed.

(** C4, as the code has it. In the mode "specific-dates" with a list of
    dates that is not empty: when no date of the list is left after the
    dates that do not parse and the dates on an excluded weekday are
    removed, [generateDateRange] throws an error with a message that is
    not empty, and [createBillData] throws as well: it produces no record. *)
Theorem specific_dates_all_removed sm sy em ey excl (dates : list string) :
  dates <> [] ->
  List.filter (specific_date_kept tz excl) dates = [] ->
  generateDateRange tz sm sy em ey excl (Some (specific_dates_options (Some dates)))
    = Throws no_specific_dates_message
  /\ no_specific_dates_message <> ""%string
  /\ forall fuel rnd (config : BillConfig),
       dateMode config = Some SpecificDates ->
       specificDates config = Some dates ->
       excludeWeekdays config = excl ->
       exists msg, createBillData tz fuel rnd config = Throws msg /\ msg <> ""%string.
Proof.
  intros Hne Hfilter.
  assert (forall sm' sy' em' ey' o,
            DateOptions.dateMode o = Some SpecificDates ->
            DateOptions.specificDates o = Some dates ->
            generateDateRange tz sm' sy' em' ey' excl (Some o)
            = Throws no_specific_dates_message) as Hgen.
  { intros sm' sy' em' ey' o Hm Hd. unfold generateDateRange. cbn [mbind option_bind].
    rewrite Hm, Hd. destruct dates as [|d ds]; [congruence|].
    unfold specific_dates_mode. rewrite Hfilter. reflexivity. }
  split; [apply Hgen; reflexivity|]. split; [discriminate|].
  intros fuel rnd config Hm Hd He.
  unfold createBillData.
  destruct (_ || _); [eexists; split; [reflexivity | discriminate]|].
  cbn [check mbind outcome_bind].
  destruct (_ >? _); [eexists; split; [reflexivity | discriminate]|].
  cbn [check mbind outcome_bind].
  rewrite He, Hgen; [| cbn; rewrite Hm; reflexivity | cbn; exact Hd].
  eexists; split; [reflexivity | discriminate].
Qed.

(** [validateDateFormat] accepts the strings of the form of a date that
    [parseDate] accepts. *)
Lemma validateDateFormat_parseDate s :
  validateDateFormat tz s = true <-> date_regex s = true /\ parseDate tz s <> None.
Proof.
  unfold validateDateFormat.
  destruct (date_regex s); cbn [negb]; [|split; [discriminate | intros [? _]; discriminate]].
  destruct (parseDate tz s); split; try discriminate; try congruence; auto.
  intros [_ H]. congruence.
Qed.
End DateModeFacts.

Lemma empty_specific_dates_fall_through_witness :
  BillGenerator.generateDateRange 0 5 2025 5 2025 [2] (Some (specific_dates_options (Some [])))
    = BillGenerator.month_range_mode 0 5 2025 5 2025 [2]
  /\ BillGenerator.generateDateRange 0 5 2025 5 2025 [2] (Some (specific_dates_options (Some [])))
    = BillGenerator.generateDateRange 0 5 2025 5 2025 [2] None
  /\ BillGenerator.generateDateRange 0 5 2025 5 2025 [2] (Some (specific_dates_options (Some [])))
    <> Throws BillGenerator.no_specific_dates_message.
Proof.
  apply (empty_specific_dates_fall_through 0 5 2025 5 2025 [2]
           (specific_dates_options (Some []))).
  - reflexivity.
  - right. reflexivity.
Defined.

(** 6 and 13 May 2025 are Tuesdays. *)
Lemma specific_dates_all_removed_witness :
  BillGenerator.generateDateRange 0 5 2025 5 2025 [2]
      (Some (specific_dates_options (Some ["06-05-2025"; "31-02-2025"; "13-05-2025"]%string)))
    = Throws BillGenerator.no_specific_dates_message
  /\ BillGenerator.no_specific_dates_message <> ""%string
  /\ forall fuel rnd (config : BillConfig),
       dateMode config = Some SpecificDates ->
       specificDates config = Some ["06-05-2025"; "31-02-2025"; "13-05-2025"]%string ->
       excludeWeekdays config = [2] ->
       exists msg, BillGenerator.createBillData 0 fuel rnd config = Throws msg
                   /\ msg <> ""%string.
Proof.
  apply (specific_dates_all_removed 0 5 2025 5 2025 [2]
           ["06-05-2025"; "31-02-2025"; "13-05-2025"]%string).
  - discriminate.
  - vm_compute. reflexivity.
Defined.

(** C4 as it is stated fails on the empty list of dates: no date is left, yet the
    expansion returns the 31 days of May 2025 and [createBillData] returns
    records. *)
Lemma empty_specific_dates_counterexample :
  List.filter (BillGenerator.specific_date_kept 0 []) [] = []
  /\ (exists dates,
        BillGenerator.generateDateRange 0 5 2025 5 2025 []
          (Some (specific_dates_options (Some []))) = Returns dates
        /\ length dates = 31%nat)
  /\ (exists bills,
        BillGenerator.createBillData 0 0 zero_source
          (sample_config 1 2 2 1 1 [] (Some SpecificDates) (Some []) false) = Returns bills
        /\ length bills = 2%nat).
Proof.
  split; [reflexivity|]. split.
  - eexists. split; [vm_compute; reflexivity | reflexivity].
  - eexists. split; [vm_compute; reflexivity | reflexivity].
Qed.

(** ** Parsing a date *)

Section ParseFacts.
Import Calendar JS JSDate BillGenerator.
Variable tz : Z.

Lemma is_digit_not_hyphen c : is_digit c = true -> Ascii.eqb c "-" = false.
Proof.
  unfold is_digit. intros H. destruct (Ascii.eqb_spec c "-") as [->|]; [|reflexivity].
  vm_compute in H. discriminate.
Qed.

Lemma is_digit_not_space c : is_digit c = true -> is_space c = false.
Proof.
  unfold is_digit, is_space. intros H.
  apply andb_prop in H as [H1 H2]. apply N.leb_le in H1.
  destruct (N.eqb_spec (N_of_ascii c) 32); [lia|].
  destruct (N.leb_spec (N_of_ascii c) 13); [lia|].
  rewrite andb_false_r. reflexivity.
Qed.

Lemma split_digits_hyphen a b :
  all_digits a = true -> split "-" (a +:+ String "-" b) = a :: split "-" b.
Proof.
  induction a as [|c a IH]; intros H; cbn [all_digits] in H.
  - reflexivity.
  - apply andb_prop in H as [Hc Ha].
    change (String c a +:+ String "-" b) with (String c (a +:+ String "-" b)).
    cbn [split]. rewrite (is_digit_not_hyphen c Hc), (IH Ha). reflexivity.
Qed.

Lemma split_digits a : all_digits a = true -> split "-" a = [a].
Proof.
  induction a as [|c a IH]; intros H; cbn [all_digits] in H.
  - reflexivity.
  - apply andb_prop in H as [Hc Ha].
    cbn [split]. rewrite (is_digit_not_hyphen c Hc), (IH Ha). reflexivity.
Qed.

Lemma trim_digits a : all_digits a = true -> trim a = a.
Proof.
  intros H. unfold trim.
  assert (trimStart a = a) as ->.
  { destruct a as [|c a]; [reflexivity|]. cbn [all_digits] in H.
    apply andb_prop in H as [Hc _]. cbn [trimStart].
    rewrite (is_digit_not_space c Hc). reflexivity. }
  induction a as [|c a IH]; [reflexivity|].
  cbn [all_digits] in H. apply andb_prop in H as [Hc Ha].
  cbn [trimEnd]. rewrite (IH Ha). destruct a; [|reflexivity].
  rewrite (is_digit_not_space c Hc). reflexivity.
Qed.

Lemma Number_digits a : all_digits a = true -> Number a = Some (decimal_value 0 a).
Proof. intros H. unfold Number. rewrite (trim_digits a H), H. reflexivity. Qed.

(** [parseDate] on three numbers separated by hyphens. *)
Lemma parseDate_digits d m y :
  all_digits d = true -> all_digits m = true -> all_digits y = true ->
  parseDate tz (d +:+ "-" +:+ m +:+ "-" +:+ y)
  = let day := decimal_value 0 d in
    let month := decimal_value 0 m in
    let year := decimal_value 0 y in
    let date := newDate tz year (month - 1) day in
    if negb (getDate tz date =? day)
       || negb (getMonth tz date =? month - 1)
       || negb (getFullYear tz date =? year)
    then None else Some date.
Proof.
  intros Hd Hm Hy. unfold parseDate.
  change ("-" +:+ m +:+ "-" +:+ y) with (String "-" (m +:+ String "-" y)).
  rewrite (split_digits_hyphen d _ Hd), (split_digits_hyphen m _ Hm), (split_digits y Hy).
  cbn [map]. rewrite (Number_digits d Hd), (Number_digits m Hm), (Number_digits y Hy).
  reflexivity.
Qed.

(** 31 February is 2 or 3 March. *)
Lemma february_31 year : getDate tz (newDate tz year (2 - 1) 31) <> 31.
Proof.
  unfold getDate, civil. rewrite Day_newDate.
  pose proof (MakeDay_next_month (full_year year) 1) as H.
  change (1 / 12) with 0 in H. change (1 mod 12 + 1) with 2 in H.
  change (1 + 1) with 2 in H. replace (full_year year + 0) with (full_year year) in H by lia.
  pose proof (daysInMonth_bounds (full_year year) 2) as Hb.
  assert (daysInMonth (full_year year) 2 <= 29) as Hfeb
    by (unfold daysInMonth; simpl; destruct (isLeap _); lia).
  change (2 - 1) with 1.
  replace (MakeDay (full_year year) 1 31)
    with (MakeDay (full_year year) 2 (31 - daysInMonth (full_year year) 2))
    by (rewrite (MakeDay_date _ 2 _), (MakeDay_date _ 1 31); lia).
  rewrite MakeDay_civil.
  - lia.
  - change (2 / 12) with 0. change (2 mod 12 + 1) with 3.
    change (daysInMonth (full_year year + 0) 3) with 31. lia.
Qed.

End ParseFacts.


(** ** The amount in words *)

Section WordsFacts.
Import JS BillGenerator.

Lemma words_loop_total : forall fuel num k result,
  num <= 0 \/ Z.log2 num < Z.of_nat fuel ->
  exists words, words_loop fuel num k result = Some words.
Proof.
  induction fuel as [|fuel IH]; intros num k result Hfuel; cbn [words_loop];
    destruct (Z.gtb_spec num 0) as [Hpos|Hle]; eauto.
  - pose proof (Z.log2_nonneg num). lia.
  - apply IH.
    destruct (Z.le_gt_cases (num / 1000) 0) as [Hq|Hq]; [left; exact Hq | right].
    assert (2 * (num / 1000) <= num) as H2 by (Z.div_mod_to_equations; lia).
    apply Z.log2_le_mono in H2. rewrite Z.log2_double in H2 by lia. lia.
Qed.

(** [numberToWords] returns for every number. *)
Lemma numberToWords_terminates num : numberToWords num <> Diverges.
Proof.
  unfold numberToWords. destruct (num =? 0); [discriminate|].
  destruct (num <? 1000); [discriminate|].
  destruct (words_loop_total (words_loop_fuel num) num 0 "") as [w ->];
    [|discriminate].
  right. unfold words_loop_fuel. pose proof (Z.log2_nonneg num). lia.
Qed.

(** C8. Zero in words is "zero", 100 in words is "one hundred", and the
    amount 100 is printed as "( Rs. One hundred only )". *)
Theorem amount_in_words_of_100 :
  numberToWords 0 = Returns "zero"%string
  /\ numberToWords 100 = Returns "one hundred"%string
  /\ generateAmountInWords 100 = Returns "( Rs. One hundred only )"%string.
Proof. repeat split; vm_compute; reflexivity. Qed.
End WordsFacts.

(** ** The dates of the bills when a date may carry several bills *)

Section SpreadFacts.
Import JS BillGenerator.

Lemma spread_loop_spec p (ds : list string) : forall n s acc,
  spread_loop n (Z.of_nat s) p ds acc
  = acc ++ map (fun k => get_str ds (Z.to_nat (Z.rem (Z.of_nat k / p)
                                                     (Z.of_nat (length ds)))))
               (seq s n).
Proof.
  induction n as [|n IH]; intros s acc; cbn [spread_loop seq map].
  - symmetry. apply app_nil_r.
  - replace (Z.of_nat s + 1) with (Z.of_nat (S s)) by lia.
    rewrite IH, <- app_assoc. reflexivity.
Qed.

Lemma ceil_div_bounds n len :
  0 < len -> n <= ceil_div n len * len < n + len.
Proof.
  intros Hlen. unfold ceil_div.
  pose proof (Z.div_mod (- n) len ltac:(lia)) as Hdm.
  pose proof (Z.mod_pos_bound (- n) len Hlen) as Hb. nia.
Qed.

(** The index of the date of bill [i] lies inside the dates. *)
Lemma date_index_bounds n len i :
  0 < len -> 0 <= i < n ->
  0 <= i / ceil_div n len < len.
Proof.
  intros Hlen Hi. pose proof (ceil_div_bounds n len Hlen) as Hc.
  assert (0 < ceil_div n len) as Hp by nia.
  split; [apply Z.div_pos; lia|].
  apply Z.div_lt_upper_bound; [exact Hp|]. nia.
Qed.

(** C3. With several bills a day, for [n >= 1] bills and a list [ds] of
    dates that is not empty, bill [i] is given the date of index
    [(i div perDate) mod len] where [perDate = ceil (n / len)]; each of
    the [n] bills is given a date; the indices of the dates do not
    decrease with [i]; 10 bills on 3 dates use each of the 3 dates. *)
Theorem distributeInvoicesAcrossDates_spec (n : Z) (ds : list string) :
  1 <= n -> ds <> [] ->
  let len := Z.of_nat (length ds) in
  let perDate := ceil_div n len in
  exists out,
    distributeInvoicesAcrossDates n ds = Returns out
    /\ Z.of_nat (length out) = n
    /\ (forall i, 0 <= i < n ->
          exists d, ds !! Z.to_nat ((i / perDate) mod len) = Some d
                    /\ out !! Z.to_nat i = Some d)
    /\ (forall i j, 0 <= i -> i <= j -> j < n ->
          (i / perDate) mod len <= (j / perDate) mod len)
    /\ (forall d0 d1 d2 : string,
          distributeInvoicesAcrossDates 10 [d0; d1; d2]
          = Returns [d0; d0; d0; d0; d1; d1; d1; d1; d2; d2]).
Proof.
  intros Hn Hds len perDate.
  assert (0 < len) as Hlen by (subst len; destruct ds; [congruence | cbn; lia]).
  set (out := map (fun k => get_str ds (Z.to_nat (Z.rem (Z.of_nat k / perDate) len)))
                  (seq 0 (Z.to_nat n))).
  assert (length out = Z.to_nat n) as Hout
    by (subst out; rewrite length_map, length_seq; reflexivity).
  exists out. split; [|split; [lia|split; [|split]]].
  - unfold distributeInvoicesAcrossDates.
    destruct (Nat.eqb_spec (length ds) 0) as [E|_]; [subst len; lia|].
    cbn [check mbind outcome_bind]. fold len. fold perDate.
    pose proof (spread_loop_spec perDate ds (Z.to_nat n) 0 []) as Hspread.
    cbn [app] in Hspread. fold len in Hspread. fold out in Hspread.
    change (Z.of_nat 0) with 0 in Hspread. rewrite Hspread, Hout.
    replace (Z.to_nat (n - Z.of_nat (Z.to_nat n))) with 0%nat by lia.
    reflexivity.
  - intros i Hi.
    pose proof (date_index_bounds n len i Hlen Hi) as Hq. fold perDate in Hq.
    rewrite Z.mod_small by exact Hq.
    destruct (lookup_lt_is_Some_2 ds (Z.to_nat (i / perDate))) as [d Hd];
      [subst len; lia|].
    exists d. split; [exact Hd|].
    subst out. rewrite list_lookup_fmap, lookup_seq_lt by lia. cbn.
    rewrite Z2Nat.id by lia. rewrite Z.rem_small by exact Hq.
    unfold get_str. fold len. rewrite Hd. reflexivity.
  - intros i j Hi Hij Hj.
    pose proof (date_index_bounds n len i Hlen ltac:(lia)) as Hqi.
    pose proof (date_index_bounds n len j Hlen ltac:(lia)) as Hqj.
    fold perDate in Hqi, Hqj.
    rewrite !Z.mod_small by assumption.
    pose proof (ceil_div_bounds n len Hlen) as Hc. fold perDate in Hc.
    apply Z.div_le_mono; [nia | lia].
  - intros d0 d1 d2. reflexivity.
Qed.
End SpreadFacts.

Lemma distributeInvoicesAcrossDates_spec_witness :
  let ds := ["01-05-2025"; "02-05-2025"]%string in
  let len := Z.of_nat (length ds) in
  let perDate := BillGenerator.ceil_div 5 len in
  exists out,
    BillGenerator.distributeInvoicesAcrossDates 5 ds = Returns out
    /\ Z.of_nat (length out) = 5
    /\ (forall i, 0 <= i < 5 ->
          exists d, ds !! Z.to_nat ((i / perDate) mod len) = Some d
                    /\ out !! Z.to_nat i = Some d)
    /\ (forall i j, 0 <= i -> i <= j -> j < 5 ->
          (i / perDate) mod len <= (j / perDate) mod len)
    /\ (forall d0 d1 d2 : string,
          BillGenerator.distributeInvoicesAcrossDates 10 [d0; d1; d2]
          = Returns [d0; d0; d0; d0; d1; d1; d1; d1; d2; d2]).
Proof.
  apply (distributeInvoicesAcrossDates_spec 5 ["01-05-2025"; "02-05-2025"]%string).
  - lia.
  - discriminate.
Defined.

(** ** The distribution of the units *)

Section RandomFacts.

Lemma inject_Z_nonneg (n : Z) : 0 <= n -> (0 <= inject_Z n)%Q.
Proof. intros H. change 0%Q with (inject_Z 0). rewrite <- Zle_Qle. exact H. Qed.

Lemma randomInt_bounds (r : Q) (n : Z) :
  (0 <= r)%Q -> (r < 1)%Q -> 0 < n -> 0 <= randomInt r n < n.
Proof.
  intros H0 H1 Hn. unfold randomInt.
  pose proof (inject_Z_nonneg n ltac:(lia)) as Hn'.
  split.
  - change 0 with (Qfloor 0). apply Qfloor_resp_le.
    apply Qmult_le_0_compat; assumption.
  - rewrite Zlt_Qlt.
    apply Qle_lt_trans with (r * inject_Z n)%Q; [apply Qfloor_le|].
    apply Qlt_le_trans with (1 * inject_Z n)%Q.
    + apply Qmult_lt_compat_r; [|exact H1].
      change 0%Q with (inject_Z 0). rewrite <- Zlt_Qlt. exact Hn.
    + rewrite Qmult_1_l. apply Qle_refl.
Qed.

Lemma randomInt_positive (r : Q) (n : Z) :
  (1 # 2 <= r)%Q -> 2 <= n -> 1 <= randomInt r n.
Proof.
  intros Hr Hn. unfold randomInt.
  change 1 with (Qfloor 1). apply Qfloor_resp_le.
  apply Qle_trans with ((1 # 2) * inject_Z 2)%Q; [discriminate|].
  apply Qle_trans with ((1 # 2) * inject_Z n)%Q.
  - apply Qmult_le_l; [reflexivity|]. rewrite <- Zle_Qle. exact Hn.
  - apply Qmult_le_compat_r; [exact Hr|]. apply inject_Z_nonneg. lia.
Qed.

Lemma randomInt_zero (n : Z) : randomInt 0 n = 0.
Proof. unfold randomInt. destruct n; reflexivity. Qed.

Lemma valid_zero_source : valid_source zero_source.
Proof. intros k. split; [discriminate | reflexivity]. Qed.

Lemma valid_half_source : valid_source half_source.
Proof. intros k. split; [discriminate | reflexivity]. Qed.

Lemma fair_half_source : fair half_source.
Proof. intros k. exists k. split; [lia | discriminate]. Qed.
End RandomFacts.

Section ArrayFacts.
Import BillGenerator.

Lemma get_lookup (l : list Z) i x : l !! i = Some x -> get l i = x.
Proof. intros H. unfold get. rewrite H. reflexivity. Qed.

Lemma get_insert_eq (l : list Z) i v : (i < length l)%nat -> get (<[i := v]> l) i = v.
Proof. intros H. apply get_lookup, list_lookup_insert_eq, H. Qed.

Lemma get_insert_ne (l : list Z) i j v : i <> j -> get (<[i := v]> l) j = get l j.
Proof. intros H. unfold get. rewrite list_lookup_insert_ne by exact H. reflexivity. Qed.

Lemma sumZ_cons x (l : list Z) : sumZ (x :: l) = x + sumZ l.
Proof. reflexivity. Qed.

Lemma sumZ_insert (l : list Z) : forall i v,
  (i < length l)%nat -> sumZ (<[i := v]> l) = sumZ l - get l i + v.
Proof.
  induction l as [|x l IH]; intros i v Hi; [cbn in Hi; lia|].
  destruct i as [|i].
  - change (<[0%nat := v]> (x :: l)) with (v :: l).
    change (get (x :: l) 0) with x. rewrite !sumZ_cons. lia.
  - change (<[S i := v]> (x :: l)) with (x :: <[i := v]> l).
    change (get (x :: l) (S i)) with (get l i).
    rewrite !sumZ_cons, IH by (cbn in Hi; lia). lia.
Qed.

Lemma get_Forall (P : Z -> Prop) (l : list Z) i :
  Forall P l -> (i < length l)%nat -> P (get l i).
Proof.
  intros HP Hi. destruct (lookup_lt_is_Some_2 l i Hi) as [x Hx].
  rewrite (get_lookup l i x Hx). exact (proj1 (Forall_lookup P l) HP i x Hx).
Qed.

Lemma sumZ_replicate n v : sumZ (replicate n v) = Z.of_nat n * v.
Proof.
  induction n as [|n IH]; [reflexivity|].
  cbn [replicate]. unfold sumZ in *. cbn [foldr]. rewrite IH. lia.
Qed.

(** When the sum is below [length * hi] a slot is below [hi]. *)
Lemma slot_below (hi : Z) (l : list Z) :
  sumZ l < Z.of_nat (length l) * hi ->
  exists j, (j < length l)%nat /\ get l j < hi.
Proof.
  induction l as [|x l IH]; intros H; [cbn in H; lia|].
  destruct (Z.lt_ge_cases x hi) as [Hx|Hx].
  - exists 0%nat. split; [cbn; lia | exact Hx].
  - destruct IH as (j & Hj & Hget).
    { unfold sumZ in *. cbn [foldr length] in H. lia. }
    exists (S j). split; [cbn; lia | exact Hget].
Qed.

(** When every slot is at most [hi] and the sum is [length * hi], every
    slot is [hi]. *)
Lemma all_at_top (hi : Z) (l : list Z) :
  Forall (fun u => u <= hi) l -> sumZ l = Z.of_nat (length l) * hi ->
  l = replicate (length l) hi.
Proof.
  induction l as [|x l IH]; intros HF Hs; [reflexivity|].
  apply Forall_cons in HF as [Hx HF].
  assert (sumZ l <= Z.of_nat (length l) * hi) as Hle.
  { clear - HF. induction HF as [|y l Hy HF IH]; [cbn; lia|].
    unfold sumZ in *. cbn [foldr length]. lia. }
  unfold sumZ in *. cbn [foldr length] in Hs.
  assert (x = hi) as -> by lia.
  cbn [length replicate]. f_equal. apply IH; [exact HF | lia].
Qed.

Lemma swap_length i j (l : list Z) : length (swap i j l) = length l.
Proof. unfold swap. rewrite !length_insert. reflexivity. Qed.

Lemma swap_sumZ i j (l : list Z) :
  (i < length l)%nat -> (j < length l)%nat -> sumZ (swap i j l) = sumZ l.
Proof.
  intros Hi Hj. unfold swap.
  rewrite sumZ_insert by (rewrite length_insert; exact Hj).
  rewrite sumZ_insert by exact Hi.
  destruct (Nat.eq_dec i j) as [->|Hne].
  - rewrite get_insert_eq by exact Hj. lia.
  - rewrite get_insert_ne by exact Hne. lia.
Qed.

Lemma swap_Forall (P : Z -> Prop) i j (l : list Z) :
  (i < length l)%nat -> (j < length l)%nat -> Forall P l -> Forall P (swap i j l).
Proof.
  intros Hi Hj HP. unfold swap.
  apply Forall_insert; [apply Forall_insert|].
  - exact HP.
  - apply get_Forall; assumption.
  - apply get_Forall; assumption.
Qed.

Lemma shuffle_spec (P : Z -> Prop) rnd :
  valid_source rnd ->
  forall i l k, (i < length l)%nat \/ i = 0%nat -> Forall P l ->
    length (shuffle rnd i l k) = length l
    /\ sumZ (shuffle rnd i l k) = sumZ l
    /\ Forall P (shuffle rnd i l k).
Proof.
  intros Hrnd. induction i as [|i IH]; intros l k Hi HP; cbn [shuffle]; [auto|].
  destruct Hi as [Hi|Hi]; [|discriminate].
  destruct (Hrnd k) as [H0 H1].
  pose proof (randomInt_bounds (rnd k) (Z.of_nat (S i) + 1) H0 H1 ltac:(lia)) as Hj.
  set (j := Z.to_nat (randomInt (rnd k) (Z.of_nat (S i) + 1))) in *.
  assert (j < length l)%nat as Hjl by lia.
  destruct (IH (swap (S i) j l) (S k)) as (Hlen & Hsum & HF).
  - rewrite swap_length. left. lia.
  - apply swap_Forall; assumption.
  - rewrite swap_length in Hlen. rewrite swap_sumZ in Hsum by assumption. auto.
Qed.
End ArrayFacts.

Section AllocationFacts.
Import BillGenerator.
Variable rnd : source.
Hypothesis rnd_valid : valid_source rnd.
Variables (total lo hi : Z) (n : nat).
Hypothesis lo_hi : lo <= hi.

Local Abbreviation sweep_step := (BillGenerator.sweep_step rnd hi).

Lemma sweep_unfold todo i s :
  sweep rnd hi (S todo) i s
  = if cur_remaining s >? 0 then sweep rnd hi todo (S i) (sweep_step i s) else s.
Proof. reflexivity. Qed.

Lemma sweep_step_draw i s :
  let maxAdd := Z.min (cur_remaining s) (hi - get (cur_units s) i) in
  0 < maxAdd ->
  let add := randomInt (rnd (cur_draws s)) (maxAdd + 1) in
  0 <= add <= maxAdd
  /\ sweep_step i s
     = {| cur_units := <[i := get (cur_units s) i + add]> (cur_units s);
          cur_remaining := cur_remaining s - add;
          cur_draws := S (cur_draws s) |}.
Proof.
  intros maxAdd Hpos add. split.
  - destruct (rnd_valid (cur_draws s)) as [H0 H1].
    pose proof (randomInt_bounds (rnd (cur_draws s)) (maxAdd + 1) H0 H1 ltac:(lia)).
    subst add. lia.
  - unfold BillGenerator.sweep_step. fold maxAdd.
    destruct (Z.gtb_spec maxAdd 0); [reflexivity | lia].
Qed.

Lemma sweep_step_skip i s :
  Z.min (cur_remaining s) (hi - get (cur_units s) i) <= 0 -> sweep_step i s = s.
Proof.
  intros H. unfold BillGenerator.sweep_step.
  destruct (Z.gtb_spec (Z.min (cur_remaining s) (hi - get (cur_units s) i)) 0);
    [lia | reflexivity].
Qed.

(** A step draws at most once, and takes what it draws from [remaining]. *)
Lemma sweep_step_mono i s :
  (cur_draws s <= cur_draws (sweep_step i s))%nat
  /\ cur_remaining (sweep_step i s) <= cur_remaining s.
Proof.
  destruct (Z.lt_ge_cases 0 (Z.min (cur_remaining s) (hi - get (cur_units s) i)))
    as [Hpos|Hle].
  - destruct (sweep_step_draw i s Hpos) as [Hadd ->]. cbn [cur_draws cur_remaining]. lia.
  - rewrite sweep_step_skip by lia. lia.
Qed.

Lemma sweep_step_inv i s :
  (i < n)%nat -> alloc_inv total n lo hi s -> alloc_inv total n lo hi (sweep_step i s).
Proof.
  intros Hi (Hlen & HF & Hsum & Hrem).
  destruct (Z.lt_ge_cases 0 (Z.min (cur_remaining s) (hi - get (cur_units s) i)))
    as [Hpos|Hle]; [|rewrite sweep_step_skip by lia; repeat split; assumption].
  destruct (sweep_step_draw i s Hpos) as [Hadd ->].
  set (add := randomInt _ _) in *.
  pose proof (get_Forall _ _ i HF ltac:(lia)) as Hget. cbn beta in Hget.
  unfold alloc_inv. cbn [cur_units cur_remaining].
  split; [rewrite length_insert; exact Hlen|].
  split; [apply Forall_insert; [exact HF | lia]|].
  split; [rewrite sumZ_insert by lia; lia | lia].
Qed.

Lemma sweep_mono : forall todo i s,
  (cur_draws s <= cur_draws (sweep rnd hi todo i s))%nat
  /\ cur_remaining (sweep rnd hi todo i s) <= cur_remaining s.
Proof.
  induction todo as [|todo IH]; intros i s; [cbn; lia|].
  rewrite sweep_unfold. destruct (cur_remaining s >? 0); [|lia].
  pose proof (sweep_step_mono i s). pose proof (IH (S i) (sweep_step i s)). lia.
Qed.

Lemma sweep_inv : forall todo i s,
  (i + todo <= n)%nat -> alloc_inv total n lo hi s ->
  alloc_inv total n lo hi (sweep rnd hi todo i s).
Proof.
  induction todo as [|todo IH]; intros i s Hi Hinv; [exact Hinv|].
  rewrite sweep_unfold. destruct (cur_remaining s >? 0); [|exact Hinv].
  apply IH; [lia|]. apply sweep_step_inv; [lia | exact Hinv].
Qed.

(** A draw of at least 1/2 takes a unit from [remaining]. *)
Lemma sweep_good_draw : forall todo i s q,
  (cur_draws s <= q < cur_draws (sweep rnd hi todo i s))%nat ->
  (1 # 2 <= rnd q)%Q ->
  cur_remaining (sweep rnd hi todo i s) < cur_remaining s.
Proof.
  induction todo as [|todo IH]; intros i s q Hq Hgood; [cbn in Hq; lia|].
  rewrite sweep_unfold in *. destruct (cur_remaining s >? 0); [|lia].
  pose proof (sweep_mono todo (S i) (sweep_step i s)) as [_ Hrest].
  destruct (Z.lt_ge_cases 0 (Z.min (cur_remaining s) (hi - get (cur_units s) i)))
    as [Hpos|Hle].
  - destruct (sweep_step_draw i s Hpos) as [Hadd Hstep].
    destruct (Nat.eq_dec q (cur_draws s)) as [->|Hne].
    + pose proof (randomInt_positive _ (Z.min (cur_remaining s)
                    (hi - get (cur_units s) i) + 1) Hgood ltac:(lia)) as H1.
      rewrite Hstep in Hrest |- *. cbn [cur_remaining] in Hrest. lia.
    + assert (cur_remaining (sweep rnd hi todo (S i) (sweep_step i s))
              < cur_remaining (sweep_step i s)) as Hlt.
      { apply (IH (S i) (sweep_step i s) q); [|exact Hgood].
        rewrite Hstep at 1. cbn [cur_draws]. lia. }
      pose proof (sweep_step_mono i s). lia.
  - rewrite sweep_step_skip in * by lia. apply (IH (S i) s q Hq Hgood).
Qed.

(** A sweep draws when a slot can take a unit. *)
Lemma sweep_draws : forall todo i s,
  0 < cur_remaining s ->
  (exists j, (i <= j < i + todo)%nat /\ get (cur_units s) j < hi) ->
  (cur_draws s < cur_draws (sweep rnd hi todo i s))%nat.
Proof.
  induction todo as [|todo IH]; intros i s Hrem (j & Hj & Hslot); [lia|].
  rewrite sweep_unfold. destruct (Z.gtb_spec (cur_remaining s) 0); [|lia].
  pose proof (sweep_mono todo (S i) (sweep_step i s)) as [Hrest _].
  destruct (Z.lt_ge_cases 0 (Z.min (cur_remaining s) (hi - get (cur_units s) i)))
    as [Hpos|Hle].
  - destruct (sweep_step_draw i s Hpos) as [_ Hstep].
    rewrite Hstep in Hrest at 1. cbn [cur_draws] in Hrest. lia.
  - rewrite sweep_step_skip in * by lia.
    apply IH; [exact Hrem|]. exists j. split; [|exact Hslot].
    destruct (Nat.eq_dec j i) as [->|]; lia.
Qed.
End AllocationFacts.

Section AllocateLoopFacts.
Import BillGenerator.
Variable rnd : source.
Hypothesis rnd_valid : valid_source rnd.
Variables total count lo hi : Z.
Hypothesis lo_hi : lo <= hi.

Local Abbreviation inv := (alloc_inv total (Z.to_nat count) lo hi).
Local Abbreviation one_sweep := (sweep rnd hi (Z.to_nat count) 0).

Lemma allocate_step fuel s :
  0 < cur_remaining s ->
  allocate (S fuel) rnd count hi s = allocate fuel rnd count hi (one_sweep s).
Proof.
  intros H. cbn [allocate]. destruct (Z.gtb_spec (cur_remaining s) 0); [reflexivity | lia].
Qed.

Lemma allocate_done fuel s :
  cur_remaining s <= 0 -> allocate fuel rnd count hi s = Some s.
Proof.
  intros H. destruct fuel; cbn [allocate];
    destruct (Z.gtb_spec (cur_remaining s) 0); (reflexivity || lia).
Qed.

(** When the loop ends nothing remains, and the slots are as they
    should. *)
Lemma allocate_inv : forall fuel s s',
  inv s -> allocate fuel rnd count hi s = Some s' ->
  inv s' /\ cur_remaining s' = 0.
Proof.
  induction fuel as [|fuel IH]; intros s s' Hinv Hrun.
  - cbn [allocate] in Hrun. destruct (Z.gtb_spec (cur_remaining s) 0); [discriminate|].
    injection Hrun as <-. destruct Hinv as (? & ? & ? & ?). unfold alloc_inv. split; auto. lia.
  - destruct (Z.lt_ge_cases 0 (cur_remaining s)) as [Hpos|Hle].
    + rewrite allocate_step in Hrun by exact Hpos.
      apply (IH (one_sweep s)); [|exact Hrun].
      apply (sweep_inv rnd rnd_valid total lo hi (Z.to_nat count)); [lia | exact Hinv].
    + rewrite allocate_done in Hrun by lia. injection Hrun as <-.
      destruct Hinv as (? & ? & ? & ?). unfold alloc_inv. split; auto. lia.
Qed.

Hypothesis rnd_fair : fair rnd.
Hypothesis count_pos : 0 < count.
Hypothesis total_hi : total <= count * hi.

(** A sweep that starts with units left makes a draw. *)
Lemma one_sweep_draws s :
  inv s -> 0 < cur_remaining s ->
  (cur_draws s < cur_draws (one_sweep s))%nat.
Proof.
  intros (Hlen & HF & Hsum & Hrem) Hpos.
  apply (sweep_draws rnd rnd_valid hi); [exact Hpos|].
  destruct (slot_below hi (cur_units s)) as (j & Hj & Hslot).
  - rewrite Hlen, Z2Nat.id by lia. lia.
  - exists j. split; [lia | exact Hslot].
Qed.

(** The loop ends: the units that remain go down at each draw of at
    least 1/2, and such a draw comes. *)
Lemma allocate_terminates : forall r s,
  Z.to_nat (cur_remaining s) = r -> inv s ->
  exists fuel s', allocate fuel rnd count hi s = Some s'.
Proof.
  induction r as [r IHr] using lt_wf_ind. intros s Hr Hinv.
  destruct (Z.lt_ge_cases 0 (cur_remaining s)) as [Hpos|Hle];
    [|exists 0%nat, s; apply allocate_done; lia].
  destruct (rnd_fair (cur_draws s)) as (kg & Hkg & Hgood).
  assert (forall d s0,
            inv s0 -> Z.to_nat (cur_remaining s0) = r -> 0 < cur_remaining s0 ->
            (cur_draws s0 <= kg <= cur_draws s0 + d)%nat ->
            exists fuel s', allocate fuel rnd count hi s0 = Some s') as Hinner.
  { induction d as [|d IHd]; intros s0 Hinv0 Hr0 Hpos0 Hkg0.
    all: pose proof (sweep_inv rnd rnd_valid total lo hi (Z.to_nat count)
                       (Z.to_nat count) 0 s0 ltac:(lia) Hinv0) as Hinv1.
    all: pose proof (sweep_mono rnd rnd_valid hi (Z.to_nat count) 0 s0) as [_ Hmono].
    all: pose proof (one_sweep_draws s0 Hinv0 Hpos0) as Hdraw.
    all: assert (cur_remaining (one_sweep s0) < cur_remaining s0 ->
                 exists fuel s', allocate fuel rnd count hi s0 = Some s') as Hless
      by (intros Hlt;
          destruct (IHr (Z.to_nat (cur_remaining (one_sweep s0))) ltac:(lia)
                        (one_sweep s0) eq_refl Hinv1) as (fuel & s' & Hrun);
          exists (S fuel), s'; rewrite allocate_step by exact Hpos0; exact Hrun).
    - apply Hless.
      apply (sweep_good_draw rnd rnd_valid hi (Z.to_nat count) 0 s0 kg); [lia | exact Hgood].
    - destruct (Nat.lt_ge_cases kg (cur_draws (one_sweep s0))) as [Hin|Hout].
      + apply Hless.
        apply (sweep_good_draw rnd rnd_valid hi (Z.to_nat count) 0 s0 kg);
          [lia | exact Hgood].
      + destruct (Z.lt_ge_cases (cur_remaining (one_sweep s0)) (cur_remaining s0))
          as [Hlt|Hge]; [exact (Hless Hlt)|].
        destruct (IHd (one_sweep s0) Hinv1 ltac:(lia) ltac:(lia) ltac:(lia))
          as (fuel & s' & Hrun).
        exists (S fuel), s'. rewrite allocate_step by exact Hpos0. exact Hrun. }
  apply (Hinner (kg - cur_draws s)%nat s Hinv Hr Hpos). lia.
Qed.
End AllocateLoopFacts.

Section DistributionFacts.
Import BillGenerator.

Lemma generateUnitsDistribution_unfold fuel rnd total count lo hi :
  valid_distribution total count lo hi ->
  generateUnitsDistribution fuel rnd total count lo hi
  = match allocate fuel rnd count hi (initial_alloc total count lo) with
    | None => Diverges
    | Some s => Returns (shuffle rnd (length (cur_units s) - 1) (cur_units s) (cur_draws s))
    end.
Proof.
  intros (Hlo & Hhi & Hlohi & Htotal & Hcount & Hmin & Hmax).
  unfold generateUnitsDistribution.
  destruct (Z.leb_spec lo 0); [lia|]. destruct (Z.leb_spec hi 0); [lia|].
  destruct (Z.gtb_spec lo hi); [lia|]. destruct (Z.leb_spec total 0); [lia|].
  destruct (Z.leb_spec count 0); [lia|].
  destruct (Z.ltb_spec total (count * lo)); [lia|].
  destruct (Z.gtb_spec total (count * hi)); [lia|].
  reflexivity.
Qed.

Lemma initial_alloc_inv total count lo hi :
  valid_distribution total count lo hi ->
  alloc_inv total (Z.to_nat count) lo hi (initial_alloc total count lo).
Proof.
  intros (Hlo & Hhi & Hlohi & Htotal & Hcount & Hmin & Hmax).
  unfold alloc_inv, initial_alloc. cbn [cur_units cur_remaining].
  rewrite length_replicate, sumZ_replicate, Z2Nat.id by lia.
  repeat split; try lia. apply Forall_replicate. lia.
Qed.

(** What the distributor returns is a distribution. *)
Lemma distribution_sound fuel rnd total count lo hi us :
  valid_distribution total count lo hi -> valid_source rnd ->
  generateUnitsDistribution fuel rnd total count lo hi = Returns us ->
  Z.of_nat (length us) = count /\ sumZ us = total
  /\ Forall (fun u => lo <= u <= hi) us.
Proof.
  intros Hvalid Hrnd Hrun.
  rewrite (generateUnitsDistribution_unfold _ _ _ _ _ _ Hvalid) in Hrun.
  destruct (allocate fuel rnd count hi (initial_alloc total count lo)) as [s|] eqn:Halloc;
    [|discriminate].
  injection Hrun as <-.
  destruct Hvalid as (Hlo & Hhi & Hlohi & Htotal & Hcount & Hmin & Hmax).
  destruct (allocate_inv rnd Hrnd total count lo hi fuel _ s
              (initial_alloc_inv total count lo hi ltac:(unfold valid_distribution; lia))
              Halloc) as ((Hlen & HF & Hsum & _) & Hzero).
  destruct (shuffle_spec (fun u => lo <= u <= hi) rnd Hrnd
              (length (cur_units s) - 1) (cur_units s) (cur_draws s)) as (Hl & Hs & HP);
    [lia | exact HF |].
  rewrite Hl, Hs. repeat split; [lia | lia | exact HP].
Qed.

(** With a fair source the distributor returns. *)
Lemma distribution_returns rnd total count lo hi :
  valid_distribution total count lo hi -> valid_source rnd -> fair rnd ->
  exists fuel us, generateUnitsDistribution fuel rnd total count lo hi = Returns us.
Proof.
  intros Hvalid Hrnd Hfair.
  pose proof (initial_alloc_inv total count lo hi Hvalid) as Hinv.
  destruct Hvalid as (Hlo & Hhi & Hlohi & Htotal & Hcount & Hmin & Hmax).
  destruct (allocate_terminates rnd Hrnd total count lo hi Hfair Hcount Hmax
              _ (initial_alloc total count lo) eq_refl Hinv) as (fuel & s & Halloc).
  exists fuel. eexists.
  rewrite generateUnitsDistribution_unfold by (unfold valid_distribution; lia).
  rewrite Halloc. reflexivity.
Qed.

(** The source that returns 0 leaves the slots and the remaining units
    as they are. *)
Lemma sweep_zero_source hi : forall todo i s,
  cur_units (sweep zero_source hi todo i s) = cur_units s
  /\ cur_remaining (sweep zero_source hi todo i s) = cur_remaining s.
Proof.
  induction todo as [|todo IH]; intros i s; [split; reflexivity|].
  cbn [sweep]. destruct (cur_remaining s >? 0); [|split; reflexivity].
  destruct (IH (S i) (sweep_step zero_source hi i s)) as [-> ->].
  unfold sweep_step. destruct (_ >? 0); [|split; reflexivity].
  cbn [cur_units cur_remaining]. change (zero_source (cur_draws s)) with 0%Q.
  rewrite randomInt_zero, Z.add_0_r, Z.sub_0_r. split; [|reflexivity].
  unfold get. destruct (cur_units s !! i) as [x|] eqn:E.
  - apply list_insert_id. exact E.
  - apply list_insert_ge. apply lookup_ge_None. exact E.
Qed.

Lemma allocate_zero_source count hi : forall fuel s,
  0 < cur_remaining s -> allocate fuel zero_source count hi s = None.
Proof.
  induction fuel as [|fuel IH]; intros s Hpos; cbn [allocate];
    destruct (Z.gtb_spec (cur_remaining s) 0); try lia; [reflexivity|].
  apply IH. destruct (sweep_zero_source hi (Z.to_nat count) 0 s) as [_ ->]. exact Hpos.
Qed.

(** With the source that returns 0 the distributor does not return when
    units are left to give out. *)
Lemma distribution_zero_source fuel total count lo hi :
  valid_distribution total count lo hi -> count * lo < total ->
  generateUnitsDistribution fuel zero_source total count lo hi = Diverges.
Proof.
  intros Hvalid Hmore.
  rewrite generateUnitsDistribution_unfold by exact Hvalid.
  rewrite allocate_zero_source; [reflexivity|]. cbn. lia.
Qed.
End DistributionFacts.

(** ** The distributor: sum, bounds, boundary cases and termination *)

Section DistributorClaims.
Import BillGenerator.



Lemma shuffle_replicate rnd (v : Z) n k :
  valid_source rnd ->
  shuffle rnd (length (replicate n v) - 1) (replicate n v) k = replicate n v.
Proof.
  intros Hrnd. rewrite length_replicate.
  destruct (shuffle_spec (fun u => v = u) rnd Hrnd
              (n - 1) (replicate n v) k) as (Hlen & _ & HF).
  - rewrite length_replicate. lia.
  - apply Forall_replicate. reflexivity.
  - rewrite length_replicate in Hlen. symmetry.
    apply replicate_as_Forall. split; assumption.
Qed.

End DistributorClaims.







(** ** The bill records *)

Section BillFacts.
Import JS BillGenerator.

Lemma bind_Returns {A B : Type} (c : outcome A) (k : A -> outcome B) (v : B) :
  c ≫= k = Returns v -> exists a, c = Returns a /\ k a = Returns v.
Proof. destruct c as [a| |]; cbn; [eauto | discriminate | discriminate]. Qed.

Lemma check_Returns b msg (u : unit) : check b msg = Returns u -> b = false.
Proof. destruct b; [discriminate | reflexivity]. Qed.

Lemma bill_loop_spec config dates unitsList : forall todo i billData,
  bill_loop todo i config dates unitsList billData
  = billData ++ map (bill_record config dates unitsList) (seq i todo).
Proof.
  induction todo as [|todo IH]; intros i billData; cbn [bill_loop seq map].
  - symmetry. apply app_nil_r.
  - rewrite IH, <- app_assoc. reflexivity.
Qed.

(** The records of the loop: as many as bills, numbered from
    [invoiceStart]. *)
Lemma bill_loop_numbers config dates unitsList n :
  let bills := bill_loop n 0 config dates unitsList [] in
  length bills = n
  /\ forall i b, bills !! i = Some b -> billNo b = invoiceStart config + Z.of_nat i.
Proof.
  cbv zeta. rewrite bill_loop_spec. cbn [app]. split.
  - rewrite length_map, length_seq. reflexivity.
  - intros i b Hb. rewrite list_lookup_fmap in Hb.
    destruct (seq 0 n !! i) as [k|] eqn:Hk; [|discriminate].
    apply lookup_seq in Hk as [-> _]. injection Hb as <-. reflexivity.
Qed.

End BillFacts.


(** * Further properties of the code *)

(** ** Numbers printed in decimal *)

Section DecimalFacts.
Import JS.

Lemma all_digits_uint d : all_digits (DecimalString.NilEmpty.string_of_uint d) = true.
Proof. induction d; cbn [DecimalString.NilEmpty.string_of_uint all_digits]; auto. Qed.

Lemma decimal_value_uint_acc d : forall acc : positive,
  decimal_value (Zpos acc) (DecimalString.NilEmpty.string_of_uint d)
  = Zpos (Pos.of_uint_acc d acc).
Proof.
  induction d; intros acc;
    cbn [DecimalString.NilEmpty.string_of_uint decimal_value Pos.of_uint_acc];
    [reflexivity | rewrite <- IHd; f_equal; unfold digit_value; cbn; lia ..].
Qed.

Lemma decimal_value_uint d :
  decimal_value 0 (DecimalString.NilEmpty.string_of_uint d) = Z.of_N (Pos.of_uint d).
Proof.
  induction d; cbn [DecimalString.NilEmpty.string_of_uint decimal_value Pos.of_uint];
    [reflexivity | exact IHd | ..];
    match goal with
    | |- decimal_value ?a _ = _ =>
        let v := eval vm_compute in a in change a with v
    end;
    rewrite decimal_value_uint_acc; reflexivity.
Qed.

(** [String(n)] of a number that is not negative is a string of digits,
    the decimal digits of [n]. *)
Lemma string_of_Z_digits n :
  0 <= n ->
  all_digits (string_of_Z n) = true /\ decimal_value 0 (string_of_Z n) = n.
Proof.
  intros Hn. unfold string_of_Z. destruct n as [|p|p]; [split; reflexivity | | lia].
  cbn [Z.to_int DecimalString.NilZero.string_of_int].
  unfold DecimalString.NilZero.string_of_uint.
  pose proof (DecimalPos.Unsigned.to_uint_nonnil p) as Hnil.
  pose proof (DecimalPos.Unsigned.of_to p) as Hof.
  destruct (Pos.to_uint p) eqn:E; try congruence;
    (split; [apply all_digits_uint | rewrite decimal_value_uint, Hof; reflexivity]).
Qed.

Lemma all_digits_app a b :
  all_digits (a +:+ b) = all_digits a && all_digits b.
Proof.
  induction a as [|c a IH]; [reflexivity|].
  change (String c a +:+ b) with (String c (a +:+ b)).
  cbn [all_digits]. rewrite IH, andb_assoc. reflexivity.
Qed.

Lemma zeros_S k :
  String.concat "" (replicate (S k) "0"%string)
  = String "0" (String.concat "" (replicate k "0"%string)).
Proof. destruct k; reflexivity. Qed.

Lemma digit_value_0 : digit_value "0" = 0.
Proof. reflexivity. Qed.

Lemma decimal_value_zeros k s : forall acc,
  decimal_value acc (String.concat "" (replicate k "0"%string) +:+ s)
  = decimal_value (acc * 10 ^ Z.of_nat k) s.
Proof.
  induction k as [|k IH]; intros acc.
  - change (String.concat "" (replicate 0 "0"%string) +:+ s) with s.
    f_equal. change (Z.of_nat 0) with 0. lia.
  - rewrite zeros_S.
    change (String "0" (String.concat "" (replicate k "0"%string)) +:+ s)
      with (String "0" (String.concat "" (replicate k "0"%string) +:+ s)).
    cbn [decimal_value]. rewrite IH, digit_value_0. f_equal.
    rewrite Nat2Z.inj_succ, Z.pow_succ_r by lia. lia.
Qed.

(** Padding with zeros keeps the digits and the value. *)
Lemma padStart0_digits k s :
  all_digits s = true ->
  all_digits (padStart0 k s) = true
  /\ decimal_value 0 (padStart0 k s) = decimal_value 0 s.
Proof.
  intros Hs. unfold padStart0. split.
  - rewrite all_digits_app, Hs, andb_true_r.
    induction (k - String.length s)%nat as [|j IH]; [reflexivity|].
    rewrite zeros_S. cbn [all_digits]. exact IH.
  - rewrite decimal_value_zeros. reflexivity.
Qed.
End DecimalFacts.

(** ** Printing a date and reading it back *)

Section FormatFacts.
Import Calendar JS JSDate BillGenerator.
Variable tz : Z.

Lemma decimal_value_nonneg s : forall acc,
  all_digits s = true -> 0 <= acc -> 0 <= decimal_value acc s.
Proof.
  induction s as [|c s IH]; intros acc Hs Hacc; cbn [decimal_value]; [exact Hacc|].
  cbn [all_digits] in Hs. apply andb_prop in Hs as [Hc Hs].
  apply IH; [exact Hs|]. unfold is_digit in Hc. apply andb_prop in Hc as [Hc _].
  apply N.leb_le in Hc. unfold digit_value. lia.
Qed.

Lemma Number_nonneg s v : Number s = Some v -> 0 <= v.
Proof.
  unfold Number. destruct (all_digits (trim s)) eqn:E; [|discriminate].
  intros [= <-]. apply decimal_value_nonneg; [exact E | lia].
Qed.

(** The time value of the local midnight of day number [D]. *)
Lemma newDate_of_civil y m d :
  100 <= y -> 1 <= m <= 12 ->
  newDate tz y (m - 1) d = days_from_civil y m d * msPerDay - tz.
Proof.
  intros Hy Hm. unfold newDate, UTC, MakeDate, MakeDay, full_year.
  destruct (Z.leb_spec y 99); [lia|]. rewrite andb_false_r. cbv zeta.
  assert ((m - 1) / 12 = 0) as -> by (Z.div_mod_to_equations; lia).
  assert ((m - 1) mod 12 = m - 1) as -> by (Z.div_mod_to_equations; lia).
  replace (y + 0) with y by lia. replace (m - 1 + 1) with m by lia.
  rewrite (days_from_civil_day y m d). lia.
Qed.

(** [parseDate] on the three numbers of a date of the calendar. *)
Lemma parseDate_valid_digits ds ms ys :
  all_digits ds = true -> all_digits ms = true -> all_digits ys = true ->
  100 <= decimal_value 0 ys ->
  1 <= decimal_value 0 ms <= 12 ->
  1 <= decimal_value 0 ds <= daysInMonth (decimal_value 0 ys) (decimal_value 0 ms) ->
  parseDate tz (ds +:+ "-" +:+ ms +:+ "-" +:+ ys)
  = Some (days_from_civil (decimal_value 0 ys) (decimal_value 0 ms) (decimal_value 0 ds)
          * msPerDay - tz).
Proof.
  intros Hd Hm Hy Hyear Hmonth Hday.
  rewrite (parseDate_digits tz ds ms ys Hd Hm Hy). cbv zeta.
  set (d := decimal_value 0 ds) in *. set (m := decimal_value 0 ms) in *.
  set (y := decimal_value 0 ys) in *.
  unfold getDate, getMonth, getFullYear, civil. rewrite Day_newDate.
  assert (full_year y = y) as Hfy
    by (unfold full_year; destruct (Z.leb_spec y 99); [lia|]; rewrite andb_false_r; reflexivity).
  rewrite Hfy, MakeDay_civil.
  - assert ((m - 1) / 12 = 0) as -> by (Z.div_mod_to_equations; lia).
    assert ((m - 1) mod 12 = m - 1) as -> by (Z.div_mod_to_equations; lia).
    replace (y + 0) with y by lia.
    rewrite !Z.eqb_refl.
    replace (m - 1 + 1 - 1 =? m - 1) with true by (symmetry; apply Z.eqb_eq; lia).
    cbn [negb orb]. rewrite newDate_of_civil by lia. reflexivity.
  - assert ((m - 1) / 12 = 0) as -> by (Z.div_mod_to_equations; lia).
    assert ((m - 1) mod 12 = m - 1) as -> by (Z.div_mod_to_equations; lia).
    replace (y + 0) with y by lia. replace (m - 1 + 1) with m by lia. exact Hday.
Qed.

(** A date far in the past is not the date of the same day 1900 years on. *)
Lemma days_from_civil_1900 y m d :
  days_from_civil (1900 + y) m d <> days_from_civil y m d.
Proof.
  unfold days_from_civil, year_start. destruct (m <=? 2); cbv zeta;
    Z.div_mod_to_equations; lia.
Qed.

Lemma civil_components t :
  civil tz t = (getFullYear tz t, getMonth tz t + 1, getDate tz t).
Proof.
  unfold getFullYear, getMonth, getDate. destruct (civil tz t) as [[y m] d].
  replace (m - 1 + 1) with m by lia. reflexivity.
Qed.

Lemma civil_newDate year month day :
  civil tz (newDate tz year month day)
  = civil_from_days (MakeDay (full_year year) month day).
Proof. unfold civil. rewrite Day_newDate. reflexivity. Qed.

(** What [parseDate] returns is the date built from the three numbers, and
    gives them back. *)
Lemma parseDate_inv s t :
  parseDate tz s = Some t ->
  exists day month year,
    map Number (split "-" s) !! 2%nat = Some (Some year)
    /\ t = newDate tz year (month - 1) day
    /\ getDate tz t = day /\ getMonth tz t = month - 1 /\ getFullYear tz t = year.
Proof.
  unfold parseDate.
  destruct (map Number (split "-" s) !! 0%nat) as [[day|]|]; try discriminate.
  destruct (map Number (split "-" s) !! 1%nat) as [[month|]|] eqn:Em; try discriminate.
  destruct (map Number (split "-" s) !! 2%nat) as [[year|]|] eqn:Ey; try discriminate.
  cbv zeta.
  destruct (Z.eqb_spec (getDate tz (newDate tz year (month - 1) day)) day) as [E1|];
    [|discriminate].
  destruct (Z.eqb_spec (getMonth tz (newDate tz year (month - 1) day)) (month - 1)) as [E2|];
    [|discriminate].
  destruct (Z.eqb_spec (getFullYear tz (newDate tz year (month - 1) day)) year) as [E3|];
    [|discriminate].
  intros H. exists day, month, year.
  assert (t = newDate tz year (month - 1) day) as -> by (injection H; auto).
  auto.
Qed.

(** A date that [parseDate] returns has a year of at least 100: it is the
    local midnight of a day of the calendar. *)
Lemma parseDate_Some s t :
  parseDate tz s = Some t ->
  100 <= getFullYear tz t /\ TimeWithinDay (LocalTime tz t) = 0.
Proof.
  intros Hs.
  destruct (parseDate_inv s t Hs) as (day & month & year & Ey & -> & E1 & E2 & E3).
  split.
  - rewrite E3.
    assert (0 <= year) as Hy.
    { rewrite list_lookup_fmap in Ey.
      destruct (split "-" s !! 2%nat) as [p|]; [|discriminate].
      injection Ey as Ey. exact (Number_nonneg p year Ey). }
    destruct (Z.lt_ge_cases year 100) as [Hlt|]; [exfalso | assumption].
    pose proof (civil_components (newDate tz year (month - 1) day)) as Hc.
    rewrite E1, E2, E3, civil_newDate in Hc.
    assert (full_year year = 1900 + year) as Hfy
      by (unfold full_year; destruct (Z.leb_spec 0 year); [|lia];
          destruct (Z.leb_spec year 99); [reflexivity | lia]).
    rewrite Hfy in Hc.
    pose proof (days_from_civil_from_days (MakeDay (1900 + year) (month - 1) day)) as H.
    rewrite Hc in H. destruct H as (Hz & Hm' & Hd').
    replace (month - 1 + 1) with month in * by lia.
    unfold MakeDay in Hz.
    assert ((month - 1) / 12 = 0) as E by (Z.div_mod_to_equations; lia).
    assert ((month - 1) mod 12 = month - 1) as E' by (Z.div_mod_to_equations; lia).
    rewrite E, E' in Hz.
    replace (1900 + year + 0) with (1900 + year) in Hz by lia.
    replace (month - 1 + 1) with month in Hz by lia.
    rewrite <- days_from_civil_day in Hz.
    exact (days_from_civil_1900 year month day (eq_sym Hz)).
  - rewrite LocalTime_newDate. unfold TimeWithinDay.
    apply Z.mod_mul. pose proof msPerDay_pos. lia.
Qed.

Lemma formatDate_parse t :
  100 <= getFullYear tz t ->
  parseDate tz (formatDate tz t) = Some (t - TimeWithinDay (LocalTime tz t)).
Proof.
  intros Hy. unfold formatDate, getDate, getMonth, getFullYear, civil in *.
  pose proof (days_from_civil_from_days (Day (LocalTime tz t))) as H.
  destruct (civil_from_days (Day (LocalTime tz t))) as [[y m] d].
  destruct H as (Hz & Hm & Hd). cbv zeta.
  replace (m - 1 + 1) with m by lia.
  destruct (string_of_Z_digits d ltac:(lia)) as [Hdd Hdv].
  destruct (string_of_Z_digits m ltac:(lia)) as [Hmd Hmv].
  destruct (string_of_Z_digits y ltac:(lia)) as [Hyd Hyv].
  destruct (padStart0_digits 2 _ Hdd) as [Hpd Hpdv].
  destruct (padStart0_digits 2 _ Hmd) as [Hpm Hpmv].
  rewrite parseDate_valid_digits; rewrite ?Hpdv, ?Hpmv, ?Hdv, ?Hmv, ?Hyv; auto.
  f_equal. rewrite Hz. unfold Day, TimeWithinDay.
  pose proof (Z.div_mod (LocalTime tz t) msPerDay) as Hdm.
  pose proof msPerDay_pos. unfold LocalTime in *. lia.
Qed.

(** X1. Printing a date and reading it back gives the local midnight of its
    day, for the years from 100 on; a date that [parseDate] returned is
    given back as it is. *)
Theorem parseDate_formatDate :
  (forall t, 100 <= getFullYear tz t ->
             parseDate tz (formatDate tz t) = Some (t - TimeWithinDay (LocalTime tz t)))
  /\ (forall s t, parseDate tz s = Some t -> parseDate tz (formatDate tz t) = Some t).
Proof.
  split; [exact formatDate_parse|].
  intros s t Hs. destruct (parseDate_Some s t Hs) as [Hy Hmid].
  rewrite (formatDate_parse t Hy), Hmid. f_equal. lia.
Qed.
End FormatFacts.

Lemma parseDate_formatDate_witness :
  BillGenerator.parseDate 19800000 (BillGenerator.formatDate 19800000 1740681000000)
  = Some 1740681000000.
Proof.
  apply (proj2 (parseDate_formatDate 19800000) "28-2-2025"%string 1740681000000).
  vm_compute. reflexivity.
Defined.

(** ** The strings [validateDateFormat] accepts *)

Section ValidateFormatFacts.
Import Calendar JS JSDate BillGenerator.
Variable tz : Z.

Lemma split_nonempty sep s : split sep s <> [].
Proof.
  destruct s as [|c s]; cbn [split]; [discriminate|].
  destruct (Ascii.eqb c sep); [discriminate|]. destruct (split sep s); discriminate.
Qed.

Lemma concat_cons_char c p ps :
  String.concat "-" (String c p :: ps) = String c (String.concat "-" (p :: ps)).
Proof. destruct ps; reflexivity. Qed.

(** Joining the pieces of a string gives the string back. *)
Lemma concat_split s : String.concat "-" (split "-" s) = s.
Proof.
  induction s as [|c s IH]; [reflexivity|]. cbn [split].
  destruct (Ascii.eqb_spec c "-") as [->|Hne].
  - pose proof (split_nonempty "-" s) as Hs.
    destruct (split "-" s) as [|p ps] eqn:E; [congruence|].
    change (String.concat "-" (""%string :: p :: ps))
      with (String "-" (String.concat "-" (p :: ps))).
    rewrite IH. reflexivity.
  - pose proof (split_nonempty "-" s) as Hs.
    destruct (split "-" s) as [|p ps] eqn:E; [congruence|].
    rewrite concat_cons_char, IH. reflexivity.
Qed.

Lemma split_three s d m y :
  split "-" s = [d; m; y] -> s = d +:+ "-" +:+ m +:+ "-" +:+ y.
Proof. intros H. rewrite <- (concat_split s), H. reflexivity. Qed.

(** For three strings of digits, [parseDate] returns a date iff the day
    exists in the calendar, in a year from 100 on. *)
Lemma parseDate_digits_valid ds ms ys :
  all_digits ds = true -> all_digits ms = true -> all_digits ys = true ->
  parseDate tz (ds +:+ "-" +:+ ms +:+ "-" +:+ ys) <> None
  <-> 100 <= decimal_value 0 ys
      /\ 1 <= decimal_value 0 ms <= 12
      /\ 1 <= decimal_value 0 ds
           <= daysInMonth (decimal_value 0 ys) (decimal_value 0 ms).
Proof.
  intros Hd Hm Hy. split.
  - intros Hparse.
    destruct (parseDate tz (ds +:+ "-" +:+ ms +:+ "-" +:+ ys)) as [t|] eqn:E; [|congruence].
    destruct (parseDate_Some tz _ t E) as [Hyear _].
    rewrite (parseDate_digits tz ds ms ys Hd Hm Hy) in E. cbv zeta in E.
    set (d := decimal_value 0 ds) in *. set (m := decimal_value 0 ms) in *.
    set (y := decimal_value 0 ys) in *.
    destruct (Z.eqb_spec (getDate tz (newDate tz y (m - 1) d)) d) as [E1|]; [|discriminate].
    destruct (Z.eqb_spec (getMonth tz (newDate tz y (m - 1) d)) (m - 1)) as [E2|];
      [|discriminate].
    destruct (Z.eqb_spec (getFullYear tz (newDate tz y (m - 1) d)) y) as [E3|];
      [|discriminate].
    assert (t = newDate tz y (m - 1) d) as -> by (injection E; auto).
    rewrite E3 in Hyear.
    pose proof (civil_components tz (newDate tz y (m - 1) d)) as Hc.
    rewrite E1, E2, E3, civil_newDate in Hc.
    pose proof (days_from_civil_from_days (MakeDay (full_year y) (m - 1) d)) as H.
    rewrite Hc in H. destruct H as (_ & Hm' & Hd').
    replace (m - 1 + 1) with m in * by lia. auto.
  - intros (Hyear & Hmonth & Hday).
    rewrite parseDate_valid_digits by assumption. discriminate.
Qed.

End ValidateFormatFacts.

(** ** The dates the expansion returns *)

Section EnumerationFacts.
Import Calendar JS JSDate BillGenerator.
Variable tz : Z.

Lemma getDay_range t : 0 <= getDay tz t <= 6.
Proof. unfold getDay. pose proof (Z.mod_pos_bound (Day (LocalTime tz t) + 4) 7 eq_refl). lia. Qed.

Lemma days_from_length c n : length (days_from c n) = n.
Proof. revert c. induction n as [|n IH]; intros c; cbn [days_from length]; auto. Qed.

Lemma days_from_bounds n : forall c t,
  In t (days_from c n) -> c <= t <= c + (Z.of_nat n - 1) * msPerDay.
Proof.
  pose proof msPerDay_pos as Hms.
  induction n as [|n IH]; intros c t Hin; [destruct Hin|].
  cbn [days_from] in Hin. destruct Hin as [<-|Hin]; [nia|].
  apply IH in Hin. nia.
Qed.

Lemma days_from_last n : forall c,
  last (days_from c (S n)) = Some (c + Z.of_nat n * msPerDay).
Proof.
  induction n as [|n IH]; intros c; [cbn; f_equal; lia|].
  change (days_from c (S (S n))) with (c :: days_from (c + msPerDay) (S n)).
  rewrite last_cons, IH. f_equal. lia.
Qed.

(** The day-by-day loop goes through the days from [currentDate] to
    [finalDate], and keeps the days whose weekday is not excluded. *)
Lemma day_loop_enumerates excl finalDate : forall n currentDate acc,
  (currentDate <= finalDate ->
   Z.to_nat ((finalDate - currentDate) / msPerDay + 1) = n) ->
  (finalDate < currentDate -> n = 0%nat) ->
  day_loop tz n currentDate finalDate excl acc
  = Some (acc ++ map (formatDate tz)
                    (List.filter (weekday_kept tz excl) (days_from currentDate n))).
Proof.
  pose proof msPerDay_pos as Hms.
  induction n as [|n IH]; intros c acc Hle Hgt; cbn [day_loop days_from List.filter map].
  - destruct (Z.leb_spec c finalDate) as [H|H]; [|rewrite app_nil_r; reflexivity].
    specialize (Hle H). assert (0 <= (finalDate - c) / msPerDay) by (apply Z.div_pos; lia).
    lia.
  - destruct (Z.leb_spec c finalDate) as [H|H]; [|specialize (Hgt H); discriminate].
    specialize (Hle H). rewrite setDate_next_day.
    assert (0 <= (finalDate - c) / msPerDay) as Hq by (apply Z.div_pos; lia).
    assert ((finalDate - (c + msPerDay)) / msPerDay = (finalDate - c) / msPerDay - 1) as Hstep.
    { replace (finalDate - (c + msPerDay)) with ((finalDate - c) + (-1) * msPerDay) by lia.
      rewrite Z.div_add by lia. lia. }
    rewrite IH.
    + unfold weekday_kept at 2.
      destruct (negb (includes excl (getDay tz c))); cbn [map];
        [rewrite <- app_assoc|]; reflexivity.
    + intros _. rewrite Hstep. lia.
    + intros Hlt.
      assert ((finalDate - c) / msPerDay = 0) by (apply Z.div_small; lia). lia.
Qed.

Lemma day_loop_fuel_enumerates excl c f acc :
  c <= f ->
  day_loop tz (day_loop_fuel c f) c f excl acc
  = Some (acc ++ map (formatDate tz)
                    (List.filter (weekday_kept tz excl) (days_from c (day_loop_fuel c f)))).
Proof.
  intros Hle. apply day_loop_enumerates; [reflexivity | lia].
Qed.

(** The loop over the days of a month, as an enumeration. *)
Lemma month_loop_enumerates sy sm excl n :
  month_loop tz n 1 sy sm excl []
  = map (formatDate tz)
      (List.filter (weekday_kept tz excl) (days_from (newDate tz sy (sm - 1) 1) n)).
Proof.
  pose proof msPerDay_pos as Hms.
  pose proof (day_loop_month_loop tz sy sm excl n 1 []) as H1.
  rewrite day_loop_enumerates in H1.
  - injection H1 as H1. symmetry. exact H1.
  - intros _. replace (_ - newDate tz sy (sm - 1) 1) with ((Z.of_nat n - 1) * msPerDay) by lia.
    rewrite Z.div_mul by lia. lia.
  - intros Hlt. destruct n; [reflexivity | nia].
Qed.

(** When every weekday is excluded no day is kept. *)
Lemma all_excluded excl l :
  (forall k, 0 <= k <= 6 -> includes excl k = true) ->
  List.filter (weekday_kept tz excl) l = [].
Proof.
  intros Hall. induction l as [|t l IH]; [reflexivity|].
  cbn [List.filter]. unfold weekday_kept at 1.
  rewrite (Hall _ (getDay_range t)). exact IH.
Qed.

(** The exact-range mode, for two dates that parse. *)
Lemma exact_range_mode_spec excl a b s e :
  parseDate tz a = Some s -> parseDate tz b = Some e -> s <= e ->
  exact_range_mode tz excl a b
  = let kept := List.filter (weekday_kept tz excl) (days_from s (day_loop_fuel s e)) in
    if (length kept =? 0)%nat
    then Throws "No valid dates found in the specified date range after excluding weekdays"
    else Returns (map (formatDate tz) kept).
Proof.
  intros Ha Hb Hle. unfold exact_range_mode. rewrite Ha, Hb.
  destruct (Z.gtb_spec s e); [lia|].
  rewrite day_loop_fuel_enumerates by exact Hle. cbn [app]. cbv zeta.
  rewrite length_map. reflexivity.
Qed.

(** The last day of the end month is not before its first day. *)
Lemma finalDate_after_endDate ey em :
  newDate tz ey (em - 1) 1 <= newDate tz ey em 0.
Proof.
  rewrite multi_month_finalDate.
  pose proof (daysInMonth_bounds (full_year ey + (em - 1) / 12) ((em - 1) mod 12 + 1)).
  pose proof msPerDay_pos. nia.
Qed.

(** The month-range mode, for a start month that is not after the end
    month: the single-month branch and the multi-month branch go through
    the days from the first of the start month to the last of the end
    month. *)
Lemma month_range_mode_spec sm sy em ey excl :
  newDate tz sy (sm - 1) 1 <= newDate tz ey (em - 1) 1 ->
  month_range_mode tz sm sy em ey excl
  = let first := newDate tz sy (sm - 1) 1 in
    let final := newDate tz ey em 0 in
    let kept := List.filter (weekday_kept tz excl)
                  (days_from first (day_loop_fuel first final)) in
    if (length kept =? 0)%nat
    then Throws "No valid dates found with the given constraints. Try adjusting the date range or excluded weekdays."
    else Returns (map (formatDate tz) kept).
Proof.
  intros Hle. pose proof msPerDay_pos as Hms.
  pose proof (finalDate_after_endDate ey em) as Hfinal.
  unfold month_range_mode.
  destruct (Z.gtb_spec (newDate tz sy (sm - 1) 1) (newDate tz ey (em - 1) 1)); [lia|].
  cbv zeta.
  assert ((if (sm =? em) && (sy =? ey)
           then Some (single_month tz sm sy excl)
           else multi_month tz sm sy em ey excl)
          = Some (map (formatDate tz)
                    (List.filter (weekday_kept tz excl)
                       (days_from (newDate tz sy (sm - 1) 1)
                          (day_loop_fuel (newDate tz sy (sm - 1) 1) (newDate tz ey em 0))))))
    as ->.
  { destruct ((sm =? em) && (sy =? ey)) eqn:E.
    - apply andb_prop in E as [E1 E2]. apply Z.eqb_eq in E1, E2. subst em ey.
      unfold single_month. rewrite single_month_lastDay, month_loop_enumerates.
      rewrite multi_month_finalDate. unfold day_loop_fuel.
      pose proof (daysInMonth_bounds (full_year sy + (sm - 1) / 12) ((sm - 1) mod 12 + 1)).
      replace (_ - newDate tz sy (sm - 1) 1)
        with ((daysInMonth (full_year sy + (sm - 1) / 12) ((sm - 1) mod 12 + 1) - 1)
              * msPerDay) by lia.
      rewrite Z.div_mul by lia. do 4 f_equal. lia.
    - unfold multi_month. rewrite day_loop_fuel_enumerates by lia. reflexivity. }
  rewrite length_map. reflexivity.
Qed.
End EnumerationFacts.

(** ** The order of the months *)

Section MonthOrderFacts.
Import Calendar JS JSDate BillGenerator.
Variable tz : Z.

Lemma MakeDay_index y m : MakeDay y m 1 = MakeDay 0 (12 * y + m) 1.
Proof.
  unfold MakeDay. cbv zeta.
  replace (12 * y + m) with (m + y * 12) by lia.
  rewrite Z.div_add, Z.mod_add by lia.
  replace (0 + (m / 12 + y)) with (y + m / 12) by lia. reflexivity.
Qed.

Lemma MakeDay_index_step k : MakeDay 0 k 1 < MakeDay 0 (k + 1) 1.
Proof.
  rewrite MakeDay_next_month.
  pose proof (daysInMonth_bounds (0 + k / 12) (k mod 12 + 1)). lia.
Qed.

Lemma MakeDay_index_mono k j : k < j -> MakeDay 0 k 1 < MakeDay 0 j 1.
Proof.
  intros Hlt. replace j with (k + 1 + (j - k - 1)) by lia.
  assert (0 <= j - k - 1) as Hd by lia. revert Hd.
  generalize (j - k - 1). intros d Hd. pattern d.
  apply natlike_ind; [| |exact Hd].
  - rewrite Z.add_0_r. apply MakeDay_index_step.
  - intros x Hx IH. pose proof (MakeDay_index_step (k + 1 + x)).
    replace (k + 1 + Z.succ x) with (k + 1 + x + 1) by lia. lia.
Qed.

(** The first days of two months are ordered as the months are. *)
Lemma first_days_order sy sm ey em :
  newDate tz sy (sm - 1) 1 <= newDate tz ey (em - 1) 1
  <-> month_index sy sm <= month_index ey em.
Proof.
  pose proof msPerDay_pos as Hms.
  unfold newDate, UTC, MakeDate, month_index.
  rewrite (MakeDay_index (full_year sy)), (MakeDay_index (full_year ey)).
  destruct (Z.lt_trichotomy (12 * full_year sy + (sm - 1)) (12 * full_year ey + (em - 1)))
    as [H|[H|H]].
  - pose proof (MakeDay_index_mono _ _ H). split; intros; nia.
  - rewrite H. split; intros; lia.
  - pose proof (MakeDay_index_mono _ _ H). split; intros; nia.
Qed.
End MonthOrderFacts.

(** ** Sorting *)

Section SortFacts.
Import JS.
Context {A : Type} (cmp : A -> A -> Z) (key : A -> Z) (P : A -> Prop).
Hypothesis cmp_key : forall a b, P a -> P b -> cmp a b = key a - key b.

Local Abbreviation sorted := (StronglySorted (fun a b => key a <= key b)).

Lemma insert_sorted_perm x l : insert_sorted cmp x l ≡ₚ x :: l.
Proof.
  induction l as [|y l IH]; cbn [insert_sorted]; [reflexivity|].
  destruct (cmp x y <? 0); [reflexivity|].
  rewrite IH. apply Permutation_swap.
Qed.

Lemma fold_insert_perm l : forall acc,
  fold_left (fun acc x => insert_sorted cmp x acc) l acc ≡ₚ l ++ acc.
Proof.
  induction l as [|x l IH]; intros acc; cbn [fold_left]; [reflexivity|].
  rewrite IH, insert_sorted_perm. cbn [app].
  symmetry. apply Permutation_middle.
Qed.

Lemma sort_perm l : sort cmp l ≡ₚ l.
Proof. unfold sort. rewrite fold_insert_perm, app_nil_r. reflexivity. Qed.

Lemma sort_length l : length (sort cmp l) = length l.
Proof. apply Permutation_length, sort_perm. Qed.

Lemma insert_sorted_sorted x l :
  P x -> Forall P l -> sorted l -> sorted (insert_sorted cmp x l).
Proof.
  intros Hx HP Hs. induction Hs as [|y l Hs IH Hy]; cbn [insert_sorted].
  - repeat constructor.
  - apply Forall_cons in HP as [HPy HP].
    rewrite (cmp_key x y Hx HPy).
    destruct (Z.ltb_spec (key x - key y) 0) as [Hlt|Hge].
    + constructor; [constructor; assumption|].
      constructor; [lia|]. eapply Forall_impl; [exact Hy|]. cbn. intros; lia.
    + constructor; [apply IH; exact HP|].
      rewrite (insert_sorted_perm x l). constructor; [lia | exact Hy].
Qed.

Lemma fold_insert_sorted l : forall acc,
  Forall P l -> Forall P acc -> sorted acc ->
  sorted (fold_left (fun acc x => insert_sorted cmp x acc) l acc).
Proof.
  induction l as [|x l IH]; intros acc HPl HPacc Hs; cbn [fold_left]; [exact Hs|].
  apply Forall_cons in HPl as [Hx HPl].
  apply IH; [exact HPl | | apply insert_sorted_sorted; assumption].
  rewrite (insert_sorted_perm x acc). constructor; assumption.
Qed.

(** The sorted list is in the order of the keys. *)
Lemma sort_sorted l : Forall P l -> sorted (sort cmp l).
Proof. intros HP. apply fold_insert_sorted; [exact HP | constructor | constructor]. Qed.

(** An element that is not below the elements of a list goes to its end. *)
Lemma insert_sorted_last x l :
  P x -> Forall P l -> Forall (fun y => key y <= key x) l ->
  insert_sorted cmp x l = l ++ [x].
Proof.
  intros Hx HP Hle. induction l as [|y l IH]; cbn [insert_sorted app]; [reflexivity|].
  apply Forall_cons in HP as [HPy HP]. apply Forall_cons in Hle as [Hy Hle].
  rewrite (cmp_key x y Hx HPy).
  destruct (Z.ltb_spec (key x - key y) 0); [lia|]. rewrite IH by assumption. reflexivity.
Qed.

Lemma fold_insert_sorted_id l : forall acc,
  Forall P l -> Forall P acc -> sorted (acc ++ l) ->
  fold_left (fun acc x => insert_sorted cmp x acc) l acc = acc ++ l.
Proof.
  induction l as [|x l IH]; intros acc HPl HPacc Hs; cbn [fold_left].
  - symmetry. apply app_nil_r.
  - apply Forall_cons in HPl as [Hx HPl].
    assert (Forall (fun y => key y <= key x) acc) as Hle.
    { clear - Hs. induction acc as [|a acc IHa]; [constructor|].
      cbn [app] in Hs. apply StronglySorted_inv in Hs as [Hs Ha].
      constructor; [|apply IHa; exact Hs].
      rewrite Forall_app in Ha. destruct Ha as [_ Ha].
      apply Forall_cons in Ha as [Ha _]. exact Ha. }
    rewrite insert_sorted_last by assumption.
    rewrite IH.
    + rewrite <- app_assoc. reflexivity.
    + exact HPl.
    + apply Forall_app. split; [exact HPacc | repeat constructor; exact Hx].
    + rewrite <- app_assoc. exact Hs.
Qed.

(** Sorting a sorted list changes nothing. *)
Lemma sort_sorted_id l : Forall P l -> sorted l -> sort cmp l = l.
Proof.
  intros HP Hs. unfold sort. rewrite fold_insert_sorted_id; auto.
Qed.

(** Sorting a sorted list with one more element at its end puts the
    element in its place. *)
Lemma sort_snoc l x :
  Forall P l -> sorted l -> sort cmp (l ++ [x]) = insert_sorted cmp x l.
Proof.
  intros HP Hs. unfold sort. rewrite fold_left_app. cbn [fold_left].
  fold (sort cmp l). rewrite sort_sorted_id by assumption. reflexivity.
Qed.
End SortFacts.

(** ** The modes of the expansion *)

Section DateRangeTheorems.
Import Calendar JS JSDate BillGenerator.
Variable tz : Z.

Lemma parseDate_truthy s t : parseDate tz s = Some t -> truthy s = true.
Proof. destruct s; [discriminate | reflexivity]. Qed.

Lemma generateDateRange_exact sm sy em ey excl (o : DateOptions.t) a b :
  DateOptions.dateMode o = Some ExactRange ->
  DateOptions.exactStartDate o = Some a -> DateOptions.exactEndDate o = Some b ->
  truthy a = true -> truthy b = true ->
  generateDateRange tz sm sy em ey excl (Some o) = exact_range_mode tz excl a b.
Proof.
  intros Hm Ha Hb Hta Htb. unfold generateDateRange. cbn [mbind option_bind].
  rewrite Hm, Ha, Hb, Hta, Htb.
  destruct (DateOptions.specificDates o) as [[|]|]; reflexivity.
Qed.

(** The options that select the range of the months. *)
Lemma generateDateRange_month_range sm sy em ey excl o :
  month_range_selected o = true ->
  generateDateRange tz sm sy em ey excl o = month_range_mode tz sm sy em ey excl.
Proof.
  unfold month_range_selected, generateDateRange.
  destruct (o ≫= DateOptions.dateMode) as [[| |]|];
    destruct (o ≫= DateOptions.specificDates) as [[|d ds]|];
    destruct (o ≫= DateOptions.exactStartDate) as [a|];
    destruct (o ≫= DateOptions.exactEndDate) as [b|];
    try destruct (truthy a && truthy b);
    intros H; first [reflexivity | discriminate H].
Qed.

(** X3. With local time at the fixed offset [tz] from UTC (no daylight
    saving time): in the exact-range mode with two dates that parse to
    [Date]s, the start not after the end, the expansion returns the days
    from the start date to the end date, both included, whose weekday is
    not excluded, in ascending order; it throws when no day is left. *)
Theorem exact_range_enumerates sm sy em ey excl (o : DateOptions.t) a b s e :
  DateOptions.dateMode o = Some ExactRange ->
  DateOptions.exactStartDate o = Some a -> DateOptions.exactEndDate o = Some b ->
  parseDate tz a = Some s -> parseDate tz b = Some e -> s <= e ->
  valid_time s -> valid_time e ->
  let days := days_from s (day_loop_fuel s e) in
  let kept := List.filter (weekday_kept tz excl) days in
  generateDateRange tz sm sy em ey excl (Some o)
  = (if (length kept =? 0)%nat
     then Throws "No valid dates found in the specified date range after excluding weekdays"
     else Returns (map (formatDate tz) kept))
  /\ head days = Some s /\ last days = Some e.
Proof.
  intros Hm Ha Hb Hs He Hle _ _ days kept.
  pose proof msPerDay_pos as Hms.
  split.
  - rewrite (generateDateRange_exact sm sy em ey excl o a b Hm Ha Hb
               (parseDate_truthy a s Hs) (parseDate_truthy b e He)).
    apply (exact_range_mode_spec tz excl a b s e Hs He Hle).
  - destruct (parseDate_Some tz a s Hs) as [_ Hs0].
    destruct (parseDate_Some tz b e He) as [_ He0].
    unfold TimeWithinDay, LocalTime in Hs0, He0.
    assert (0 <= (e - s) / msPerDay) as Hq by (apply Z.div_pos; lia).
    assert (e = s + (e - s) / msPerDay * msPerDay) as Hend.
    { pose proof (Z.div_mod (s + tz) msPerDay ltac:(lia)) as H1.
      pose proof (Z.div_mod (e + tz) msPerDay ltac:(lia)) as H2.
      rewrite Hs0 in H1. rewrite He0 in H2.
      replace (e - s) with (((e + tz) / msPerDay - (s + tz) / msPerDay) * msPerDay) by lia.
      rewrite Z.div_mul by lia. lia. }
    subst days. unfold day_loop_fuel.
    replace (Z.to_nat ((e - s) / msPerDay + 1)) with (S (Z.to_nat ((e - s) / msPerDay)))
      by lia.
    split; [reflexivity|].
    rewrite days_from_last, Z2Nat.id by lia. f_equal. lia.
Qed.

(** X4. With local time at the fixed offset [tz] from UTC (no daylight
    saving time): for every options object that selects the range of the
    months, a start month that is not after the end month, and a range
    inside the [Date]s (its first day, and the first day of the month after
    the end month, which the single-month branch builds), the expansion
    returns the days from the first day of the start month to the last day
    of the end month whose weekday is not excluded, in ascending order; it
    throws when no day is left. *)
Theorem month_range_enumerates sm sy em ey excl o :
  month_range_selected o = true ->
  month_index sy sm <= month_index ey em ->
  let first := newDate tz sy (sm - 1) 1 in
  let final := newDate tz ey em 0 in
  valid_time first -> valid_time (newDate tz ey em 1) ->
  let days := days_from first (day_loop_fuel first final) in
  let kept := List.filter (weekday_kept tz excl) days in
  generateDateRange tz sm sy em ey excl o
  = (if (length kept =? 0)%nat
     then Throws "No valid dates found with the given constraints. Try adjusting the date range or excluded weekdays."
     else Returns (map (formatDate tz) kept))
  /\ head days = Some first /\ last days = Some final
  /\ getDate tz first = 1
  /\ getDate tz final
     = daysInMonth (full_year ey + (em - 1) / 12) ((em - 1) mod 12 + 1).
Proof.
  intros Hsel Hidx first final _ _ days kept.
  pose proof msPerDay_pos as Hms.
  apply (proj2 (first_days_order tz sy sm ey em)) in Hidx.
  pose proof (finalDate_after_endDate tz ey em) as Hfinal.
  split; [rewrite (generateDateRange_month_range sm sy em ey excl o Hsel);
          exact (month_range_mode_spec tz sm sy em ey excl Hidx)|].
  assert (0 <= (final - first) / msPerDay) as Hq by (apply Z.div_pos; subst first final; lia).
  assert (final = first + (final - first) / msPerDay * msPerDay) as Hend.
  { subst first final. unfold newDate, UTC, MakeDate.
    replace (MakeDay (full_year ey) em 0 * msPerDay + 0 - tz
             - (MakeDay (full_year sy) (sm - 1) 1 * msPerDay + 0 - tz))
      with ((MakeDay (full_year ey) em 0 - MakeDay (full_year sy) (sm - 1) 1) * msPerDay)
      by lia.
    rewrite Z.div_mul by lia. lia. }
  split; [|split; [|split]].
  - subst days. unfold day_loop_fuel.
    replace (Z.to_nat ((final - first) / msPerDay + 1))
      with (S (Z.to_nat ((final - first) / msPerDay))) by lia.
    reflexivity.
  - subst days. unfold day_loop_fuel.
    replace (Z.to_nat ((final - first) / msPerDay + 1))
      with (S (Z.to_nat ((final - first) / msPerDay))) by lia.
    rewrite days_from_last, Z2Nat.id by lia. f_equal. lia.
  - subst first. pose proof (civil_components tz (newDate tz sy (sm - 1) 1)) as Hc.
    rewrite civil_newDate, MakeDay_civil in Hc.
    + injection Hc as _ _ Hd. symmetry. exact Hd.
    + pose proof (daysInMonth_bounds (full_year sy + (sm - 1) / 12) ((sm - 1) mod 12 + 1)).
      lia.
  - subst final.
    pose proof (getDate_last_day tz ey (em - 1)) as H.
    replace (em - 1 + 1) with em in H by lia. rewrite <- H.
    f_equal. rewrite (newDate_date tz ey em 0), (newDate_date tz ey em 1).
    unfold msPerDay. lia.
Qed.

(** X5. With local time at the fixed offset [tz] from UTC: for every
    options object that selects the range of the months, when the first
    days of the start month and of the end month are [Date]s, the expansion
    throws the error of a start after the end exactly when the start month
    is after the end month. *)
Theorem month_range_start_after_end sm sy em ey excl o :
  month_range_selected o = true ->
  valid_time (newDate tz sy (sm - 1) 1) -> valid_time (newDate tz ey (em - 1) 1) ->
  (generateDateRange tz sm sy em ey excl o = Throws "Start date cannot be after end date"
   <-> month_index ey em < month_index sy sm).
Proof.
  intros Hsel _ _.
  rewrite (generateDateRange_month_range sm sy em ey excl o Hsel).
  pose proof (first_days_order tz sy sm ey em) as Hord.
  split.
  - intros Hthrow.
    destruct (Z.lt_ge_cases (month_index ey em) (month_index sy sm)) as [|Hle];
      [assumption | exfalso].
    apply (proj2 Hord) in Hle.
    rewrite (month_range_mode_spec tz sm sy em ey excl Hle) in Hthrow.
    cbv zeta in Hthrow. destruct (length _ =? 0)%nat; discriminate.
  - intros Hlt. unfold month_range_mode.
    destruct (Z.gtb_spec (newDate tz sy (sm - 1) 1) (newDate tz ey (em - 1) 1)) as [|Hle];
      [reflexivity|].
    apply (proj1 Hord) in Hle. lia.
Qed.


(** X7. What the expansion returns is never the empty list, in every
    mode. *)
Theorem generateDateRange_nonempty sm sy em ey excl (config : option DateOptions.t) dates :
  generateDateRange tz sm sy em ey excl config = Returns dates -> dates <> [].
Proof.
  assert (month_range_mode tz sm sy em ey excl = Returns dates -> dates <> []) as Hmonth.
  { unfold month_range_mode. destruct (_ >? _); [discriminate|].
    destruct (if _ && _ then _ else _) as [l|]; [|discriminate].
    destruct l; [discriminate|]. cbn. intros [= <-]. discriminate. }
  assert (forall a b, exact_range_mode tz excl a b = Returns dates -> dates <> []) as Hexact.
  { intros a b. unfold exact_range_mode.
    destruct (parseDate tz a); [|discriminate]. destruct (parseDate tz b); [|discriminate].
    destruct (_ >? _); [discriminate|].
    destruct (day_loop _ _ _ _ _ _) as [l|]; [|discriminate].
    destruct l; [discriminate|]. cbn. intros [= <-]. discriminate. }
  assert (forall l, specific_dates_mode tz excl l = Returns dates -> dates <> []) as Hspecific.
  { intros l. unfold specific_dates_mode.
    destruct (List.filter (specific_date_kept tz excl) l) as [|d kept] eqn:E;
      [discriminate|].
    cbn [length Nat.eqb]. intros [= <-] Hnil.
    apply (f_equal length) in Hnil. rewrite sort_length in Hnil. discriminate. }
  unfold generateDateRange.
  repeat match goal with
         | |- context [match ?x with _ => _ end] => destruct x
         end;
    first [exact Hmonth | apply Hexact | apply Hspecific].
Qed.
End DateRangeTheorems.

(** 27 February to 2 March 2024, the Sundays excluded. *)
Lemma exact_range_enumerates_witness :
  let o := {| DateOptions.dateMode := Some ExactRange;
              DateOptions.exactStartDate := Some "27-02-2024"%string;
              DateOptions.exactEndDate := Some "02-03-2024"%string;
              DateOptions.specificDates := None |} in
  let days := BillGenerator.days_from 1708992000000
                (BillGenerator.day_loop_fuel 1708992000000 1709337600000) in
  let kept := List.filter (BillGenerator.weekday_kept 0 [0]) days in
  BillGenerator.generateDateRange 0 1 2024 1 2024 [0] (Some o)
  = (if (length kept =? 0)%nat
     then Throws "No valid dates found in the specified date range after excluding weekdays"
     else Returns (map (BillGenerator.formatDate 0) kept))
  /\ head days = Some 1708992000000 /\ last days = Some 1709337600000.
Proof.
  apply (exact_range_enumerates 0 1 2024 1 2024 [0] _ "27-02-2024" "02-03-2024"
           1708992000000 1709337600000); try reflexivity;
    first [lia | unfold BillGenerator.valid_time, BillGenerator.maxTime; lia].
Defined.

(** May and June 2025, the Tuesdays excluded. *)
Lemma month_range_enumerates_witness :
  let first := JSDate.newDate 0 2025 (5 - 1) 1 in
  let final := JSDate.newDate 0 2025 6 0 in
  let days := BillGenerator.days_from first (BillGenerator.day_loop_fuel first final) in
  let kept := List.filter (BillGenerator.weekday_kept 0 [2]) days in
  BillGenerator.generateDateRange 0 5 2025 6 2025 [2]
    (Some {| DateOptions.dateMode := Some MonthRange;
             DateOptions.exactStartDate := None;
             DateOptions.exactEndDate := None;
             DateOptions.specificDates := None |})
  = (if (length kept =? 0)%nat
     then Throws "No valid dates found with the given constraints. Try adjusting the date range or excluded weekdays."
     else Returns (map (BillGenerator.formatDate 0) kept))
  /\ head days = Some first /\ last days = Some final
  /\ JSDate.getDate 0 first = 1
  /\ JSDate.getDate 0 final
     = Calendar.daysInMonth (JSDate.full_year 2025 + (6 - 1) / 12) ((6 - 1) mod 12 + 1).
Proof.
  apply (month_range_enumerates 0 5 2025 6 2025 [2]).
  - reflexivity.
  - vm_compute. discriminate.
  - unfold BillGenerator.valid_time, BillGenerator.maxTime. vm_compute.
    split; discriminate.
  - unfold BillGenerator.valid_time, BillGenerator.maxTime. vm_compute.
    split; discriminate.
Defined.

(** From June 2025 to May 2025. *)
Lemma month_range_start_after_end_witness :
  BillGenerator.generateDateRange 0 6 2025 5 2025 []
    (Some {| DateOptions.dateMode := Some MonthRange;
             DateOptions.exactStartDate := None;
             DateOptions.exactEndDate := None;
             DateOptions.specificDates := None |})
  = Throws "Start date cannot be after end date"
  <-> BillGenerator.month_index 2025 5 < BillGenerator.month_index 2025 6.
Proof.
  apply (month_range_start_after_end 0 6 2025 5 2025 []).
  - reflexivity.
  - unfold BillGenerator.valid_time, BillGenerator.maxTime. vm_compute.
    split; discriminate.
  - unfold BillGenerator.valid_time, BillGenerator.maxTime. vm_compute.
    split; discriminate.
Defined.


(** The Saturdays of May 2025. *)
Lemma generateDateRange_nonempty_witness :
  ["03-05-2025"; "10-05-2025"; "17-05-2025"; "24-05-2025"; "31-05-2025"]%string <> [].
Proof.
  apply (generateDateRange_nonempty 0 5 2025 5 2025 [0; 1; 2; 3; 4; 5] None).
  vm_compute. reflexivity.
Defined.

(** ** The list of the specific dates *)

Section SpecificDatesFacts.
Import Calendar JS JSDate BillGenerator DateSettings.
Variable tz : Z.

Local Abbreviation parses := (fun s : string => parseDate tz s <> None).
Local Abbreviation by_date := (StronglySorted (fun a b => date_key tz a <= date_key tz b)).

Lemma compare_dates_key a b :
  parses a -> parses b -> compare_dates tz a b = date_key tz a - date_key tz b.
Proof.
  unfold compare_dates, date_key.
  destruct (parseDate tz a); [|congruence]. destruct (parseDate tz b); [|congruence].
  reflexivity.
Qed.

Lemma specific_date_kept_parses excl d : specific_date_kept tz excl d = true -> parses d.
Proof. unfold specific_date_kept. destruct (parseDate tz d); [discriminate | discriminate]. Qed.

Lemma kept_parse excl dates :
  Forall parses (List.filter (specific_date_kept tz excl) dates).
Proof.
  apply Forall_forall. intros d Hd. apply list_elem_of_In, filter_In in Hd as [_ Hd].
  exact (specific_date_kept_parses excl d Hd).
Qed.

Lemma validateDateFormat_parses d : validateDateFormat tz d = true -> parses d.
Proof. intros H. apply validateDateFormat_parseDate in H as [_ H]. exact H. Qed.

Lemma filter_sorted (f : string -> bool) l : by_date l -> by_date (List.filter f l).
Proof.
  induction 1 as [|x l Hs IH Hx]; cbn [List.filter]; [constructor|].
  destruct (f x); [|exact IH]. constructor; [exact IH|].
  apply Forall_forall. intros y Hy. apply list_elem_of_In, filter_In in Hy as [Hy _].
  exact (proj1 (Forall_forall _ _) Hx y (proj2 (list_elem_of_In _ _) Hy)).
Qed.

(** X8. In the mode of the specific dates, what the expansion returns are
    the dates of the list that parse and whose weekday is not excluded,
    each as often as in the list, in ascending order of the dates. *)
Theorem specific_dates_sorted sm sy em ey excl (o : DateOptions.t) dates out :
  DateOptions.dateMode o = Some SpecificDates ->
  DateOptions.specificDates o = Some dates -> dates <> [] ->
  generateDateRange tz sm sy em ey excl (Some o) = Returns out ->
  out ≡ₚ List.filter (specific_date_kept tz excl) dates
  /\ by_date out
  /\ Forall (fun d => specific_date_kept tz excl d = true) out.
Proof.
  intros Hm Hd Hne Hrun. unfold generateDateRange in Hrun. cbn [mbind option_bind] in Hrun.
  rewrite Hm, Hd in Hrun. destruct dates as [|d ds]; [congruence|].
  unfold specific_dates_mode in Hrun.
  destruct (length _ =? 0)%nat; [discriminate|]. injection Hrun as <-.
  change (fun a b : string => match parseDate tz a with
                              | Some dateA => match parseDate tz b with
                                              | Some dateB => getTime dateA - getTime dateB
                                              | None => 0
                                              end
                              | None => 0
                              end) with (compare_dates tz).
  pose proof (sort_perm (compare_dates tz)
                (List.filter (specific_date_kept tz excl) (d :: ds))) as Hperm.
  split; [exact Hperm|]. split.
  - apply (sort_sorted (compare_dates tz) (date_key tz) parses compare_dates_key).
    exact (kept_parse excl (d :: ds)).
  - rewrite Hperm. apply Forall_forall. intros x Hx.
    apply list_elem_of_In, filter_In in Hx as [_ Hx]. exact Hx.
Qed.
End SpecificDatesFacts.

Section HandlerFacts.
Import Calendar JS JSDate BillGenerator DateSettings.
Variable tz : Z.

Local Abbreviation parses := (fun s : string => parseDate tz s <> None).

Lemma existsb_eqb_In x (l : list string) : existsb (String.eqb x) l = true <-> In x l.
Proof.
  rewrite existsb_exists. split.
  - intros (y & Hy & E). apply String.eqb_eq in E. subst y. exact Hy.
  - intros H. exists x. split; [exact H | apply String.eqb_refl].
Qed.

Lemma removeSpecificDate_In d l x : In x (removeSpecificDate d l) <-> In x l /\ x <> d.
Proof.
  unfold removeSpecificDate. rewrite filter_In, negb_true_iff, String.eqb_neq. reflexivity.
Qed.

Lemma removeSpecificDate_absent d l : ~ In d l -> removeSpecificDate d l = l.
Proof.
  intros H. induction l as [|y l IH]; [reflexivity|].
  unfold removeSpecificDate in *. cbn [List.filter].
  destruct (String.eqb_spec y d) as [->|Hne]; [exfalso; apply H; left; reflexivity|].
  cbn [negb]. f_equal. apply IH. intros Hin. apply H. right. exact Hin.
Qed.

Lemma removeSpecificDate_insert cmp d l :
  ~ In d l -> removeSpecificDate d (insert_sorted cmp d l) = l.
Proof.
  intros H. induction l as [|y l IH]; cbn [insert_sorted].
  - unfold removeSpecificDate. cbn. rewrite String.eqb_refl. reflexivity.
  - destruct (cmp d y <? 0).
    + unfold removeSpecificDate. cbn [List.filter]. rewrite String.eqb_refl. cbn [negb].
      apply (removeSpecificDate_absent d (y :: l) H).
    + unfold removeSpecificDate in *. cbn [List.filter].
      destruct (String.eqb_spec y d) as [->|Hne]; [exfalso; apply H; left; reflexivity|].
      cbn [negb]. f_equal. apply IH. intros Hin. apply H. right. exact Hin.
Qed.

Lemma invariant_parses l :
  Forall (fun d => validateDateFormat tz d = true) l -> Forall parses l.
Proof.
  intros H. eapply Forall_impl; [exact H|]. cbn. intros d Hd.
  exact (validateDateFormat_parses tz d Hd).
Qed.

(** X9. What [addSpecificDate] does is decided by the input: an empty input
    is ignored, an input that is not empty and that [validateDateFormat]
    rejects is refused as invalid, an accepted date of the list is refused
    as a duplicate, and an accepted date that is not in the list is added.
    Adding keeps the list of the specific dates free of duplicates, made of
    dates that [validateDateFormat] accepts, and in ascending order: the
    new list has the date and the dates of the old list, and removing the
    date again gives the old list back. *)
Theorem addSpecificDate_keeps_invariant newDate (l : list string) :
  dates_invariant tz l ->
  match addSpecificDate tz newDate l with
  | DatesUpdated l' =>
      dates_invariant tz l' /\ l' ≡ₚ newDate :: l /\ removeSpecificDate newDate l' = l
  | DuplicateDate => In newDate l
  | InvalidDateFormat => validateDateFormat tz newDate = false
  | Ignored => newDate = ""%string
  end
  /\ (newDate = ""%string -> addSpecificDate tz newDate l = Ignored)
  /\ (newDate <> ""%string -> validateDateFormat tz newDate = false ->
      addSpecificDate tz newDate l = InvalidDateFormat)
  /\ (validateDateFormat tz newDate = true -> In newDate l ->
      addSpecificDate tz newDate l = DuplicateDate)
  /\ (validateDateFormat tz newDate = true -> ~ In newDate l ->
      exists l', addSpecificDate tz newDate l = DatesUpdated l').
Proof.
  intros (Hvalid & Hnodup & Hsorted).
  assert (validateDateFormat tz newDate = true -> truthy newDate = true) as Htruthy.
  { intros Hv. apply validateDateFormat_parses in Hv.
    destruct (parseDate tz newDate) as [t|] eqn:E; [|congruence].
    exact (parseDate_truthy tz newDate t E). }
  split; [|split; [|split; [|split]]].
  - unfold addSpecificDate.
    destruct (truthy newDate) eqn:Et;
      [|destruct newDate; [reflexivity | discriminate]].
    cbn [negb].
    destruct (validateDateFormat tz newDate) eqn:Ev; [|reflexivity]. cbn [negb].
    destruct (existsb (String.eqb newDate) l) eqn:Ein; [apply existsb_eqb_In; exact Ein|].
    assert (~ In newDate l) as Hnotin
      by (intros Hin; apply existsb_eqb_In in Hin; congruence).
    pose proof (invariant_parses l Hvalid) as Hparse.
    pose proof (validateDateFormat_parses tz newDate Ev) as Hpn.
    rewrite (sort_snoc (compare_dates tz) (date_key tz) parses (compare_dates_key tz))
      by assumption.
    pose proof (insert_sorted_perm (compare_dates tz) newDate l) as Hperm.
    split; [|split; [exact Hperm | apply removeSpecificDate_insert; exact Hnotin]].
    split; [|split].
    + rewrite Hperm. constructor; assumption.
    + rewrite Hperm. constructor; [|exact Hnodup].
      intros Hin. apply Hnotin. apply list_elem_of_In. exact Hin.
    + apply (insert_sorted_sorted (compare_dates tz) (date_key tz) parses
               (compare_dates_key tz)); assumption.
  - intros ->. reflexivity.
  - intros Hne Hv. unfold addSpecificDate.
    destruct newDate; [congruence|]. cbn [truthy negb]. rewrite Hv. reflexivity.
  - intros Hv Hin. unfold addSpecificDate.
    rewrite (Htruthy Hv), Hv. cbn [negb].
    rewrite (proj2 (existsb_eqb_In newDate l) Hin). reflexivity.
  - intros Hv Hnotin. unfold addSpecificDate.
    rewrite (Htruthy Hv), Hv. cbn [negb].
    destruct (existsb (String.eqb newDate) l) eqn:Ein;
      [apply existsb_eqb_In in Ein; contradiction|].
    eexists. reflexivity.
Qed.

Lemma removeSpecificDate_sublist d l : removeSpecificDate d l `sublist_of` l.
Proof.
  unfold removeSpecificDate. induction l as [|x l IH]; cbn [List.filter]; [constructor|].
  destruct (negb (String.eqb x d)); [apply sublist_skip | apply sublist_cons]; exact IH.
Qed.

Lemma removeSpecificDate_perm d l :
  NoDup l -> In d l -> l ≡ₚ d :: removeSpecificDate d l.
Proof.
  induction 1 as [|x l Hx Hnodup IH]; intros Hin; [destruct Hin|].
  unfold removeSpecificDate in *. cbn [List.filter].
  destruct (String.eqb_spec x d) as [->|Hne]; cbn [negb].
  - assert (List.filter (fun date => negb (String.eqb date d)) l = l) as ->; [|reflexivity].
    apply (removeSpecificDate_absent d l). intros H. apply Hx, list_elem_of_In, H.
  - destruct Hin as [E|Hin]; [congruence|].
    rewrite (IH Hin) at 1. apply Permutation_swap.
Qed.

(** X10. [removeSpecificDate] removes the date and no other date, and
    keeps the list free of duplicates, valid and in ascending order: the
    dates that stay keep their order, removing a date that is not in the
    list changes nothing, and a date of the list is what the new list
    lacks. *)
Theorem removeSpecificDate_keeps_invariant d (l : list string) :
  dates_invariant tz l ->
  dates_invariant tz (removeSpecificDate d l)
  /\ (forall x, In x (removeSpecificDate d l) <-> In x l /\ x <> d)
  /\ removeSpecificDate d l `sublist_of` l
  /\ (~ In d l -> removeSpecificDate d l = l)
  /\ (In d l -> l ≡ₚ d :: removeSpecificDate d l).
Proof.
  intros (Hvalid & Hnodup & Hsorted).
  split; [|split; [intros x; apply removeSpecificDate_In|
           split; [apply removeSpecificDate_sublist|
           split; [apply removeSpecificDate_absent|
                   apply removeSpecificDate_perm; exact Hnodup]]]].
  split; [|split].
  - apply Forall_forall. intros x Hx.
    apply list_elem_of_In, removeSpecificDate_In in Hx as [Hx _].
    exact (proj1 (Forall_forall _ _) Hvalid x (proj2 (list_elem_of_In _ _) Hx)).
  - unfold removeSpecificDate. clear - Hnodup.
    induction Hnodup as [|x l Hx Hnodup IH]; cbn [List.filter]; [constructor|].
    destruct (negb (String.eqb x d)); [|exact IH].
    constructor; [|exact IH].
    intros Hin. apply Hx. apply list_elem_of_In in Hin. apply filter_In in Hin as [Hin _].
    apply list_elem_of_In. exact Hin.
  - unfold removeSpecificDate. apply filter_sorted. exact Hsorted.
Qed.

(** X11. A list of specific dates as the handlers keep it, when it is not
    empty, comes back from the expansion as it is, less the dates on an
    excluded weekday; with no weekday excluded the expansion returns the
    list itself. For the empty list, which the handlers start from and come
    back to, the expansion is that of the range of the months. *)
Theorem specific_dates_from_handlers sm sy em ey excl (l : list string) :
  dates_invariant tz l ->
  (l <> [] ->
   generateDateRange tz sm sy em ey excl (Some (specific_dates_options (Some l)))
   = (let kept := List.filter (specific_date_kept tz excl) l in
      if (length kept =? 0)%nat then Throws no_specific_dates_message else Returns kept)
   /\ generateDateRange tz sm sy em ey [] (Some (specific_dates_options (Some l)))
      = Returns l)
  /\ (l = [] ->
      generateDateRange tz sm sy em ey excl (Some (specific_dates_options (Some l)))
      = month_range_mode tz sm sy em ey excl).
Proof.
  intros (Hvalid & Hnodup & Hsorted).
  split; [|intros ->; reflexivity].
  intros Hne.
  assert (forall excl',
            generateDateRange tz sm sy em ey excl' (Some (specific_dates_options (Some l)))
            = (let kept := List.filter (specific_date_kept tz excl') l in
               if (length kept =? 0)%nat then Throws no_specific_dates_message
               else Returns kept)) as Hgen.
  { intros excl'. unfold generateDateRange. cbn [mbind option_bind specific_dates_options
      DateOptions.dateMode DateOptions.specificDates].
    destruct l as [|d ds] eqn:El; [congruence|]. rewrite <- El in *.
    unfold specific_dates_mode. cbv zeta.
    destruct (length (List.filter (specific_date_kept tz excl') l) =? 0)%nat;
      [reflexivity|].
    f_equal.
    apply (sort_sorted_id (compare_dates tz) (date_key tz) parses (compare_dates_key tz)).
    - apply kept_parse.
    - apply filter_sorted. exact Hsorted. }
  split; [apply Hgen|].
  rewrite Hgen. cbv zeta.
  assert (List.filter (specific_date_kept tz []) l = l) as ->.
  { pose proof (invariant_parses l Hvalid) as Hparse. clear - Hparse.
    induction Hparse as [|d l Hd _ IH]; [reflexivity|].
    cbn [List.filter]. unfold specific_date_kept at 1.
    destruct (parseDate tz d); [|congruence]. cbn. f_equal. exact IH. }
  destruct l; [congruence | reflexivity].
Qed.
End HandlerFacts.

(** Three dates of July 2025, a Saturday among them, the Saturdays
    excluded. *)
Lemma specific_dates_sorted_witness :
  ["01-07-2025"; "10-07-2025"]%string
    ≡ₚ List.filter (BillGenerator.specific_date_kept 0 [6])
         ["10-07-2025"; "05-07-2025"; "01-07-2025"]%string
  /\ StronglySorted
       (fun a b => BillGenerator.date_key 0 a <= BillGenerator.date_key 0 b)
       ["01-07-2025"; "10-07-2025"]%string
  /\ Forall (fun d => BillGenerator.specific_date_kept 0 [6] d = true)
       ["01-07-2025"; "10-07-2025"]%string.
Proof.
  apply (specific_dates_sorted 0 7 2025 7 2025 [6]
           (specific_dates_options (Some ["10-07-2025"; "05-07-2025"; "01-07-2025"]%string))
           ["10-07-2025"; "05-07-2025"; "01-07-2025"]%string).
  - reflexivity.
  - reflexivity.
  - discriminate.
  - vm_compute. reflexivity.
Defined.

Lemma addSpecificDate_keeps_invariant_witness :
  DateSettings.addSpecificDate 0 "" ["01-03-2025"; "10-03-2025"]%string
  = DateSettings.Ignored
  /\ DateSettings.addSpecificDate 0 "10-03-2025" ["01-03-2025"; "10-03-2025"]%string
     = DateSettings.DuplicateDate
  /\ match DateSettings.addSpecificDate 0 "05-03-2025"
             ["01-03-2025"; "10-03-2025"]%string with
     | DateSettings.DatesUpdated l' =>
         DateSettings.dates_invariant 0 l'
         /\ l' ≡ₚ "05-03-2025"%string :: ["01-03-2025"; "10-03-2025"]%string
         /\ DateSettings.removeSpecificDate "05-03-2025" l'
            = ["01-03-2025"; "10-03-2025"]%string
     | DateSettings.DuplicateDate =>
         In "05-03-2025"%string ["01-03-2025"; "10-03-2025"]%string
     | DateSettings.InvalidDateFormat =>
         BillGenerator.validateDateFormat 0 "05-03-2025" = false
     | DateSettings.Ignored => "05-03-2025"%string = ""%string
     end.
Proof.
  assert (DateSettings.dates_invariant 0 ["01-03-2025"; "10-03-2025"]%string) as Hinv.
  { split; [|split].
    - repeat constructor.
    - repeat constructor; intros H;
        repeat (apply elem_of_cons in H as [H|H]; [discriminate|]); inversion H.
    - repeat constructor. vm_compute. discriminate. }
  split; [|split].
  - apply (addSpecificDate_keeps_invariant 0 "" _ Hinv). reflexivity.
  - apply (addSpecificDate_keeps_invariant 0 "10-03-2025" _ Hinv).
    + reflexivity.
    + right. left. reflexivity.
  - apply (addSpecificDate_keeps_invariant 0 "05-03-2025" _ Hinv).
Defined.

Lemma removeSpecificDate_keeps_invariant_witness :
  DateSettings.dates_invariant 0
    (DateSettings.removeSpecificDate "01-03-2025" ["01-03-2025"; "10-03-2025"]%string)
  /\ DateSettings.removeSpecificDate "01-03-2025" ["01-03-2025"; "10-03-2025"]%string
     `sublist_of` ["01-03-2025"; "10-03-2025"]%string
  /\ ["01-03-2025"; "10-03-2025"]%string
     ≡ₚ "01-03-2025"%string
        :: DateSettings.removeSpecificDate "01-03-2025"
             ["01-03-2025"; "10-03-2025"]%string.
Proof.
  assert (DateSettings.dates_invariant 0 ["01-03-2025"; "10-03-2025"]%string) as Hinv.
  { split; [|split].
    - repeat constructor.
    - repeat constructor; intros H;
        repeat (apply elem_of_cons in H as [H|H]; [discriminate|]); inversion H.
    - repeat constructor. vm_compute. discriminate. }
  destruct (removeSpecificDate_keeps_invariant 0 "01-03-2025" _ Hinv)
    as (Hkept & _ & Hsub & _ & Hperm).
  split; [exact Hkept|]. split; [exact Hsub|].
  apply Hperm. left. reflexivity.
Defined.

(** 4 March 2025 is a Tuesday. *)
Lemma specific_dates_from_handlers_witness :
  BillGenerator.generateDateRange 0 5 2025 5 2025 [2]
    (Some (specific_dates_options (Some ["01-03-2025"; "04-03-2025"]%string)))
  = (let kept := List.filter (BillGenerator.specific_date_kept 0 [2])
                   ["01-03-2025"; "04-03-2025"]%string in
     if (length kept =? 0)%nat then Throws BillGenerator.no_specific_dates_message
     else Returns kept)
  /\ BillGenerator.generateDateRange 0 5 2025 5 2025 []
       (Some (specific_dates_options (Some ["01-03-2025"; "04-03-2025"]%string)))
     = Returns ["01-03-2025"; "04-03-2025"]%string.
Proof.
  apply (specific_dates_from_handlers 0 5 2025 5 2025 [2]
           ["01-03-2025"; "04-03-2025"]%string).
  - split; [|split].
    + repeat constructor.
    + repeat constructor; intros H;
        repeat (apply elem_of_cons in H as [H|H]; [discriminate|]); inversion H.
    + repeat constructor. vm_compute. discriminate.
  - discriminate.
Defined.

(** ** The distributor and the bill records: errors, units and dates *)

Section BillTheorems.
Import Calendar JS JSDate BillGenerator.

Lemma distribution_checks fuel rnd total count lo hi :
  ~ valid_distribution total count lo hi ->
  exists msg,
    generateUnitsDistribution fuel rnd total count lo hi = Throws msg /\ msg <> ""%string.
Proof.
  intros Hinvalid. unfold generateUnitsDistribution.
  destruct (Z.leb_spec lo 0); [eexists; split; [reflexivity | discriminate]|].
  destruct (Z.leb_spec hi 0); [eexists; split; [reflexivity | discriminate]|].
  destruct (Z.gtb_spec lo hi); [eexists; split; [reflexivity | discriminate]|].
  destruct (Z.leb_spec total 0); [eexists; split; [reflexivity | discriminate]|].
  destruct (Z.leb_spec count 0); [eexists; split; [reflexivity | discriminate]|].
  destruct (Z.ltb_spec total (count * lo)); [eexists; split; [reflexivity | discriminate]|].
  destruct (Z.gtb_spec total (count * hi)); [eexists; split; [reflexivity | discriminate]|].
  exfalso. apply Hinvalid. unfold valid_distribution. lia.
Qed.

Lemma distribution_checks_independent fuel rnd fuel' rnd' total count lo hi :
  ~ valid_distribution total count lo hi ->
  generateUnitsDistribution fuel rnd total count lo hi
  = generateUnitsDistribution fuel' rnd' total count lo hi.
Proof.
  intros Hinvalid. unfold generateUnitsDistribution.
  destruct (Z.leb_spec lo 0); [reflexivity|].
  destruct (Z.leb_spec hi 0); [reflexivity|].
  destruct (Z.gtb_spec lo hi); [reflexivity|].
  destruct (Z.leb_spec total 0); [reflexivity|].
  destruct (Z.leb_spec count 0); [reflexivity|].
  destruct (Z.ltb_spec total (count * lo)); [reflexivity|].
  destruct (Z.gtb_spec total (count * hi)); [reflexivity|].
  exfalso. apply Hinvalid. unfold valid_distribution. lia.
Qed.

Lemma valid_distribution_dec total count lo hi :
  valid_distribution total count lo hi \/ ~ valid_distribution total count lo hi.
Proof. unfold valid_distribution. lia. Qed.


Lemma distribution_returns_valid fuel rnd total count lo hi us :
  generateUnitsDistribution fuel rnd total count lo hi = Returns us ->
  valid_distribution total count lo hi.
Proof.
  intros Hrun. destruct (valid_distribution_dec total count lo hi) as [|Hinvalid];
    [assumption|].
  destruct (distribution_checks fuel rnd _ _ _ _ Hinvalid) as (msg & H & _). congruence.
Qed.

(** What a call of [createBillData] that returns went through. *)
Lemma createBillData_inv tz fuel rnd config bills :
  createBillData tz fuel rnd config = Returns bills ->
  let numBills := calculateNumBills (invoiceStart config) (invoiceEnd config) in
  exists validDates us dates,
    0 < invoiceStart config /\ 0 < invoiceEnd config
    /\ invoiceStart config <= invoiceEnd config
    /\ generateDateRange tz (startMonth config) (startYear config) (endMonth config)
         (endYear config) (excludeWeekdays config) (Some (date_options config))
       = Returns validDates
    /\ validDates <> []
    /\ (is_true (allowMultipleInvoicesPerDay config) = true
        \/ numBills <= Z.of_nat (length validDates))
    /\ generateUnitsDistribution fuel rnd (totalUnitsToSell config) numBills
         (minUnitsPerBill config) (maxUnitsPerBill config) = Returns us
    /\ (if is_true (allowMultipleInvoicesPerDay config)
        then distributeInvoicesAcrossDates numBills validDates = Returns dates
        else dates = validDates)
    /\ bills = bill_loop (Z.to_nat numBills) 0 config dates us [].
Proof.
  intros Hrun numBills. unfold createBillData in Hrun. fold numBills in Hrun.
  apply bind_Returns in Hrun as (u1 & Hc1 & Hrun). apply check_Returns in Hc1.
  apply bind_Returns in Hrun as (u2 & Hc2 & Hrun). apply check_Returns in Hc2.
  apply bind_Returns in Hrun as (validDates & Hdates & Hrun).
  apply bind_Returns in Hrun as (u3 & Hc3 & Hrun). apply check_Returns in Hc3.
  apply bind_Returns in Hrun as (u4 & Hc4 & Hrun). apply check_Returns in Hc4.
  apply bind_Returns in Hrun as (us & Hus & Hrun).
  apply orb_false_iff in Hc1 as [H1 H2]. apply Z.leb_gt in H1, H2.
  assert (invoiceStart config <= invoiceEnd config) as Hrange
    by (destruct (Z.gtb_spec (invoiceStart config) (invoiceEnd config)); [discriminate | lia]).
  assert (validDates <> []) as Hne by (intros ->; discriminate).
  assert (is_true (allowMultipleInvoicesPerDay config) = true
          \/ numBills <= Z.of_nat (length validDates)) as Henough.
  { destruct (is_true (allowMultipleInvoicesPerDay config)); [left; reflexivity | right].
    cbn [negb andb] in Hc4. apply Z.ltb_ge in Hc4. exact Hc4. }
  destruct (is_true (allowMultipleInvoicesPerDay config)) eqn:Emulti.
  - apply bind_Returns in Hrun as (dates & Hdist & Hrun). injection Hrun as <-.
    exists validDates, us, dates. repeat split; auto.
  - injection Hrun as <-. exists validDates, us, validDates. repeat split; auto.
Qed.

Lemma map_get_seq (l : list Z) : map (get l) (seq 0 (length l)) = l.
Proof.
  apply list_eq. intros i. rewrite list_lookup_fmap.
  destruct (l !! i) as [x|] eqn:E.
  - rewrite lookup_seq_lt by (apply lookup_lt_Some in E; exact E).
    cbn. unfold get. rewrite E. reflexivity.
  - rewrite lookup_seq_ge by (apply lookup_ge_None in E; lia). reflexivity.
Qed.


End BillTheorems.



(** ** One bill a day, and the cap on the bills of a day *)

Section PerDayFacts.
Import JS BillGenerator.

(** The dates [distributeInvoicesAcrossDates] returns, for every number of
    bills: the second loop adds nothing. *)
Lemma distributeInvoicesAcrossDates_unfold (n : Z) (ds : list string) :
  ds <> [] ->
  distributeInvoicesAcrossDates n ds
  = Returns (map (fun k => get_str ds
                    (Z.to_nat (Z.rem (Z.of_nat k / ceil_div n (Z.of_nat (length ds)))
                                     (Z.of_nat (length ds)))))
                 (seq 0 (Z.to_nat n))).
Proof.
  intros Hds. unfold distributeInvoicesAcrossDates.
  destruct (Nat.eqb_spec (length ds) 0) as [E|_];
    [destruct ds; [congruence | discriminate]|].
  cbn [check mbind outcome_bind].
  pose proof (spread_loop_spec (ceil_div n (Z.of_nat (length ds))) ds (Z.to_nat n) 0 [])
    as Hspread.
  cbn [app] in Hspread. change (Z.of_nat 0) with 0 in Hspread. rewrite Hspread.
  rewrite length_map, length_seq.
  replace (Z.to_nat (n - Z.of_nat (Z.to_nat n))) with 0%nat by lia.
  reflexivity.
Qed.

Lemma filter_map_length {A B} (p : B -> bool) (f : A -> B) (l : list A) :
  length (List.filter p (map f l)) = length (List.filter (fun x => p (f x)) l).
Proof.
  induction l as [|x l IH]; [reflexivity|]. cbn [map List.filter].
  destruct (p (f x)); cbn [length]; rewrite IH; reflexivity.
Qed.

(** A filter of [0 .. n-1] whose members lie in a window of [p] numbers keeps
    at most [p] of them. *)
Lemma filter_window (P : nat -> bool) (n a p : nat) :
  (forall k, (k < n)%nat -> P k = true -> (a <= k < a + p)%nat) ->
  (length (List.filter P (seq 0 n)) <= p)%nat.
Proof.
  intros Hwin. apply Nat.le_trans with (length (seq a p));
    [|rewrite length_seq; lia].
  apply List.NoDup_incl_length.
  - apply List.NoDup_filter, List.seq_NoDup.
  - intros k Hk. apply filter_In in Hk as [Hk HP]. apply in_seq in Hk.
    apply in_seq. apply Hwin; [lia | exact HP].
Qed.

(** X15. Among dates that are all different, [distributeInvoicesAcrossDates]
    gives no date more than [ceil (n / len)] bills; and when there are at
    least as many dates as bills, bill [i] is given date [i]: the result is
    the first [n] dates. *)
Theorem distributeInvoicesAcrossDates_cap (n : Z) (ds : list string) :
  1 <= n -> ds <> [] -> NoDup ds ->
  exists out,
    distributeInvoicesAcrossDates n ds = Returns out
    /\ (forall d,
          Z.of_nat (length (List.filter (String.eqb d) out))
          <= ceil_div n (Z.of_nat (length ds)))
    /\ (n <= Z.of_nat (length ds) -> out = take (Z.to_nat n) ds).
Proof.
  intros Hn Hds Hnodup.
  set (len := Z.of_nat (length ds)).
  assert (0 < len) as Hlen by (subst len; destruct ds; [congruence | cbn; lia]).
  set (p := ceil_div n len).
  pose proof (ceil_div_bounds n len Hlen) as Hc. fold p in Hc.
  assert (0 < p) as Hp by nia.
  eexists. split; [apply distributeInvoicesAcrossDates_unfold; exact Hds|].
  fold len. fold p.
  assert (forall k, (k < Z.to_nat n)%nat ->
            Z.rem (Z.of_nat k / p) len = Z.of_nat k / p
            /\ 0 <= Z.of_nat k / p < len) as Hidx.
  { intros k Hk.
    pose proof (date_index_bounds n len (Z.of_nat k) Hlen ltac:(lia)) as Hq.
    fold p in Hq. split; [apply Z.rem_small; exact Hq | exact Hq]. }
  split.
  - intros d. rewrite filter_map_length.
    set (P := fun k => String.eqb d
                (get_str ds (Z.to_nat (Z.rem (Z.of_nat k / p) len)))).
    destruct (List.filter P (seq 0 (Z.to_nat n))) as [|k0 rest] eqn:Efilter;
      [cbn; lia|].
    rewrite <- Efilter.
    assert (In k0 (List.filter P (seq 0 (Z.to_nat n)))) as Hk0
      by (rewrite Efilter; left; reflexivity).
    apply filter_In in Hk0 as [Hk0 HP0]. apply in_seq in Hk0.
    destruct (Hidx k0 ltac:(lia)) as [Hrem0 Hq0].
    unfold P in HP0. rewrite Hrem0 in HP0. apply String.eqb_eq in HP0.
    destruct (lookup_lt_is_Some_2 ds (Z.to_nat (Z.of_nat k0 / p))) as [d0 Hd0];
      [subst len; lia|].
    unfold get_str in HP0. rewrite Hd0 in HP0. cbn in HP0. subst d0.
    enough (length (List.filter P (seq 0 (Z.to_nat n))) <= Z.to_nat p)%nat by lia.
    apply (filter_window P (Z.to_nat n) (Z.to_nat (p * (Z.of_nat k0 / p)))).
    intros k Hk HP.
    destruct (Hidx k Hk) as [Hrem Hq].
    unfold P in HP. rewrite Hrem in HP. apply String.eqb_eq in HP.
    destruct (lookup_lt_is_Some_2 ds (Z.to_nat (Z.of_nat k / p))) as [d1 Hd1];
      [subst len; lia|].
    unfold get_str in HP. rewrite Hd1 in HP. cbn in HP. subst d1.
    pose proof (NoDup_lookup ds _ _ d Hnodup Hd0 Hd1) as Heq.
    assert (Z.of_nat k / p = Z.of_nat k0 / p) as Hsame by lia.
    pose proof (Z.div_mod (Z.of_nat k) p ltac:(lia)) as Hdm.
    pose proof (Z.mod_pos_bound (Z.of_nat k) p Hp) as Hb.
    rewrite Hsame in Hdm. nia.
  - intros Hfew. assert (p = 1) as Hone by nia.
    apply list_eq. intros i. rewrite list_lookup_fmap.
    destruct (Nat.lt_ge_cases i (Z.to_nat n)) as [Hi|Hi].
    + rewrite lookup_seq_lt by exact Hi. cbn.
      rewrite lookup_take_lt by exact Hi.
      destruct (Hidx i Hi) as [Hrem Hq]. rewrite Hrem, Hone, Z.div_1_r, Nat2Z.id.
      destruct (lookup_lt_is_Some_2 ds i) as [d Hd]; [subst len; lia|].
      unfold get_str. rewrite Hd. reflexivity.
    + rewrite lookup_seq_ge by exact Hi. cbn.
      rewrite lookup_take_ge by exact Hi. reflexivity.
Qed.

(** X16. With one bill a day ([allowMultipleInvoicesPerDay] off), the bills
    a call returns carry the first dates of the date range, in its order,
    one date each; and switching the option on does not change the result of
    such a call. *)
Theorem createBillData_one_per_day tz fuel rnd (config : BillConfig) bills :
  is_true (allowMultipleInvoicesPerDay config) = false ->
  createBillData tz fuel rnd config = Returns bills ->
  (exists validDates,
     generateDateRange tz (startMonth config) (startYear config) (endMonth config)
       (endYear config) (excludeWeekdays config) (Some (date_options config))
     = Returns validDates
     /\ (length bills <= length validDates)%nat
     /\ map date bills = take (length bills) validDates)
  /\ createBillData tz fuel rnd (set_allowMultiple true config) = Returns bills.
Proof.
  intros Hoff Hrun.
  destruct (createBillData_inv tz fuel rnd config bills Hrun)
    as (validDates & us & dates & H1 & H2 & Hrange & Hdates & Hne & Henough & Hus
        & Hd & ->).
  rewrite Hoff in Hd, Henough. subst dates.
  destruct Henough as [|Henough]; [discriminate|].
  set (n := calculateNumBills (invoiceStart config) (invoiceEnd config)) in *.
  assert (1 <= n) as Hn by (subst n; unfold calculateNumBills; lia).
  pose proof (bill_loop_numbers config validDates us (Z.to_nat n)) as [Hlen _].
  cbv zeta in Hlen.
  split.
  - exists validDates. split; [exact Hdates|]. rewrite Hlen. split; [lia|].
    rewrite bill_loop_spec. cbn [app]. rewrite map_map.
    apply list_eq. intros i. rewrite list_lookup_fmap.
    destruct (Nat.lt_ge_cases i (Z.to_nat n)) as [Hi|Hi].
    + rewrite lookup_seq_lt by exact Hi. cbn.
      rewrite lookup_take_lt by exact Hi.
      destruct (lookup_lt_is_Some_2 validDates i) as [d Hd]; [lia|].
      unfold get_str. rewrite Hd. reflexivity.
    + rewrite lookup_seq_ge by exact Hi. cbn.
      rewrite lookup_take_ge by exact Hi. reflexivity.
  - unfold createBillData.
    change (date_options (set_allowMultiple true config)) with (date_options config).
    change (is_true (allowMultipleInvoicesPerDay (set_allowMultiple true config)))
      with true.
    cbn [set_allowMultiple invoiceStart invoiceEnd startMonth startYear endMonth endYear
         excludeWeekdays totalUnitsToSell minUnitsPerBill maxUnitsPerBill negb andb].
    fold n.
    destruct (Z.leb_spec (invoiceStart config) 0); [lia|].
    destruct (Z.leb_spec (invoiceEnd config) 0); [lia|].
    destruct (Z.gtb_spec (invoiceStart config) (invoiceEnd config)); [lia|].
    cbn [orb check mbind outcome_bind]. rewrite Hdates.
    cbn [check mbind outcome_bind].
    destruct (Nat.eqb_spec (length validDates) 0) as [E|_];
      [destruct validDates; [congruence | discriminate]|].
    cbn [check mbind outcome_bind]. rewrite Hus. cbn [mbind outcome_bind].
    rewrite (distributeInvoicesAcrossDates_unfold n validDates Hne).
    cbn [mbind outcome_bind]. f_equal.
    rewrite !bill_loop_spec. cbn [app].
    apply map_ext_in. intros i Hi. apply in_seq in Hi.
    assert (ceil_div n (Z.of_nat (length validDates)) = 1) as Hone.
    { pose proof (ceil_div_bounds n (Z.of_nat (length validDates)) ltac:(lia)). nia. }
    unfold bill_record.
    cbn [set_allowMultiple invoiceStart unitPrice].
    replace (get_str _ i) with (get_str validDates i); [reflexivity|].
    unfold get_str at 2. rewrite list_lookup_fmap, lookup_seq_lt by lia. cbn.
    rewrite Hone, Z.div_1_r, Z.rem_small by lia. rewrite Nat2Z.id. reflexivity.
Qed.
End PerDayFacts.

Lemma distributeInvoicesAcrossDates_cap_witness :
  let ds := ["01-05-2025"; "02-05-2025"; "03-05-2025"]%string in
  exists out,
    BillGenerator.distributeInvoicesAcrossDates 7 ds = Returns out
    /\ (forall d,
          Z.of_nat (length (List.filter (String.eqb d) out))
          <= BillGenerator.ceil_div 7 (Z.of_nat (length ds)))
    /\ (7 <= Z.of_nat (length ds) -> out = take (Z.to_nat 7) ds).
Proof.
  apply (distributeInvoicesAcrossDates_cap 7
           ["01-05-2025"; "02-05-2025"; "03-05-2025"]%string).
  - lia.
  - discriminate.
  - repeat constructor; intros H;
      repeat (apply elem_of_cons in H as [H|H]; [discriminate|]); inversion H.
Defined.

Lemma createBillData_one_per_day_witness :
  let config := sample_config 1 3 15 2 8 [] None None false in
  exists bills,
    BillGenerator.createBillData 0 50 half_source config = Returns bills
    /\ map date bills = ["01-05-2025"; "02-05-2025"; "03-05-2025"]%string
    /\ BillGenerator.createBillData 0 50 half_source
         (BillGenerator.set_allowMultiple true config) = Returns bills.
Proof.
  cbv zeta. eexists. split; [vm_compute; reflexivity|].
  destruct (createBillData_one_per_day 0 50 half_source
              (sample_config 1 3 15 2 8 [] None None false) _
              eq_refl ltac:(vm_compute; reflexivity))
    as [(validDates & Hdates & _ & Htake) Hon].
  split; [|exact Hon].
  vm_compute in Hdates. injection Hdates as <-. exact Htake.
Defined.

(** ** Amounts in words: thousands, and amounts outside of the tables *)

Section WordsTheorems.
Import JS BillGenerator.

Lemma forall_from_spec (p : Z -> bool) : forall n z,
  forall_from n z p = true -> forall k, z <= k < z + Z.of_nat n -> p k = true.
Proof.
  induction n as [|n IH]; intros z Hall k Hk; [lia|].
  cbn [forall_from] in Hall. apply andb_true_iff in Hall as [Hz Hrest].
  destruct (Z.eq_dec k z) as [->|Hne]; [exact Hz|].
  apply (IH (z + 1) Hrest). lia.
Qed.

Lemma append_assoc (a b c : string) : (a +:+ b +:+ c = (a +:+ b) +:+ c)%string.
Proof.
  induction a as [|x a IH]; [reflexivity|].
  change (String x a +:+ ?y)%string with (String x (a +:+ y)).
  rewrite IH. reflexivity.
Qed.

Lemma trimEnd_snoc_space s : trimEnd (s +:+ " ") = trimEnd s.
Proof.
  induction s as [|c s IH]; [reflexivity|].
  change (String c s +:+ " ")%string with (String c (s +:+ " ")).
  cbn [trimEnd]. rewrite IH. reflexivity.
Qed.

Lemma trimEnd_app a b :
  trimEnd b <> ""%string -> trimEnd (a +:+ b) = (a +:+ trimEnd b)%string.
Proof.
  intros Hb. induction a as [|c a IH]; [reflexivity|].
  change (String c a +:+ b)%string with (String c (a +:+ b)).
  cbn [trimEnd]. rewrite IH.
  change (String c a +:+ trimEnd b)%string with (String c (a +:+ trimEnd b)).
  destruct (a +:+ trimEnd b)%string eqn:E; [|reflexivity].
  destruct a; [change (trimEnd b = EmptyString) in E; congruence | discriminate].
Qed.

Lemma trimEnd_idem s : trimEnd (trimEnd s) = trimEnd s.
Proof.
  induction s as [|c s IH]; [reflexivity|]. cbn [trimEnd].
  destruct (trimEnd s) as [|d t] eqn:E.
  - destruct (is_space c) eqn:Ec; [reflexivity|]. cbn [trimEnd]. rewrite Ec. reflexivity.
  - cbn [trimEnd] in *. rewrite IH. reflexivity.
Qed.

Lemma trimStart_head s :
  trimStart s = ""%string
  \/ exists c r, trimStart s = String c r /\ is_space c = false.
Proof.
  induction s as [|c s IH]; [left; reflexivity|]. cbn [trimStart].
  destruct (is_space c) eqn:Ec; [exact IH | right; eauto].
Qed.

(** A trimmed string that is not empty starts and ends with a character
    that is no white space. *)
Lemma trim_clean s :
  trim s <> ""%string ->
  (exists c r, trim s = String c r /\ is_space c = false)
  /\ trimEnd (trim s) = trim s.
Proof.
  intros Hne. split; [|apply trimEnd_idem].
  unfold trim in *. destruct (trimStart_head s) as [E|(c & r & E & Hc)].
  - rewrite E in Hne. cbn in Hne. congruence.
  - rewrite E in *. cbn [trimEnd] in *.
    destruct (trimEnd r); [rewrite Hc in *|]; eauto.
Qed.

Lemma trim_between a b :
  (exists c r, a = String c r /\ is_space c = false) ->
  trimEnd b = b -> b <> ""%string ->
  trim (a +:+ b) = (a +:+ b)%string.
Proof.
  intros (c & r & -> & Hc) Hb Hne. unfold trim.
  change (String c r +:+ b)%string with (String c (r +:+ b)).
  cbn [trimStart]. rewrite Hc.
  change (String c (r +:+ b)) with (String c r +:+ b)%string.
  rewrite trimEnd_app by congruence. rewrite Hb. reflexivity.
Qed.

Lemma convertHundreds_trim n : exists s, convertHundreds n = trim s.
Proof.
  unfold convertHundreds. destruct (n >=? 100); eexists; reflexivity.
Qed.

Lemma convertHundreds_nonempty k :
  1 <= k <= 999 -> convertHundreds k <> ""%string.
Proof.
  intros Hk.
  assert (forall_from 999 1 (fun k => truthy (convertHundreds k)) = true) as Hall
    by (vm_compute; reflexivity).
  pose proof (forall_from_spec _ _ _ Hall k ltac:(lia)) as Ht. cbv beta in Ht.
  intros E. rewrite E in Ht. discriminate.
Qed.

Lemma convertHundreds_clean k :
  1 <= k <= 999 ->
  (exists c r, convertHundreds k = String c r /\ is_space c = false)
  /\ trimEnd (convertHundreds k) = convertHundreds k
  /\ convertHundreds k <> ""%string.
Proof.
  intros Hk. pose proof (convertHundreds_nonempty k Hk) as Hne.
  destruct (convertHundreds_trim k) as [s E]. rewrite E in *.
  destruct (trim_clean s Hne). auto.
Qed.

Lemma words_loop_step fuel num c result :
  0 < num ->
  words_loop (S fuel) num c result
  = words_loop fuel (num / 1000) (S c)
      (if negb (Z.rem num 1000 =? 0) then
         convertHundreds (Z.rem num 1000)
         +:+ (match thousands !! c with
              | Some name => if truthy name then " " +:+ name else ""
              | None => ""
              end)
         +:+ " " +:+ result
       else result).
Proof.
  intros Hnum. cbn [words_loop]. destruct (Z.gtb_spec num 0); [reflexivity | lia].
Qed.

Lemma words_loop_done fuel num c result :
  num <= 0 -> words_loop fuel num c result = Some result.
Proof.
  intros Hnum. destruct fuel; cbn [words_loop];
    (destruct (Z.gtb_spec num 0); [lia | reflexivity]).
Qed.

Lemma words_loop_more : forall fuel fuel' num c result words,
  words_loop fuel num c result = Some words -> (fuel <= fuel')%nat ->
  words_loop fuel' num c result = Some words.
Proof.
  induction fuel as [|fuel IH]; intros fuel' num c result words Hrun Hle.
  - cbn [words_loop] in Hrun. destruct (Z.gtb_spec num 0); [discriminate|].
    rewrite words_loop_done by lia. exact Hrun.
  - destruct (Z.le_gt_cases num 0) as [Hnum|Hnum].
    + rewrite words_loop_done in * by exact Hnum. exact Hrun.
    + destruct fuel' as [|fuel']; [lia|].
      rewrite words_loop_step in * by lia.
      apply (IH fuel'); [exact Hrun | lia].
Qed.

Lemma numberToWords_loop num fuel words :
  1000 <= num -> words_loop fuel num 0 "" = Some words ->
  numberToWords num = Returns (trim words).
Proof.
  intros Hnum Hrun. unfold numberToWords.
  destruct (Z.eqb_spec num 0); [lia|]. destruct (Z.ltb_spec num 1000); [lia|].
  destruct (words_loop_total (words_loop_fuel num) num 0 "") as [w Hw].
  { right. unfold words_loop_fuel. pose proof (Z.log2_nonneg num). lia. }
  rewrite Hw. f_equal. f_equal.
  destruct (Nat.le_ge_cases fuel (words_loop_fuel num)) as [Hle|Hle].
  - rewrite (words_loop_more _ _ _ _ _ _ Hrun Hle) in Hw. congruence.
  - rewrite (words_loop_more _ _ _ _ _ _ Hw Hle) in Hrun. congruence.
Qed.

(** X17. An amount of 1000 to 999999 is written as the words of its
    thousands, " thousand", and, when the rest is not 0, a space and the
    words of the rest. *)
Theorem numberToWords_thousands (n : Z) :
  1000 <= n < 1000000 ->
  numberToWords n
  = Returns (convertHundreds (n / 1000) +:+ " thousand"
             +:+ (if n mod 1000 =? 0 then "" else " " +:+ convertHundreds (n mod 1000))).
Proof.
  intros Hn.
  assert (1 <= n / 1000 <= 999) as Hq by (Z.div_mod_to_equations; lia).
  assert (0 <= n mod 1000 <= 999) as Hr by (Z.div_mod_to_equations; lia).
  destruct (convertHundreds_clean (n / 1000) Hq) as (Hhead & _ & _).
  assert (words_loop 2 n 0 ""
          = Some (convertHundreds (n / 1000) +:+ " thousand" +:+ " "
                  +:+ (if n mod 1000 =? 0 then ""%string
                       else convertHundreds (n mod 1000) +:+ " "))) as Hloop.
  { rewrite words_loop_step by lia. rewrite words_loop_step by lia.
    rewrite words_loop_done by (Z.div_mod_to_equations; lia).
    rewrite !Z.rem_mod_nonneg by lia.
    rewrite (Z.mod_small (n / 1000) 1000) by lia.
    destruct (Z.eqb_spec (n / 1000) 0) as [|_]; [lia|].
    destruct (n mod 1000 =? 0); reflexivity. }
  rewrite (numberToWords_loop n 2 _ ltac:(lia) Hloop). f_equal.
  destruct Hhead as (c & r & -> & Hc). unfold trim.
  change (String c r +:+ ?x)%string with (String c (r +:+ x)) at 1.
  cbn [trimStart]. rewrite Hc.
  destruct (Z.eqb_spec (n mod 1000) 0) as [E|E].
  - change (String c (r +:+ " thousand" +:+ " " +:+ ""))
      with (String c r +:+ " thousand" +:+ " ")%string.
    change (" thousand" +:+ "")%string with " thousand"%string.
    rewrite (append_assoc (String c r) " thousand" " ").
    rewrite trimEnd_snoc_space, trimEnd_app by discriminate.
    reflexivity.
  - destruct (convertHundreds_clean (n mod 1000) ltac:(lia)) as (_ & Hend & Hne).
    change (String c (r +:+ ?x)) with (String c r +:+ x)%string.
    rewrite !append_assoc, trimEnd_snoc_space.
    rewrite trimEnd_app by (rewrite Hend; exact Hne).
    rewrite Hend. reflexivity.
Qed.
Lemma words_loop_skip fuel m c result :
  0 < m ->
  words_loop (S fuel) (m * 1000) c result = words_loop fuel m (S c) result.
Proof.
  intros Hm. rewrite words_loop_step by lia.
  rewrite Z.div_mul by lia. rewrite Z.rem_mul by lia. reflexivity.
Qed.

(** X18. Outside of its tables [numberToWords] prints less than the amount:
    a negative amount has no words at all, and as the scale words end at
    "billion", an amount of 1 to 999 trillions is written as the amount of
    1 to 999. *)
Theorem numberToWords_outside_tables :
  (forall n, n < 0 ->
     numberToWords n = Returns ""%string
     /\ generateAmountInWords n = Returns "( Rs.  only )"%string)
  /\ (forall k, 1 <= k <= 999 ->
        numberToWords (k * 1000000000000) = numberToWords k).
Proof.
  split.
  - intros n Hn.
    assert (numberToWords n = Returns ""%string) as Hwords.
    { unfold numberToWords.
      destruct (Z.eqb_spec n 0); [lia|]. destruct (Z.ltb_spec n 1000); [|lia].
      unfold convertHundreds.
      destruct (Z.geb_spec n 100); [lia|]. destruct (Z.geb_spec n 20); [lia|].
      destruct (Z.geb_spec n 10); [lia|]. destruct (Z.gtb_spec n 0); [lia|].
      reflexivity. }
    split; [exact Hwords|]. unfold generateAmountInWords. rewrite Hwords. reflexivity.
  - intros k Hk.
    destruct (convertHundreds_clean k Hk) as ((c & r & Ehead & Hc) & Hend & Hne).
    assert (words_loop 5 (k * 1000000000000) 0 "" = Some (convertHundreds k +:+ " "))
      as Hloop.
    { replace (k * 1000000000000) with (k * 1000 * 1000 * 1000 * 1000) by ring.
      rewrite !words_loop_skip by lia.
      rewrite words_loop_step by lia.
      rewrite words_loop_done by (Z.div_mod_to_equations; lia).
      rewrite Z.rem_small by lia.
      destruct (Z.eqb_spec k 0); [lia|]. reflexivity. }
    rewrite (numberToWords_loop (k * 1000000000000) 5 _ ltac:(lia) Hloop).
    unfold numberToWords.
    destruct (Z.eqb_spec k 0); [lia|]. destruct (Z.ltb_spec k 1000); [|lia].
    f_equal. unfold trim. rewrite Ehead at 1.
    change (String c r +:+ " ")%string with (String c (r +:+ " ")).
    cbn [trimStart]. rewrite Hc.
    change (String c (r +:+ " ")) with (String c r +:+ " ")%string.
    rewrite <- Ehead, trimEnd_snoc_space. exact Hend.
Qed.
End WordsTheorems.

Lemma numberToWords_thousands_witness :
  BillGenerator.numberToWords 12345
  = Returns "twelve thousand three hundred forty-five"%string.
Proof. exact (numberToWords_thousands 12345 ltac:(lia)). Defined.

Lemma numberToWords_outside_tables_witness :
  BillGenerator.generateAmountInWords (-5) = Returns "( Rs.  only )"%string
  /\ BillGenerator.numberToWords 7000000000000 = Returns "seven"%string.
Proof.
  destruct numberToWords_outside_tables as [Hneg Hbig]. split.
  - apply (Hneg (-5)). lia.
  - exact (Hbig 7 ltac:(lia)).
Defined.

(** ** The validation of a configuration and the generator *)

Section ValidationFacts.
Import JS Calendar JSDate BillGenerator.
Variable tz : Z.

Ltac split_validation H :=
  repeat match type of H with
         | context [match ?x with _ => _ end] => destruct x eqn:?
         end.

(** What [validateConfigurationLimits] accepts. *)
Lemma validateConfigurationLimits_spec (config : BillConfig) :
  let numBills := calculateNumBills (invoiceStart config) (invoiceEnd config) in
  isValid (validateConfigurationLimits tz config) = true
  <-> (numBills * minUnitsPerBill config <= totalUnitsToSell config
       <= numBills * maxUnitsPerBill config)
      /\ (forall dates,
            dateMode config = Some SpecificDates -> specificDates config = Some dates ->
            is_true (allowMultipleInvoicesPerDay config) = true
            \/ numBills <= Z.of_nat (length (List.filter (validateDateFormat tz) dates)))
      /\ (dateMode config = Some ExactRange ->
          exists a b s e,
            exactStartDate config = Some a /\ exactEndDate config = Some b
            /\ parseDate tz a = Some s /\ parseDate tz b = Some e /\ s <= e).
Proof.
  cbv zeta. unfold validateConfigurationLimits. cbv zeta. cbn [isValid].
  set (n := calculateNumBills (invoiceStart config) (invoiceEnd config)).
  split.
  - intros H.
    destruct (Z.ltb_spec (totalUnitsToSell config) (n * minUnitsPerBill config)) as [Hlow|Hlow];
      [split_validation H; destruct (is_true _); cbn in H; discriminate|].
    destruct (Z.gtb_spec (totalUnitsToSell config) (n * maxUnitsPerBill config)) as [Hhigh|Hhigh];
      [split_validation H; destruct (is_true _); cbn in H; discriminate|].
    split; [lia|]. split.
    + intros dates Hmode Hdates. rewrite Hmode, Hdates in H.
      destruct (is_true (allowMultipleInvoicesPerDay config)); [left; reflexivity | right].
      destruct (Z.ltb_spec (Z.of_nat (length (List.filter (validateDateFormat tz) dates))) n);
        [cbn in H; discriminate | lia].
    + intros Hmode. rewrite Hmode in H.
      destruct (specificDates config); cbn [app] in H;
        (destruct (exactStartDate config) as [a|]; [|cbn in H; discriminate];
         destruct (exactEndDate config) as [b|]; [|cbn in H; discriminate];
         destruct (negb (truthy a) || negb (truthy b)); [cbn in H; discriminate|];
         destruct (parseDate tz a) as [s|] eqn:Ea; [|cbn in H; discriminate];
         destruct (parseDate tz b) as [e|] eqn:Eb; [|cbn in H; discriminate];
         destruct (Z.gtb_spec s e); [cbn in H; discriminate|];
         exists a, b, s, e; repeat split; first [reflexivity | assumption | lia]).
  - intros (Hunits & Hspecific & Hexact).
    destruct (Z.ltb_spec (totalUnitsToSell config) (n * minUnitsPerBill config)); [lia|].
    destruct (Z.gtb_spec (totalUnitsToSell config) (n * maxUnitsPerBill config)); [lia|].
    destruct (dateMode config) as [[| |]|] eqn:Hmode.
    + destruct (specificDates config); reflexivity.
    + destruct (Hexact eq_refl) as (a & b & s & e & -> & -> & Ha & Hb & Hle).
      rewrite (parseDate_truthy tz a s Ha), (parseDate_truthy tz b e Hb), Ha, Hb.
      cbn [negb orb].
      destruct (Z.gtb_spec s e); [lia|]. destruct (specificDates config); reflexivity.
    + destruct (specificDates config) as [dates|] eqn:Hdates; [|reflexivity].
      destruct (Hspecific dates eq_refl eq_refl) as [->|Hfew]; [reflexivity|].
      destruct (Z.ltb_spec (Z.of_nat (length (List.filter (validateDateFormat tz) dates))) n);
        [lia|].
      rewrite andb_false_r. reflexivity.
    + destruct (specificDates config); reflexivity.
Qed.
Lemma filter_all {A} (f : A -> bool) (l : list A) :
  Forall (fun x => f x = true) l -> List.filter f l = l.
Proof.
  induction 1 as [|x l Hx _ IH]; [reflexivity|].
  cbn [List.filter]. rewrite Hx, IH. reflexivity.
Qed.

(** X19. The validation is not stricter than the generator: a configuration
    for which [createBillData] returns bills has no validation error, when
    the specific dates of its mode are a list, not empty, of dates that
    [validateDateFormat] accepts, and the two dates of the exact-range mode
    are given. (Without them the generator falls back to the range of the
    months, or keeps dates the validation does not count.) *)
Theorem returned_configuration_is_valid fuel rnd (config : BillConfig) bills :
  createBillData tz fuel rnd config = Returns bills ->
  (forall dates,
     dateMode config = Some SpecificDates -> specificDates config = Some dates ->
     dates <> [] /\ Forall (fun d => validateDateFormat tz d = true) dates) ->
  (dateMode config = Some ExactRange ->
   exists a b, exactStartDate config = Some a /\ exactEndDate config = Some b
               /\ a <> ""%string /\ b <> ""%string) ->
  isValid (validateConfigurationLimits tz config) = true
  /\ errors (validateConfigurationLimits tz config) = [].
Proof.
  intros Hrun Hspecific Hexact.
  assert (isValid (validateConfigurationLimits tz config) = true) as Hvalid.
  2: { split; [exact Hvalid|]. unfold validateConfigurationLimits in *. cbv zeta in *.
       cbn [isValid errors] in *. apply Nat.eqb_eq in Hvalid.
       destruct (_ : list string) in Hvalid |- *; [reflexivity | discriminate]. }
  destruct (createBillData_inv tz fuel rnd config bills Hrun)
    as (validDates & us & dates' & H1 & H2 & Hrange & Hdates & Hne & Henough & Hus & _ & _).
  pose proof (distribution_returns_valid _ _ _ _ _ _ _ Hus)
    as (Hlo & Hhi & Hlohi & Htotal & Hcount & Hmin & Hmax).
  apply validateConfigurationLimits_spec. split; [lia|]. split.
  - intros dates Hmode Hlist. destruct (Hspecific dates Hmode Hlist) as [Hnonempty Hformat].
    destruct Henough as [Hmulti|Hfew]; [left; exact Hmulti | right].
    rewrite (filter_all _ _ Hformat).
    unfold generateDateRange in Hdates.
    cbn [mbind option_bind date_options DateOptions.dateMode DateOptions.specificDates]
      in Hdates.
    rewrite Hmode, Hlist in Hdates. cbn [default] in Hdates.
    destruct dates as [|d ds]; [congruence|].
    change (from_option id MonthRange (Some SpecificDates)) with SpecificDates in Hdates.
    unfold specific_dates_mode in Hdates.
    destruct (length _ =? 0)%nat in Hdates; [discriminate|].
    injection Hdates as <-. rewrite sort_length in Hfew.
    pose proof (List.filter_length_le (specific_date_kept tz (excludeWeekdays config))
                  (d :: ds)).
    cbn [List.filter] in *. lia.
  - intros Hmode. destruct (Hexact Hmode) as (a & b & Ha & Hb & Hna & Hnb).
    assert (truthy a = true) as Hta by (destruct a; [congruence | reflexivity]).
    assert (truthy b = true) as Htb by (destruct b; [congruence | reflexivity]).
    rewrite (generateDateRange_exact tz _ _ _ _ _ (date_options config) a b) in Hdates;
      [|cbn [date_options DateOptions.dateMode]; rewrite Hmode; reflexivity
       |exact Ha|exact Hb|exact Hta|exact Htb].
    unfold exact_range_mode in Hdates.
    destruct (parseDate tz a) as [s|] eqn:Es; [|discriminate].
    destruct (parseDate tz b) as [e|] eqn:Ee; [|discriminate].
    destruct (Z.gtb_spec s e); [discriminate|].
    exists a, b, s, e. repeat split; first [reflexivity | assumption | lia].
Qed.

End ValidationFacts.

Lemma returned_configuration_is_valid_witness :
  let config :=
    sample_config 1 2 8 2 8 [] (Some SpecificDates)
      (Some ["06-05-2025"; "05-05-2025"]%string) false in
  exists bills,
    BillGenerator.createBillData 0 50 half_source config = Returns bills
    /\ BillGenerator.isValid (BillGenerator.validateConfigurationLimits 0 config) = true
    /\ BillGenerator.errors (BillGenerator.validateConfigurationLimits 0 config) = [].
Proof.
  cbv zeta. eexists. split; [vm_compute; reflexivity|].
  eapply (returned_configuration_is_valid 0 50 half_source
            (sample_config 1 2 8 2 8 [] (Some SpecificDates)
               (Some ["06-05-2025"; "05-05-2025"]%string) false)).
  - vm_compute. reflexivity.
  - intros dates _ Hdates. injection Hdates as <-.
    split; [discriminate | repeat constructor].
  - intros Hmode. discriminate Hmode.
Defined.


(** ** The date fields of the form *)

Section InputDateFacts.
Import JS Calendar JSDate BillGenerator DateSettings.
Variable tz : Z.

Lemma length_append (a b : string) :
  String.length (a +:+ b) = (String.length a + String.length b)%nat.
Proof.
  induction a as [|c a IH]; [reflexivity|].
  change (String c a +:+ b)%string with (String c (a +:+ b)).
  cbn [String.length]. rewrite IH. reflexivity.
Qed.

Lemma length_zeros k : String.length (String.concat "" (replicate k "0"%string)) = k.
Proof.
  induction k as [|k IH]; [reflexivity|]. rewrite zeros_S. cbn [String.length].
  rewrite IH. reflexivity.
Qed.

Lemma padStart0_length k s :
  String.length (padStart0 k s) = Nat.max k (String.length s).
Proof. unfold padStart0. rewrite length_append, length_zeros. lia. Qed.

Lemma padStart0_long k s : (k <= String.length s)%nat -> padStart0 k s = s.
Proof.
  intros Hk. unfold padStart0.
  replace (k - String.length s)%nat with 0%nat by lia. reflexivity.
Qed.

Lemma convertToInputDate_digits d m y :
  all_digits d = true -> all_digits m = true ->
  convertToInputDate (d +:+ "-" +:+ m +:+ "-" +:+ y)
  = (get_str (split "-" y) 0 +:+ "-" +:+ padStart0 2 m +:+ "-" +:+ padStart0 2 d)%string.
Proof.
  intros Hd Hm. unfold convertToInputDate.
  change ("-" +:+ m +:+ "-" +:+ y)%string with (String "-" (m +:+ String "-" y)).
  rewrite (split_digits_hyphen d _ Hd), (split_digits_hyphen m _ Hm).
  reflexivity.
Qed.

Lemma convertFromInputDate_digits y m d :
  all_digits y = true -> all_digits m = true -> all_digits d = true ->
  convertFromInputDate (y +:+ "-" +:+ m +:+ "-" +:+ d)
  = (d +:+ "-" +:+ m +:+ "-" +:+ y)%string.
Proof.
  intros Hy Hm Hd. unfold convertFromInputDate.
  change ("-" +:+ m +:+ "-" +:+ d)%string with (String "-" (m +:+ String "-" d)).
  rewrite (split_digits_hyphen y _ Hy), (split_digits_hyphen m _ Hm), (split_digits d Hd).
  reflexivity.
Qed.

(** The parts of a date that [validateDateFormat] accepts. *)
Lemma validateDateFormat_parts s :
  validateDateFormat tz s = true ->
  exists d m y,
    s = (d +:+ "-" +:+ m +:+ "-" +:+ y)%string
    /\ all_digits d = true /\ all_digits m = true /\ all_digits y = true
    /\ (1 <= String.length d <= 2)%nat /\ (1 <= String.length m <= 2)%nat
    /\ String.length y = 4%nat.
Proof.
  intros Hs. apply validateDateFormat_parseDate in Hs as [Hre _].
  unfold date_regex in Hre.
  destruct (split "-" s) as [|d [|m [|y [|]]]] eqn:E; try discriminate.
  apply split_three in E.
  repeat (apply andb_prop in Hre as [Hre ?]).
  exists d, m, y. repeat split; try assumption;
    repeat match goal with
           | H : (_ <=? _)%nat = true |- _ => apply Nat.leb_le in H
           | H : (_ =? _)%nat = true |- _ => apply Nat.eqb_eq in H
           end; lia.
Qed.

(** X21. The date fields show a stored date through [convertToInputDate]
    and store what is typed through [convertFromInputDate]. For a stored
    date that [validateDateFormat] accepts, storing what is shown keeps the
    date: the stored string is accepted and parses to the same date, and it
    is shown as before. A date printed by [formatDate] (in a year from 0
    on) is stored back as the same string. *)
Theorem input_date_round_trip :
  (forall s,
     validateDateFormat tz s = true ->
     let shown := convertToInputDate s in
     validateDateFormat tz (convertFromInputDate shown) = true
     /\ parseDate tz (convertFromInputDate shown) = parseDate tz s
     /\ convertToInputDate (convertFromInputDate shown) = shown)
  /\ (forall t,
        0 <= getFullYear tz t ->
        convertFromInputDate (convertToInputDate (formatDate tz t)) = formatDate tz t).
Proof.
  split.
  - intros s Hs. cbv zeta.
    destruct (validateDateFormat_parts s Hs)
      as (d & m & y & -> & Hd & Hm & Hy & Hld & Hlm & Hly).
    destruct (padStart0_digits 2 d Hd) as [Hpd Hvd].
    destruct (padStart0_digits 2 m Hm) as [Hpm Hvm].
    rewrite (convertToInputDate_digits d m y Hd Hm), (split_digits y Hy).
    change (get_str [y] 0) with y.
    rewrite (convertFromInputDate_digits y _ _ Hy Hpm Hpd).
    assert (parseDate tz (padStart0 2 d +:+ "-" +:+ padStart0 2 m +:+ "-" +:+ y)
            = parseDate tz (d +:+ "-" +:+ m +:+ "-" +:+ y)) as Hparse.
    { rewrite (parseDate_digits tz _ _ _ Hpd Hpm Hy), (parseDate_digits tz _ _ _ Hd Hm Hy).
      rewrite Hvd, Hvm. reflexivity. }
    split; [|split; [exact Hparse|]].
    + apply validateDateFormat_parseDate. split.
      * unfold date_regex.
        change ("-" +:+ padStart0 2 m +:+ "-" +:+ y)%string
          with (String "-" (padStart0 2 m +:+ String "-" y)).
        rewrite (split_digits_hyphen _ _ Hpd), (split_digits_hyphen _ _ Hpm),
          (split_digits y Hy).
        rewrite Hpd, Hpm, Hy, !padStart0_length, Hly.
        replace (Nat.max 2 (String.length d)) with 2%nat by lia.
        replace (Nat.max 2 (String.length m)) with 2%nat by lia.
        reflexivity.
      * rewrite Hparse. apply validateDateFormat_parseDate in Hs as [_ Hs]. exact Hs.
    + rewrite (convertToInputDate_digits _ _ y Hpd Hpm), (split_digits y Hy).
      change (get_str [y] 0) with y.
      rewrite !(padStart0_long 2 (padStart0 2 _)) by (rewrite padStart0_length; lia).
      reflexivity.
  - intros t Hyear. unfold formatDate.
    pose proof (civil_components tz t) as Hc.
    assert (0 <= getDate tz t /\ 0 <= getMonth tz t + 1) as [Hday Hmonth].
    { unfold getDate, getMonth, civil.
      pose proof (days_from_civil_from_days (Day (LocalTime tz t))) as H.
      destruct (civil_from_days (Day (LocalTime tz t))) as [[y m] d].
      destruct H as (_ & Hm & Hd). lia. }
    destruct (string_of_Z_digits _ Hday) as [Hdd _].
    destruct (string_of_Z_digits _ Hmonth) as [Hmd _].
    destruct (string_of_Z_digits _ Hyear) as [Hyd _].
    destruct (padStart0_digits 2 _ Hdd) as [Hpd _].
    destruct (padStart0_digits 2 _ Hmd) as [Hpm _].
    rewrite (convertToInputDate_digits _ _ _ Hpd Hpm), (split_digits _ Hyd).
    change (get_str [string_of_Z (getFullYear tz t)] 0)
      with (string_of_Z (getFullYear tz t)).
    rewrite !(padStart0_long 2 (padStart0 2 _)) by (rewrite padStart0_length; lia).
    apply (convertFromInputDate_digits _ _ _ Hyd Hpm Hpd).
Qed.
End InputDateFacts.

Lemma input_date_round_trip_witness :
  BillGenerator.validateDateFormat 0 "5-5-2025" = true
  /\ DateSettings.convertToInputDate "5-5-2025" = "2025-05-05"%string
  /\ DateSettings.convertFromInputDate "2025-05-05" = "05-05-2025"%string
  /\ BillGenerator.parseDate 0 "05-05-2025" = BillGenerator.parseDate 0 "5-5-2025".
Proof.
  destruct (input_date_round_trip 0) as [Hstored _].
  assert (BillGenerator.validateDateFormat 0 "5-5-2025" = true) as Hvalid
    by (vm_compute; reflexivity).
  destruct (Hstored "5-5-2025"%string Hvalid) as (_ & Hparse & _).
  split; [exact Hvalid|]. split; [reflexivity|]. split; [reflexivity|].
  exact Hparse.
Defined.

(** ** The weekday check boxes *)

Section ToggleFacts.
Import JS JSDate BillGenerator WeekdayExclusions.

Lemma includes_In l x : includes l x = true <-> In x l.
Proof.
  unfold includes. rewrite existsb_exists. split.
  - intros (y & Hy & E). apply Z.eqb_eq in E. subst y. exact Hy.
  - intros Hx. exists x. split; [exact Hx | apply Z.eqb_refl].
Qed.

Lemma includes_bool l l' x :
  (In x l' <-> In x l) -> includes l' x = includes l x.
Proof.
  intros H. destruct (includes l x) eqn:E.
  - apply includes_In, H, includes_In, E.
  - destruct (includes l' x) eqn:E'; [|reflexivity].
    apply includes_In, H, includes_In in E'. congruence.
Qed.

(** X22. A click on a weekday's check box flips the exclusion of that
    weekday and of no other, so that a second click gives the first list
    back (up to its order), a list without duplicates stays so, and the
    days the generator keeps change on that weekday only. *)
Theorem handleWeekdayToggle_flips (excludedWeekdays : list Z) (weekday : Z) :
  List.NoDup excludedWeekdays ->
  let updated := handleWeekdayToggle excludedWeekdays weekday in
  List.NoDup updated
  /\ includes updated weekday = negb (includes excludedWeekdays weekday)
  /\ (forall d, d <> weekday -> includes updated d = includes excludedWeekdays d)
  /\ (forall tz t, getDay tz t <> weekday ->
        weekday_kept tz updated t = weekday_kept tz excludedWeekdays t)
  /\ handleWeekdayToggle updated weekday ≡ₚ excludedWeekdays.
Proof.
  intros Hnodup. cbv zeta.
  assert (forall d, d <> weekday ->
            includes (handleWeekdayToggle excludedWeekdays weekday) d
            = includes excludedWeekdays d) as Hother.
  { intros d Hd. apply includes_bool. unfold handleWeekdayToggle.
    destruct (includes excludedWeekdays weekday).
    - rewrite filter_In. split; [intros [H _]; exact H|].
      intros H. split; [exact H|]. destruct (Z.eqb_spec d weekday); [congruence | reflexivity].
    - rewrite in_app_iff. cbn [In]. split; [intros [H|[H|[]]]; [exact H | congruence] | auto]. }
  unfold handleWeekdayToggle in *.
  destruct (includes excludedWeekdays weekday) eqn:E.
  - assert (includes (List.filter (fun d => negb (d =? weekday)) excludedWeekdays) weekday
            = false) as Hgone.
    { destruct (includes (List.filter (fun d => negb (d =? weekday)) excludedWeekdays)
                  weekday) eqn:E'; [|reflexivity].
      apply includes_In, filter_In in E' as [_ E']. rewrite Z.eqb_refl in E'. discriminate. }
    split; [apply List.NoDup_filter; exact Hnodup|]. split; [exact Hgone|].
    split; [exact Hother|]. split.
    + intros tz t Ht. unfold weekday_kept. rewrite (Hother _ Ht). reflexivity.
    + rewrite Hgone. apply includes_In in E.
      clear Hother Hgone. induction Hnodup as [|x l Hx Hl IH]; [destruct E|].
      cbn [List.filter]. destruct (Z.eqb_spec x weekday) as [->|Hne]; cbn [negb].
      * assert (List.filter (fun d => negb (d =? weekday)) l = l) as ->.
        { apply filter_all. apply Forall_forall. intros y Hy.
          apply list_elem_of_In in Hy.
          destruct (Z.eqb_spec y weekday); [congruence | reflexivity]. }
        symmetry. apply Permutation_cons_append.
      * destruct E as [E|E]; [congruence|]. cbn [app]. constructor. exact (IH E).
  - assert (~ In weekday excludedWeekdays) as Hnot
      by (intros H; apply includes_In in H; congruence).
    assert (includes (excludedWeekdays ++ [weekday]) weekday = true) as Hin
      by (apply includes_In, in_app_iff; right; left; reflexivity).
    split.
    { apply List.NoDup_app; [exact Hnodup | repeat constructor; intros [] |].
      intros x Hx [<-|[]]. exact (Hnot Hx). }
    split; [exact Hin|]. split; [exact Hother|]. split.
    + intros tz t Ht. unfold weekday_kept. rewrite (Hother _ Ht). reflexivity.
    + rewrite Hin, List.filter_app. cbn [List.filter]. rewrite Z.eqb_refl. cbn [negb].
      rewrite app_nil_r, filter_all; [reflexivity|].
      apply Forall_forall. intros y Hy. apply list_elem_of_In in Hy.
      destruct (Z.eqb_spec y weekday); [congruence | reflexivity].
Qed.
End ToggleFacts.

Lemma handleWeekdayToggle_flips_witness :
  WeekdayExclusions.handleWeekdayToggle [0; 6] 6 = [0]
  /\ WeekdayExclusions.handleWeekdayToggle [0] 6 = [0; 6]
  /\ WeekdayExclusions.handleWeekdayToggle
       (WeekdayExclusions.handleWeekdayToggle [0; 6] 6) 6 ≡ₚ [0; 6].
Proof.
  assert (List.NoDup [0; 6]) as Hnodup
    by (repeat constructor; cbn; intros H; intuition discriminate).
  destruct (handleWeekdayToggle_flips [0; 6] 6 Hnodup) as (_ & _ & _ & _ & Hback).
  split; [reflexivity|]. split; [reflexivity|]. exact Hback.
Defined.

(** ** The offset of local time *)

Section OffsetFacts.
Import JS Calendar JSDate BillGenerator.
Variable tz : Z.

Lemma newDate_shift y m d : newDate tz y m d = newDate 0 y m d - tz.
Proof. unfold newDate, UTC. lia. Qed.

Lemma civil_shift t : civil tz t = civil 0 (t + tz).
Proof. unfold civil, LocalTime. rewrite Z.add_0_r. reflexivity. Qed.

Lemma getFullYear_shift t : getFullYear tz t = getFullYear 0 (t + tz).
Proof. unfold getFullYear. rewrite civil_shift. reflexivity. Qed.

Lemma getMonth_shift t : getMonth tz t = getMonth 0 (t + tz).
Proof. unfold getMonth. rewrite civil_shift. reflexivity. Qed.

Lemma getDate_shift t : getDate tz t = getDate 0 (t + tz).
Proof. unfold getDate. rewrite civil_shift. reflexivity. Qed.

Lemma getDay_shift t : getDay tz t = getDay 0 (t + tz).
Proof. unfold getDay, LocalTime. rewrite Z.add_0_r. reflexivity. Qed.

Lemma formatDate_shift t : formatDate tz t = formatDate 0 (t + tz).
Proof.
  unfold formatDate. rewrite getDate_shift, getMonth_shift, getFullYear_shift.
  reflexivity.
Qed.

Lemma setDate_shift t d : setDate tz t d + tz = setDate 0 (t + tz) d.
Proof.
  unfold setDate, UTC, LocalTime. rewrite getFullYear_shift, getMonth_shift.
  rewrite !Z.add_0_r. lia.
Qed.

Lemma parseDate_shift s :
  parseDate tz s = option_map (fun t => t - tz) (parseDate 0 s).
Proof.
  unfold parseDate.
  destruct (map Number (split "-" s) !! 0%nat) as [[day|]|]; try reflexivity.
  destruct (map Number (split "-" s) !! 1%nat) as [[month|]|]; try reflexivity.
  destruct (map Number (split "-" s) !! 2%nat) as [[year|]|]; try reflexivity.
  cbv zeta. rewrite getDate_shift, getMonth_shift, getFullYear_shift, newDate_shift.
  replace (newDate 0 year (month - 1) day - tz + tz)
    with (newDate 0 year (month - 1) day) by lia.
  destruct (_ || _); reflexivity.
Qed.

Lemma validateDateFormat_shift s : validateDateFormat tz s = validateDateFormat 0 s.
Proof.
  unfold validateDateFormat. rewrite parseDate_shift.
  destruct (parseDate 0 s); reflexivity.
Qed.

Lemma day_loop_shift excl : forall fuel c f acc,
  day_loop tz fuel c f excl acc = day_loop 0 fuel (c + tz) (f + tz) excl acc.
Proof.
  induction fuel as [|fuel IH]; intros c f acc; cbn [day_loop];
    replace (c + tz <=? f + tz) with (c <=? f)
      by (destruct (Z.leb_spec c f), (Z.leb_spec (c + tz) (f + tz)); lia || reflexivity);
    [reflexivity|].
  destruct (c <=? f); [|reflexivity].
  rewrite IH, setDate_shift, getDay_shift, formatDate_shift, getDate_shift.
  reflexivity.
Qed.

Lemma day_loop_fuel_shift c f : day_loop_fuel c f = day_loop_fuel (c + tz) (f + tz).
Proof. unfold day_loop_fuel. replace (f + tz - (c + tz)) with (f - c) by lia. reflexivity. Qed.

Lemma month_loop_shift sy sm excl : forall todo day acc,
  month_loop tz todo day sy sm excl acc = month_loop 0 todo day sy sm excl acc.
Proof.
  induction todo as [|todo IH]; intros day acc; cbn [month_loop]; [reflexivity|].
  rewrite IH, getDay_shift, formatDate_shift, newDate_shift.
  replace (newDate 0 sy (sm - 1) day - tz + tz) with (newDate 0 sy (sm - 1) day) by lia.
  reflexivity.
Qed.

Lemma single_month_shift sm sy excl : single_month tz sm sy excl = single_month 0 sm sy excl.
Proof.
  unfold single_month. cbv zeta. rewrite month_loop_shift. f_equal. f_equal.
  rewrite getDate_shift. unfold getTime. f_equal.
  destruct (sm =? 12); rewrite newDate_shift; lia.
Qed.

Lemma multi_month_shift sm sy em ey excl :
  multi_month tz sm sy em ey excl = multi_month 0 sm sy em ey excl.
Proof.
  unfold multi_month. cbv zeta.
  rewrite day_loop_shift, (day_loop_fuel_shift (newDate tz sy (sm - 1) 1)).
  rewrite !newDate_shift.
  replace (newDate 0 sy (sm - 1) 1 - tz + tz) with (newDate 0 sy (sm - 1) 1) by lia.
  replace (newDate 0 ey em 0 - tz + tz) with (newDate 0 ey em 0) by lia.
  reflexivity.
Qed.

Lemma month_range_mode_shift sm sy em ey excl :
  month_range_mode tz sm sy em ey excl = month_range_mode 0 sm sy em ey excl.
Proof.
  unfold month_range_mode. cbv zeta.
  rewrite single_month_shift, multi_month_shift, !newDate_shift.
  replace (newDate 0 sy (sm - 1) 1 - tz >? newDate 0 ey (em - 1) 1 - tz)
    with (newDate 0 sy (sm - 1) 1 >? newDate 0 ey (em - 1) 1); [reflexivity|].
  destruct (Z.gtb_spec (newDate 0 sy (sm - 1) 1) (newDate 0 ey (em - 1) 1)),
           (Z.gtb_spec (newDate 0 sy (sm - 1) 1 - tz) (newDate 0 ey (em - 1) 1 - tz));
    lia || reflexivity.
Qed.

Lemma exact_range_mode_shift excl a b :
  exact_range_mode tz excl a b = exact_range_mode 0 excl a b.
Proof.
  unfold exact_range_mode. rewrite !parseDate_shift.
  destruct (parseDate 0 a) as [s|]; [|reflexivity].
  destruct (parseDate 0 b) as [e|]; [|reflexivity]. cbn [option_map].
  replace (s - tz >? e - tz) with (s >? e)
    by (destruct (Z.gtb_spec s e), (Z.gtb_spec (s - tz) (e - tz)); lia || reflexivity).
  rewrite day_loop_shift, (day_loop_fuel_shift (s - tz)).
  replace (s - tz + tz) with s by lia. replace (e - tz + tz) with e by lia.
  reflexivity.
Qed.

Lemma specific_date_kept_shift excl d :
  specific_date_kept tz excl d = specific_date_kept 0 excl d.
Proof.
  unfold specific_date_kept. rewrite parseDate_shift.
  destruct (parseDate 0 d) as [t|]; [|reflexivity]. cbn [option_map].
  rewrite getDay_shift. replace (t - tz + tz) with t by lia. reflexivity.
Qed.

Lemma insert_sorted_ext {A} (cmp cmp' : A -> A -> Z) x l :
  (forall a b, cmp a b = cmp' a b) -> insert_sorted cmp x l = insert_sorted cmp' x l.
Proof.
  intros Hext. induction l as [|y l IH]; [reflexivity|].
  cbn [insert_sorted]. rewrite Hext, IH. reflexivity.
Qed.

Lemma sort_ext {A} (cmp cmp' : A -> A -> Z) l :
  (forall a b, cmp a b = cmp' a b) -> sort cmp l = sort cmp' l.
Proof.
  intros Hext. unfold sort. generalize (@nil A).
  induction l as [|x l IH]; intros acc; [reflexivity|].
  cbn [fold_left]. rewrite (insert_sorted_ext cmp cmp' x acc Hext). apply IH.
Qed.

Lemma specific_dates_mode_shift excl dates :
  specific_dates_mode tz excl dates = specific_dates_mode 0 excl dates.
Proof.
  unfold specific_dates_mode. cbv zeta.
  rewrite (List.filter_ext _ _ (specific_date_kept_shift excl)).
  destruct (length _ =? 0)%nat; [reflexivity|]. f_equal.
  apply sort_ext. intros a b. rewrite !parseDate_shift.
  destruct (parseDate 0 a), (parseDate 0 b); cbn [option_map]; try reflexivity.
  unfold getTime. lia.
Qed.

Lemma generateDateRange_shift sm sy em ey excl o :
  generateDateRange tz sm sy em ey excl o = generateDateRange 0 sm sy em ey excl o.
Proof.
  unfold generateDateRange.
  rewrite month_range_mode_shift.
  destruct (o ≫= DateOptions.dateMode) as [[| |]|];
    destruct (o ≫= DateOptions.specificDates) as [[|d ds]|];
    destruct (o ≫= DateOptions.exactStartDate) as [a|];
    destruct (o ≫= DateOptions.exactEndDate) as [b|];
    rewrite ?specific_dates_mode_shift, ?exact_range_mode_shift; reflexivity.
Qed.

Lemma createBillData_shift fuel rnd config :
  createBillData tz fuel rnd config = createBillData 0 fuel rnd config.
Proof. unfold createBillData. rewrite generateDateRange_shift. reflexivity. Qed.

Lemma validateConfigurationLimits_shift config :
  validateConfigurationLimits tz config = validateConfigurationLimits 0 config.
Proof.
  unfold validateConfigurationLimits. cbv zeta.
  destruct (dateMode config) as [[| |]|]; [reflexivity | | | reflexivity].
  - destruct (exactStartDate config) as [a|]; [|reflexivity].
    destruct (exactEndDate config) as [b|]; [|reflexivity].
    rewrite !parseDate_shift.
    destruct (parseDate 0 a) as [s|], (parseDate 0 b) as [e|]; cbn [option_map];
      try reflexivity.
    replace (s - tz >? e - tz) with (s >? e)
      by (destruct (Z.gtb_spec s e), (Z.gtb_spec (s - tz) (e - tz)); lia || reflexivity).
    reflexivity.
  - destruct (specificDates config) as [dates|]; [|reflexivity].
    rewrite (List.filter_ext _ _ validateDateFormat_shift). reflexivity.
Qed.

End OffsetFacts.

(** ** When [createBillData] throws *)

Section ThrowFacts.
Import JS Calendar JSDate BillGenerator.
Variable tz : Z.

Lemma generateDateRange_never_diverges sm sy em ey excl o :
  generateDateRange tz sm sy em ey excl o <> Diverges.
Proof.
  assert (month_range_mode tz sm sy em ey excl <> Diverges) as Hmonth.
  { destruct (Z.le_gt_cases (newDate tz sy (sm - 1) 1) (newDate tz ey (em - 1) 1)) as [H|H].
    - rewrite month_range_mode_spec by exact H. cbv zeta.
      destruct (length _ =? 0)%nat; discriminate.
    - unfold month_range_mode.
      destruct (Z.gtb_spec (newDate tz sy (sm - 1) 1) (newDate tz ey (em - 1) 1));
        [discriminate | lia]. }
  assert (forall a b, exact_range_mode tz excl a b <> Diverges) as Hexact.
  { intros a b. destruct (parseDate tz a) as [s|] eqn:Es.
    - destruct (parseDate tz b) as [e|] eqn:Ee.
      + destruct (Z.le_gt_cases s e) as [H|H].
        * rewrite (exact_range_mode_spec tz excl a b s e Es Ee H). cbv zeta.
          destruct (length _ =? 0)%nat; discriminate.
        * unfold exact_range_mode. rewrite Es, Ee.
          destruct (Z.gtb_spec s e); [discriminate | lia].
      + unfold exact_range_mode. rewrite Es, Ee. discriminate.
    - unfold exact_range_mode. rewrite Es. discriminate. }
  assert (forall dates, specific_dates_mode tz excl dates <> Diverges) as Hspecific.
  { intros dates. unfold specific_dates_mode. cbv zeta.
    destruct (length _ =? 0)%nat; discriminate. }
  unfold generateDateRange.
  destruct (o ≫= DateOptions.dateMode) as [[| |]|];
    destruct (o ≫= DateOptions.specificDates) as [[|d ds]|];
    destruct (o ≫= DateOptions.exactStartDate) as [a|];
    destruct (o ≫= DateOptions.exactEndDate) as [b|];
    try destruct (truthy a && truthy b);
    first [exact Hmonth | apply Hexact | apply Hspecific].
Qed.

Lemma createBillData_never_throws (config : BillConfig) :
  passes_validations tz config ->
  forall fuel rnd msg, createBillData tz fuel rnd config <> Throws msg.
Proof.
  intros (Hstart & Hend & Hrange & (validDates & Hdates & Hne & Henough) & Hdist)
         fuel rnd msg.
  unfold createBillData.
  destruct (Z.leb_spec (invoiceStart config) 0); [lia|].
  destruct (Z.leb_spec (invoiceEnd config) 0); [lia|].
  destruct (Z.gtb_spec (invoiceStart config) (invoiceEnd config)); [lia|].
  cbn [orb check mbind outcome_bind]. rewrite Hdates.
  cbn [check mbind outcome_bind].
  destruct (Nat.eqb_spec (length validDates) 0) as [E|_];
    [destruct validDates; [congruence | discriminate]|].
  cbn [check mbind outcome_bind].
  assert (negb (is_true (allowMultipleInvoicesPerDay config))
          && (Z.of_nat (length validDates)
              <? calculateNumBills (invoiceStart config) (invoiceEnd config)) = false)
    as ->.
  { destruct Henough as [->|Hfew]; [reflexivity|].
    destruct (Z.ltb_spec (Z.of_nat (length validDates))
                (calculateNumBills (invoiceStart config) (invoiceEnd config))); [lia|].
    apply andb_false_r. }
  cbn [check mbind outcome_bind].
  rewrite generateUnitsDistribution_unfold by exact Hdist.
  destruct (allocate _ _ _ _ _); [|discriminate]. cbn [mbind outcome_bind].
  destruct (is_true (allowMultipleInvoicesPerDay config)); [|discriminate].
  rewrite (distributeInvoicesAcrossDates_unfold _ validDates Hne). discriminate.
Qed.

Lemma createBillData_throws (config : BillConfig) :
  ~ passes_validations tz config ->
  forall fuel rnd, exists msg, createBillData tz fuel rnd config = Throws msg.
Proof.
  intros Hfail fuel rnd. unfold createBillData.
  destruct (Z.leb_spec (invoiceStart config) 0); [eexists; reflexivity|].
  destruct (Z.leb_spec (invoiceEnd config) 0); [eexists; reflexivity|].
  destruct (Z.gtb_spec (invoiceStart config) (invoiceEnd config)); [eexists; reflexivity|].
  cbn [orb check mbind outcome_bind].
  destruct (generateDateRange tz (startMonth config) (startYear config) (endMonth config)
              (endYear config) (excludeWeekdays config) (Some (date_options config)))
    as [validDates|msg|] eqn:Hdates;
    [|eexists; reflexivity|exfalso; exact (generateDateRange_never_diverges _ _ _ _ _ _ Hdates)].
  cbn [check mbind outcome_bind].
  destruct (Nat.eqb_spec (length validDates) 0) as [E|Hlen]; [eexists; reflexivity|].
  cbn [check mbind outcome_bind].
  destruct (negb (is_true (allowMultipleInvoicesPerDay config))
            && (Z.of_nat (length validDates)
                <? calculateNumBills (invoiceStart config) (invoiceEnd config))) eqn:Hfew;
    [eexists; reflexivity|].
  cbn [check mbind outcome_bind].
  destruct (valid_distribution_dec (totalUnitsToSell config)
              (calculateNumBills (invoiceStart config) (invoiceEnd config))
              (minUnitsPerBill config) (maxUnitsPerBill config)) as [Hdist|Hdist].
  - exfalso. apply Hfail. unfold passes_validations.
    split; [lia|]. split; [lia|]. split; [lia|]. split; [|exact Hdist].
    exists validDates. split; [exact Hdates|]. split; [intros ->; apply Hlen; reflexivity|].
    destruct (is_true (allowMultipleInvoicesPerDay config)); [left; reflexivity | right].
    cbn [negb andb] in Hfew. apply Z.ltb_ge in Hfew. exact Hfew.
  - destruct (distribution_checks fuel rnd _ _ _ _ Hdist) as (msg & -> & _).
    eexists. reflexivity.
Qed.


Lemma passes_validations_shift (config : BillConfig) :
  passes_validations 0 config -> passes_validations tz config.
Proof.
  unfold passes_validations. rewrite (generateDateRange_shift tz). auto.
Qed.

(** X25. Every preset of [BILL_PRESETS] passes [validateConfigurationLimits];
    yet [createBillData] throws on the preset "June Weekend Sales", which
    asks for 50 bills, one a day, on the 21 days of June 2025 that are no
    Saturdays or Sundays: its message starts with the count of the dates
    and of the bills. On the five other presets [createBillData] does not
    throw, whatever the numbers drawn. *)
Theorem presets_checked fuel rnd :
  map (fun p => isValid (validateConfigurationLimits tz (BillPreset.config p))) BILL_PRESETS
  = [true; true; true; true; true; true]
  /\ map (fun p =>
            match createBillData tz fuel rnd (BillPreset.config p) with
            | Throws msg =>
                Some (String.prefix
                        "Not enough valid dates (21) for the number of bills (50)" msg)
            | _ => None
            end) BILL_PRESETS
     = [None; Some true; None; None; None; None]
  /\ map BillPreset.name BILL_PRESETS !! 1%nat = Some "June Weekend Sales"%string.
Proof.
  split; [|split; [|reflexivity]].
  - unfold BILL_PRESETS. cbn [map BillPreset.config].
    rewrite !(validateConfigurationLimits_shift tz). vm_compute. reflexivity.
  - assert (forall config,
              passes_validations 0 config ->
              match createBillData tz fuel rnd config with
              | Throws msg =>
                  Some (String.prefix
                          "Not enough valid dates (21) for the number of bills (50)" msg)
              | _ => None
              end = None) as Hpass.
    { intros config H. apply passes_validations_shift in H.
      pose proof (createBillData_never_throws config H fuel rnd) as Hno.
      destruct (createBillData tz fuel rnd config) as [| msg |]; try reflexivity.
      exfalso. exact (Hno msg eq_refl). }
    unfold BILL_PRESETS. cbn [map BillPreset.config].
    repeat match goal with
           | |- _ :: _ = None :: _ =>
               apply (f_equal2 cons);
               [apply Hpass; unfold passes_validations;
                cbn [invoiceStart invoiceEnd];
                split; [lia|]; split; [lia|]; split; [lia|]; split;
                [eexists; split; [vm_compute; reflexivity|]; split; [discriminate|];
                 first [left; reflexivity | right; vm_compute; discriminate]
                |unfold valid_distribution; vm_compute; repeat split; discriminate]
               |]
           | |- _ :: _ = Some true :: _ =>
               apply (f_equal2 cons);
               [rewrite (createBillData_shift tz); vm_compute; reflexivity|]
           end.
    reflexivity.
Qed.
End ThrowFacts.


(** ** The days of a range are all different *)

Section DistinctFacts.
Import JS Calendar JSDate BillGenerator.
Variable tz : Z.

(** A day lies in its month: from the first day of the month to the day
    before the first day of the next month. *)
Lemma civil_day_window D :
  let '(y, m, d) := civil_from_days D in
  1 <= m <= 12
  /\ MakeDay 0 (12 * y + (m - 1)) 1 <= D < MakeDay 0 (12 * y + (m - 1) + 1) 1.
Proof.
  pose proof (days_from_civil_from_days D) as H.
  destruct (civil_from_days D) as [[y m] d]. destruct H as (Hz & Hm & Hd).
  split; [exact Hm|].
  rewrite MakeDay_next_month, <- (MakeDay_index y (m - 1)).
  assert ((12 * y + (m - 1)) / 12 = y) as -> by (Z.div_mod_to_equations; lia).
  assert ((12 * y + (m - 1)) mod 12 = m - 1) as -> by (Z.div_mod_to_equations; lia).
  assert (MakeDay y (m - 1) 1 = days_from_civil y m 1) as ->.
  { unfold MakeDay. cbv zeta.
    assert ((m - 1) / 12 = 0) as -> by (Z.div_mod_to_equations; lia).
    assert ((m - 1) mod 12 = m - 1) as -> by (Z.div_mod_to_equations; lia).
    replace (y + 0) with y by lia. replace (m - 1 + 1) with m by lia. lia. }
  assert (days_from_civil y m d = days_from_civil y m 1 + d - 1) as Hday
    by (unfold days_from_civil; cbv zeta; lia).
  replace (0 + y) with y by lia. replace (m - 1 + 1) with m by lia. lia.
Qed.

(** A later day is in the same year or in a later one. *)
Lemma year_mono D D' :
  D <= D' -> fst (fst (civil_from_days D)) <= fst (fst (civil_from_days D')).
Proof.
  intros Hle. pose proof (civil_day_window D) as H. pose proof (civil_day_window D') as H'.
  destruct (civil_from_days D) as [[y m] d], (civil_from_days D') as [[y' m'] d'].
  cbn [fst]. destruct H as (Hm & Hlo & _), H' as (Hm' & _ & Hhi).
  destruct (Z.le_gt_cases y y') as [|Hgt]; [assumption | exfalso].
  assert (12 * y' + (m' - 1) + 1 <= 12 * y + (m - 1)) as Hk by lia.
  destruct (Z.eq_dec (12 * y' + (m' - 1) + 1) (12 * y + (m - 1))) as [E|E].
  - rewrite E in Hhi. lia.
  - pose proof (MakeDay_index_mono (12 * y' + (m' - 1) + 1) (12 * y + (m - 1)) ltac:(lia)).
    lia.
Qed.

Lemma getFullYear_mono t t' : t <= t' -> getFullYear tz t <= getFullYear tz t'.
Proof.
  intros Hle. unfold getFullYear, civil.
  assert (Day (LocalTime tz t) <= Day (LocalTime tz t')) as Hday
    by (unfold Day, LocalTime; apply Z.div_le_mono; [reflexivity | lia]).
  pose proof (year_mono _ _ Hday) as H.
  destruct (civil_from_days (Day (LocalTime tz t))) as [[y m] d],
           (civil_from_days (Day (LocalTime tz t'))) as [[y' m'] d'].
  exact H.
Qed.

Lemma days_from_elem n : forall c t,
  t ∈ days_from c n -> exists k, 0 <= k < Z.of_nat n /\ t = c + k * msPerDay.
Proof.
  induction n as [|n IH]; intros c t Hin; cbn [days_from] in Hin.
  - apply elem_of_nil in Hin. destruct Hin.
  - apply elem_of_cons in Hin as [->|Hin].
    + exists 0. split; lia.
    + destruct (IH _ _ Hin) as (k & Hk & ->). exists (k + 1). split; lia.
Qed.

Lemma days_from_NoDup n : forall c, NoDup (days_from c n).
Proof.
  pose proof msPerDay_pos as Hms.
  induction n as [|n IH]; intros c; cbn [days_from]; constructor; [|apply IH].
  intros Hin. destruct (days_from_elem _ _ _ Hin) as (k & Hk & E). nia.
Qed.

Lemma NoDup_list_filter {A} (f : A -> bool) (l : list A) :
  NoDup l -> NoDup (List.filter f l).
Proof.
  induction 1 as [|x l Hx Hl IH]; cbn [List.filter]; [constructor|].
  destruct (f x); [|exact IH]. constructor; [|exact IH].
  intros Hin. apply Hx. apply list_elem_of_In in Hin. apply filter_In in Hin as [Hin _].
  apply list_elem_of_In. exact Hin.
Qed.

(** The days from a local midnight on, in a year from 100 on, are printed
    as dates that are all different. *)
Lemma enumerated_NoDup excl s n :
  100 <= getFullYear tz s -> TimeWithinDay (LocalTime tz s) = 0 ->
  NoDup (map (formatDate tz) (List.filter (weekday_kept tz excl) (days_from s n))).
Proof.
  intros Hyear Hmidnight. pose proof msPerDay_pos as Hms.
  apply NoDup_fmap_2_strong; [|apply NoDup_list_filter, days_from_NoDup].
  assert (forall t, t ∈ List.filter (weekday_kept tz excl) (days_from s n) ->
            parseDate tz (formatDate tz t) = Some t) as Hback.
  { intros t Ht. apply list_elem_of_In, filter_In in Ht as [Ht _].
    apply list_elem_of_In in Ht. destruct (days_from_elem _ _ _ Ht) as (k & Hk & ->).
    rewrite formatDate_parse by (pose proof (getFullYear_mono s (s + k * msPerDay)); nia).
    f_equal. unfold TimeWithinDay, LocalTime in *.
    replace (s + k * msPerDay + tz) with (s + tz + k * msPerDay) by lia.
    rewrite Z.mod_add by lia. lia. }
  intros x y Hx Hy E. apply Hback in Hx, Hy. rewrite E in Hx. congruence.
Qed.

Lemma bill_loop_dates_take config (dates : list string) us n :
  (n <= length dates)%nat ->
  map date (bill_loop n 0 config dates us []) = take n dates.
Proof.
  intros Hn. rewrite bill_loop_spec. cbn [app]. rewrite map_map.
  apply list_eq. intros i. rewrite list_lookup_fmap.
  destruct (Nat.lt_ge_cases i n) as [Hi|Hi].
  - rewrite lookup_seq_lt by exact Hi. cbn.
    rewrite lookup_take_lt by exact Hi.
    destruct (lookup_lt_is_Some_2 dates i) as [d Hd]; [lia|].
    unfold get_str. rewrite Hd. reflexivity.
  - rewrite lookup_seq_ge by exact Hi. cbn.
    rewrite lookup_take_ge by exact Hi. reflexivity.
Qed.

Lemma Returns_inj {A} (a b : A) : Returns a = Returns b -> a = b.
Proof. intros [= H]. exact H. Qed.

Lemma generateDateRange_not_specific sm sy em ey excl o :
  o ≫= DateOptions.dateMode <> Some SpecificDates ->
  generateDateRange tz sm sy em ey excl o = month_range_mode tz sm sy em ey excl
  \/ exists a b, generateDateRange tz sm sy em ey excl o = exact_range_mode tz excl a b.
Proof.
  intros Hmode. unfold generateDateRange.
  destruct (o ≫= DateOptions.dateMode) as [[| |]|]; [| |congruence|];
    destruct (o ≫= DateOptions.specificDates) as [[|d ds]|];
    destruct (o ≫= DateOptions.exactStartDate) as [a|];
    destruct (o ≫= DateOptions.exactEndDate) as [b|];
    try destruct (truthy a && truthy b);
    first [left; reflexivity | right; eexists; eexists; reflexivity].
Qed.

End DistinctFacts.

